(** * Personal finance tracker: the statement-understanding core

    A shallow embedding of [pf/classify.py] and [pf/parsers/generic.py]
    (statement classification, masked-account extraction, statement-period
    inference, transaction-line extraction and categorisation), followed by
    the properties the specification states about them.

    Python values are modelled as follows.
    - [str] is a list of Unicode code points ([N]).
    - [int] is [Z]; a [float] is the exact rational it denotes, kept in
      lowest terms ([Q] with [Qred]).  The floats of this program are read
      from numerals with two decimals or are quotients of two small
      integers, and are only negated, made absolute and compared with 0:
      none of these depends on the rounding to binary.
    - a [dict] is an association list in insertion order.
    - a raised exception is the [Raise] branch of [result].
    - the Unicode tables of the interpreter are fixed on the ASCII range and
      a parameter ([UnicodeData]) outside it. *)

From Stdlib Require Import Ascii String.
From Stdlib Require Import List Bool Arith NArith ZArith QArith Qabs Lia.
Import ListNotations.

Set Implicit Arguments.

Close Scope Q_scope.

(** ** Python runtime: exceptions *)

Inductive exn : Type :=
| KeyError
| ValueError
| ZeroDivisionError
| OverflowError
| TypeError
| OtherError (name : string).

Inductive result (A : Type) : Type :=
| Ok (a : A)
| Raise (e : exn).

Arguments Ok {A} a.
Arguments Raise {A} e.

Definition bind {A B : Type} (m : result A) (k : A -> result B) : result B :=
  match m with
  | Ok a => k a
  | Raise e => Raise e
  end.

Notation "x <- m ;; k" := (bind m (fun x => k))
  (at level 61, m at next level, right associativity).

(** [try: v = m  except Exception: v = None] *)
Definition try_or_None {A : Type} (m : result A) : option A :=
  match m with
  | Ok a => Some a
  | Raise _ => None
  end.

(** ** Python runtime: text *)

Open Scope N_scope.

(** A code point, and a text. *)
Abbreviation char := N (only parsing).
Abbreviation str := (list N) (only parsing).

(** A source literal (ASCII only) as a [str]. *)
Definition lit (s : string) : str := map N_of_ascii (list_ascii_of_string s).

Definition is_ascii (c : char) : bool := (c <? 128)%N.

Definition in_range (lo hi c : char) : bool := ((lo <=? c) && (c <=? hi))%N.

Definition ascii_isupper (c : char) : bool := in_range 65 90 c.
Definition ascii_islower (c : char) : bool := in_range 97 122 c.
Definition ascii_isdigit (c : char) : bool := in_range 48 57 c.

Definition ascii_lower (c : char) : char :=
  if ascii_isupper c then (c + 32)%N else c.

Definition ascii_upper (c : char) : char :=
  if ascii_islower c then (c - 32)%N else c.

(** The part of the interpreter's Unicode database that lies outside ASCII:
    [str.lower] on a text that is not pure ASCII, the decimal-digit value of
    a code point of category Nd, and the alphanumeric test behind [\w]. *)
Class UnicodeData : Type := {
  ud_lower : str -> str;
  ud_decimal : char -> option Z;
  ud_alnum : char -> bool
}.

(** The database in which no code point outside ASCII is a digit or a
    letter; used to run the model on concrete ASCII inputs. *)
Definition ascii_only : UnicodeData :=
  {| ud_lower := fun s => s;
     ud_decimal := fun _ => None;
     ud_alnum := fun _ => false |}.

Fixpoint str_eqb (a b : str) : bool :=
  match a, b with
  | [], [] => true
  | x :: a', y :: b' => (x =? y)%N && str_eqb a' b'
  | _, _ => false
  end.

(** [s.startswith(p)] *)
Fixpoint startswith (s p : str) : bool :=
  match p, s with
  | [], _ => true
  | x :: p', y :: s' => (x =? y)%N && startswith s' p'
  | _ :: _, [] => false
  end.

(** [s.endswith(p)] *)
Definition endswith (s p : str) : bool := startswith (rev s) (rev p).

(** [sub in s] *)
Fixpoint contains (s sub : str) : bool :=
  startswith s sub ||
  match s with
  | [] => false
  | _ :: s' => contains s' sub
  end.

(** [str.isspace] of one code point; also the class [\s] of [re]. *)
Definition isspace (c : char) : bool :=
  in_range 9 13 c || in_range 28 32 c || (c =? 133)%N || (c =? 160)%N ||
  (c =? 5760)%N || in_range 8192 8202 c || (c =? 8232)%N || (c =? 8233)%N ||
  (c =? 8239)%N || (c =? 8287)%N || (c =? 12288)%N.

Fixpoint lstrip (s : str) : str :=
  match s with
  | [] => []
  | c :: s' => if isspace c then lstrip s' else s
  end.

Definition rstrip (s : str) : str := rev (lstrip (rev s)).

(** [s.strip()] *)
Definition strip (s : str) : str := lstrip (rstrip s).

(** The line boundaries of [str.splitlines]. *)
Definition is_linebreak (c : char) : bool :=
  in_range 10 13 c || in_range 28 30 c || (c =? 133)%N || (c =? 8232)%N ||
  (c =? 8233)%N.

(** [splitlines_from after_cr cur s]: [cur] is the current line, reversed;
    [after_cr] says that the previous code point was a carriage return, so
    that a line feed now belongs to the same boundary. *)
Fixpoint splitlines_from (after_cr : bool) (cur : str) (s : str) : list str :=
  match s with
  | [] => match cur with [] => [] | _ => [rev cur] end
  | c :: s' =>
      if after_cr && (c =? 10)%N then splitlines_from false cur s'
      else if is_linebreak c then rev cur :: splitlines_from (c =? 13)%N [] s'
      else splitlines_from false (c :: cur) s'
  end.

(** [s.splitlines()] *)
Definition splitlines (s : str) : list str := splitlines_from false [] s.

(** [sep.join(parts)] *)
Fixpoint join (sep : str) (parts : list str) : str :=
  match parts with
  | [] => []
  | [p] => p
  | p :: rest => p ++ sep ++ join sep rest
  end.

(** [s.replace(old, "")] for a one-character [old]. *)
Definition remove_char (old : char) (s : str) : str :=
  filter (fun c => negb (c =? old)%N) s.

(** [s.title()] on ASCII text: the first letter of every run of letters in
    upper case, the others in lower case. *)
Fixpoint title_from (in_word : bool) (s : str) : str :=
  match s with
  | [] => []
  | c :: s' =>
      if ascii_isupper c || ascii_islower c
      then (if in_word then ascii_lower c else ascii_upper c) :: title_from true s'
      else c :: title_from false s'
  end.

Definition title (s : str) : str := title_from false s.

Section UnicodeText.
Context {U : UnicodeData}.

(** [s.lower()] *)
Definition lower (s : str) : str :=
  if forallb is_ascii s then map ascii_lower s else ud_lower s.

(** Decimal value of a digit, as [int] and [float] read it. *)
Definition decimal (c : char) : option Z :=
  if is_ascii c
  then (if ascii_isdigit c then Some (Z.of_N c - 48)%Z else None)
  else ud_decimal c.

(** The class [\d]. *)
Definition isdigit (c : char) : bool :=
  match decimal c with Some _ => true | None => false end.

(** The class [\w]. *)
Definition isword (c : char) : bool :=
  if is_ascii c
  then ascii_isupper c || ascii_islower c || ascii_isdigit c || (c =? 95)%N
  else ud_alnum c.

(** Value of a non-empty run of decimal digits, most significant first. *)
Fixpoint digits_value (acc : Z) (s : str) : option Z :=
  match s with
  | [] => Some acc
  | c :: s' =>
      match decimal c with
      | Some d => digits_value (10 * acc + d)%Z s'
      | None => None
      end
  end.

(** [int(s)] on the texts the program passes to it, which are runs of
    digits cut out by a regular expression; anything else is a
    [ValueError] here (signs, blanks and underscores never reach it). *)
Definition py_int (s : str) : result Z :=
  match s with
  | [] => Raise ValueError
  | _ => match digits_value 0 s with
         | Some v => Ok v
         | None => Raise ValueError
         end
  end.

End UnicodeText.

Close Scope N_scope.

(** ** Python runtime: dictionaries and the [max] and [sum] builtins *)

Definition dict : Type := list (str * Z).

Fixpoint dict_get (d : dict) (k : str) : option Z :=
  match d with
  | [] => None
  | (k', v) :: d' => if str_eqb k' k then Some v else dict_get d' k
  end.

(** [d[k] = v]: an existing key keeps its place, a new one goes last. *)
Fixpoint dict_set (d : dict) (k : str) (v : Z) : dict :=
  match d with
  | [] => [(k, v)]
  | (k', v') :: d' =>
      if str_eqb k' k then (k', v) :: d' else (k', v') :: dict_set d' k v
  end.

(** [d[k]] *)
Definition dict_item (d : dict) (k : str) : result Z :=
  match dict_get d k with
  | Some v => Ok v
  | None => Raise KeyError
  end.

(** [d[k] += v] *)
Definition dict_iadd (d : dict) (k : str) (v : Z) : result dict :=
  x <- dict_item d k ;; Ok (dict_set d k (x + v)%Z).

Definition dict_keys (d : dict) : list str := map fst d.
Definition dict_values (d : dict) : list Z := map snd d.

(** The loop of the [max] builtin: a later item replaces the current one
    only when it is strictly greater ([gt item current]). *)
Fixpoint max_loop {A : Type} (gt : A -> A -> bool) (best : A) (l : list A) : A :=
  match l with
  | [] => best
  | x :: l' => max_loop gt (if gt x best then x else best) l'
  end.

(** [max(l)] under the ordering [gt] of the items. *)
Definition py_max {A : Type} (gt : A -> A -> bool) (l : list A) : result A :=
  match l with
  | [] => Raise ValueError
  | x :: l' => Ok (max_loop gt x l')
  end.

(** [max(l, key=f)] *)
Definition py_max_key {A : Type} (key : A -> Z) (l : list A) : result A :=
  py_max (fun x best => (key best <? key x)%Z) l.

(** [max(l, default=d)] *)
Definition py_max_default (l : list Z) (d : Z) : Z :=
  match l with
  | [] => d
  | x :: l' => max_loop (fun v best => (best <? v)%Z) x l'
  end.

(** [sum(l)] *)
Definition py_sum (l : list Z) : Z := fold_left Z.add l 0%Z.

(** [a / b] on two [int]s. *)
Definition py_truediv (a b : Z) : result Q :=
  if (b =? 0)%Z then Raise ZeroDivisionError
  else Ok (Qred (inject_Z a / inject_Z b)).

(** ** The [re] module: a backtracking matcher

    Patterns are matched the way [re] does it: alternatives and repetition
    counts are tried in priority order (left alternative first, greedy
    repetition), and the first complete match wins.  The matcher is written
    in continuation-passing style; [None] is a failed attempt. *)

Inductive regex : Type :=
| Eps
| Chr (p : char -> bool)                       (* one code point of a class *)
| Seq (a b : regex)
| Alt (a b : regex)                            (* a|b *)
| Rep (lo : nat) (hi : option nat) (a : regex) (* a{lo,hi}, greedy *)
| Grp (n : nat) (a : regex)                    (* capturing group n *)
| Bol                                          (* ^ *)
| Eol                                          (* $ *)
| WordB.                                       (* \b *)

Record mstate : Type := {
  ms_prev : option char;        (* the code point before the cursor *)
  ms_rest : str;                (* the text from the cursor on *)
  ms_groups : list (nat * str)  (* captured groups, latest first *)
}.

Definition cont : Type := mstate -> option mstate.
Definition matcher : Type := mstate -> cont -> option mstate.

(** The text between two cursors. *)
Definition consumed (before after : str) : str :=
  firstn (length before - length after) before.

Definition set_group (n : nat) (st0 st1 : mstate) : mstate :=
  {| ms_prev := ms_prev st1;
     ms_rest := ms_rest st1;
     ms_groups := (n, consumed (ms_rest st0) (ms_rest st1)) :: ms_groups st1 |}.

Fixpoint lookup_group (n : nat) (gs : list (nat * str)) : option str :=
  match gs with
  | [] => None
  | (n', w) :: gs' => if (n' =? n)%nat then Some w else lookup_group n gs'
  end.

(** Greedy repetition of the matcher [m]: at least [lo] and at most [hi]
    rounds.  An optional round that consumes nothing is not taken.  [fuel]
    bounds the recursion; the matcher gives the loop more of it than the
    rounds can use ([rep_loop_fuel_irrelevant]). *)
Fixpoint rep_loop (m : matcher) (fuel lo : nat) (hi : option nat)
    (st : mstate) (k : cont) : option mstate :=
  match fuel with
  | O => match lo with O => k st | S _ => None end
  | S fuel' =>
      match hi with
      | Some O => match lo with O => k st | S _ => None end
      | _ =>
          let again :=
            m st (fun st1 =>
              if (lo =? 0)%nat &&
                 (length (ms_rest st1) =? length (ms_rest st))%nat
              then None
              else rep_loop m fuel' (pred lo) (option_map pred hi) st1 k) in
          match lo with
          | S _ => again
          | O => match again with
                 | Some r => Some r
                 | None => k st
                 end
          end
      end
  end.

Section Matcher.
Context {U : UnicodeData}.

Definition opt_isword (c : option char) : bool :=
  match c with Some x => isword x | None => false end.

Fixpoint rmatch (r : regex) (st : mstate) (k : cont) : option mstate :=
  match r with
  | Eps => k st
  | Chr p =>
      match ms_rest st with
      | c :: s' =>
          if p c
          then k {| ms_prev := Some c; ms_rest := s'; ms_groups := ms_groups st |}
          else None
      | [] => None
      end
  | Seq a b => rmatch a st (fun st1 => rmatch b st1 k)
  | Alt a b =>
      match rmatch a st k with
      | Some res => Some res
      | None => rmatch b st k
      end
  | Rep lo hi a =>
      let fuel := match hi with
                  | Some h => S h
                  | None => S (lo + length (ms_rest st))
                  end in
      rep_loop (rmatch a) fuel lo hi st k
  | Grp n a => rmatch a st (fun st1 => k (set_group n st st1))
  | Bol => match ms_prev st with None => k st | Some _ => None end
  | Eol =>
      match ms_rest st with
      | [] => k st
      | [c] => if (c =? 10)%N then k st else None
      | _ => None
      end
  | WordB =>
      if xorb (opt_isword (ms_prev st)) (opt_isword (hd_error (ms_rest st)))
      then k st else None
  end.

(** A match object. *)
Record match_obj : Type := {
  m_start : nat;               (* m.start() *)
  m_text : str;                (* m.group(0) *)
  m_groups : list (nat * str);
  m_prev : option char;        (* the code point before m.end() *)
  m_rest : str                 (* the text from m.end() on *)
}.

Definition m_end (m : match_obj) : nat := (m_start m + length (m_text m))%nat.

(** [m.group(n)] for [n >= 1]; [None] when the group took no part. *)
Definition group (n : nat) (m : match_obj) : option str :=
  lookup_group n (m_groups m).

(** One attempt with the cursor at the start of [s]. *)
Definition match_here (r : regex) (pos : nat) (prev : option char) (s : str)
    : option match_obj :=
  match rmatch r {| ms_prev := prev; ms_rest := s; ms_groups := [] |} Some with
  | Some st =>
      Some {| m_start := pos;
              m_text := consumed s (ms_rest st);
              m_groups := ms_groups st;
              m_prev := ms_prev st;
              m_rest := ms_rest st |}
  | None => None
  end.

(** The leftmost match at or after the cursor. *)
Fixpoint search_from (r : regex) (pos : nat) (prev : option char) (s : str)
    : option match_obj :=
  match match_here r pos prev s with
  | Some m => Some m
  | None =>
      match s with
      | [] => None
      | c :: s' => search_from r (S pos) (Some c) s'
      end
  end.

(** [pattern.search(s)] *)
Definition re_search (r : regex) (s : str) : option match_obj :=
  search_from r 0 None s.

(** [pattern.match(s)] *)
Definition re_match (r : regex) (s : str) : option match_obj :=
  match_here r 0 None s.

(** The successive non-overlapping matches.  After an empty match the
    scan resumes one code point further (no pattern of this program
    matches the empty text).  [fuel] bounds the recursion and is never
    used up ([finditer_fuel_irrelevant]). *)
Fixpoint finditer_from (fuel : nat) (r : regex) (pos : nat)
    (prev : option char) (s : str) : list match_obj :=
  match fuel with
  | O => []
  | S fuel' =>
      match search_from r pos prev s with
      | None => []
      | Some m =>
          m :: match m_text m, m_rest m with
               | [], [] => []
               | [], c :: s' => finditer_from fuel' r (S (m_end m)) (Some c) s'
               | _ :: _, s' => finditer_from fuel' r (m_end m) (m_prev m) s'
               end
      end
  end.

(** [pattern.finditer(s)] *)
Definition re_finditer (r : regex) (s : str) : list match_obj :=
  finditer_from (S (length s)) r 0 None s.

(** The text [s], which starts at offset [pos], with every match of [ms]
    replaced by [repl]. *)
Fixpoint sub_matches (repl : str) (pos : nat) (s : str) (ms : list match_obj)
    : str :=
  match ms with
  | [] => s
  | m :: ms' =>
      firstn (m_start m - pos) s ++ repl ++
      sub_matches repl (m_end m) (skipn (m_end m - pos) s) ms'
  end.

(** [re.sub(pattern, repl, s)] *)
Definition re_sub (r : regex) (repl : str) (s : str) : str :=
  sub_matches repl 0 s (re_finditer r s).

(** *** Pattern syntax *)

Definition cat (rs : list regex) : regex := fold_right Seq Eps rs.
Definition chr (c : char) : regex := Chr (N.eqb c).
Definition text (s : string) : regex := cat (map chr (lit s)).
Definition opt (a : regex) : regex := Rep 0 (Some 1%nat) a.
Definition star (a : regex) : regex := Rep 0 None a.
Definition plus (a : regex) : regex := Rep 1 None a.
Definition times (n : nat) (a : regex) : regex := Rep n (Some n) a.
Definition between (lo hi : nat) (a : regex) : regex := Rep lo (Some hi) a.

Definition digit : regex := Chr isdigit.                        (* \d *)
Definition space : regex := Chr isspace.                        (* \s *)
Definition dot : regex := Chr (fun c => negb (c =? 10)%N).      (* . *)
Definition dash_or_slash : regex :=                             (* [\-/] *)
  Chr (fun c => (c =? 45)%N || (c =? 47)%N).

End Matcher.

(** ** The [datetime] module: calendar dates *)

Open Scope Z_scope.

Record date : Type := { year : Z; month : Z; day : Z }.

Definition is_leap (y : Z) : bool :=
  (y mod 4 =? 0) && (negb (y mod 100 =? 0) || (y mod 400 =? 0)).

Definition days_in_month (y m : Z) : Z :=
  if m =? 2 then (if is_leap y then 29 else 28)
  else if (m =? 4) || (m =? 6) || (m =? 9) || (m =? 11) then 30
  else 31.

Definition valid_ymd (y m d : Z) : bool :=
  (1 <=? y) && (y <=? 9999) && (1 <=? m) && (m <=? 12) &&
  (1 <=? d) && (d <=? days_in_month y m).

(** [dt.date(y, m, d)] *)
Definition new_date (y m d : Z) : result date :=
  if valid_ymd y m d then Ok {| year := y; month := m; day := d |}
  else Raise ValueError.

(** [a < b] and [a <= b] on dates. *)
Definition date_ltb (a b : date) : bool :=
  (year a <? year b) ||
  ((year a =? year b) &&
   ((month a <? month b) || ((month a =? month b) && (day a <? day b)))).

Definition date_leb (a b : date) : bool := negb (date_ltb b a).

(** [d - dt.timedelta(days=1)]: the day before, or [OverflowError] before
    the first day of year 1. *)
Definition sub_one_day (d : date) : result date :=
  if 1 <? day d
  then Ok {| year := year d; month := month d; day := day d - 1 |}
  else if 1 <? month d
  then Ok {| year := year d; month := month d - 1;
             day := days_in_month (year d) (month d - 1) |}
  else if 1 <? year d
  then Ok {| year := year d - 1; month := 12; day := 31 |}
  else Raise OverflowError.

Close Scope Z_scope.

(** * pf/classify.py *)

Section Classify.
Context {U : UnicodeData}.

Definition _DATE_RE : regex :=
  cat [WordB; Grp 1 (between 1 2 digit); dash_or_slash;
       Grp 2 (between 1 2 digit); dash_or_slash;
       Grp 3 (between 2 4 digit); WordB].

(** [\d{1,2}[\-/]\d{1,2}[\-/]\d{2,4}] *)
Definition date_like : regex :=
  cat [between 1 2 digit; dash_or_slash; between 1 2 digit; dash_or_slash;
       between 2 4 digit].

(** The class [[–\-to]] under IGNORECASE: en dash, hyphen, t, o, T, O. *)
Definition connector : regex :=
  Chr (fun c => (c =? 8211)%N || (c =? 45)%N || (c =? 116)%N ||
                (c =? 111)%N || (c =? 84)%N || (c =? 79)%N).

Definition _RANGE_RE : regex :=
  cat [Grp 1 date_like; star space; plus connector; star space;
       Grp 2 date_like].

(** [re.split(r"[\-/]", s)] *)
Fixpoint split_from (cur : str) (s : str) : list str :=
  match s with
  | [] => [rev cur]
  | c :: s' =>
      if (c =? 45)%N || (c =? 47)%N
      then rev cur :: split_from [] s'
      else split_from (c :: cur) s'
  end.

Definition _parse_date (s : str) : option date :=
  let body : result (option date) :=
    match split_from [] s with
    | [m; d; y] =>
        y <- py_int y ;;
        let y := if (y <? 100)%Z then (y + 2000)%Z else y in
        m <- py_int m ;;
        d <- py_int d ;;
        r <- new_date y m d ;;
        Ok (Some r)
    | _ => Ok None
    end in
  match body with
  | Ok r => r
  | Raise _ => None
  end.

(** [_parse_date(m.group(n))]; a group that took no part is [None], on
    which [re.split] raises inside the [try]. *)
Definition parse_group (n : nat) (m : match_obj) : option date :=
  match group n m with
  | Some w => _parse_date w
  | None => None
  end.

Definition statement_types : list str :=
  [lit "mortgage"; lit "credit_card"; lit "brokerage"; lit "bank"].

Definition mortgage_cues : list str :=
  [lit "escrow"; lit "principal"; lit "interest"; lit "mortgage";
   lit "loan number"].
Definition cc_cues : list str :=
  [lit "minimum payment"; lit "payment due date"; lit "new balance";
   lit "credit card"].
Definition brkg_cues : list str :=
  [lit "positions"; lit "dividends"; lit "trade date"; lit "gain";
   lit "brokerage"].
Definition bank_cues : list str :=
  [lit "checking"; lit "savings"; lit "withdrawal"; lit "deposit";
   lit "account summary"].

(** [for cue in cues: scores[key] += 1 if cue in t else 0] *)
Fixpoint count_cues (scores : dict) (key : str) (cues : list str) (t : str)
    : result dict :=
  match cues with
  | [] => Ok scores
  | cue :: cues' =>
      scores' <- dict_iadd scores key (if contains t cue then 1 else 0)%Z ;;
      count_cues scores' key cues' t
  end.

(** The [scores] dictionary after the four counting loops. *)
Definition cue_scores (t : str) : result dict :=
  let scores := map (fun ty => (ty, 0%Z)) statement_types in
  scores <- count_cues scores (lit "mortgage") mortgage_cues t ;;
  scores <- count_cues scores (lit "credit_card") cc_cues t ;;
  scores <- count_cues scores (lit "brokerage") brkg_cues t ;;
  count_cues scores (lit "bank") bank_cues t.

(** [scores.get], used as the key of [max] over the dictionary's own keys. *)
Definition scores_get (scores : dict) (k : str) : Z :=
  match dict_get scores k with Some v => v | None => 0%Z end.

Definition classify_statement (text : str) : result (str * Q) :=
  let t := lower text in
  scores <- cue_scores t ;;
  best_type <- py_max_key (scores_get scores) (dict_keys scores) ;;
  let total := py_sum (dict_values scores) in
  confidence <-
    (if (total =? 0)%Z then Ok 0%Q
     else
       s <- dict_item scores best_type ;;
       py_truediv s (Z.max 1 (py_max_default (dict_values scores) 1))) ;;
  Ok (best_type, confidence).

Definition institutions : list str :=
  [lit "chase"; lit "wells fargo"; lit "bank of america";
   lit "american express"; lit "amex"; lit "citi"; lit "fidelity";
   lit "vanguard"; lit "charles schwab"].

(** The masked-account patterns, in the order they are tried. *)
Definition last_digits : regex := Grp 1 (between 3 4 digit).

Definition account_patterns : list regex :=
  [ cat [text "account ending in"; star space; last_digits];
    cat [text "account"; star space; text "no"; opt (chr 46%N); star space;
         plus (chr 42%N); star space; last_digits];
    cat [Rep 2 None (chr 42%N); last_digits];
    cat [text "xxxx"; star space; last_digits] ].

(** [for name in institutions: if name in low: inst = name.title(); break] *)
Fixpoint first_institution (low : str) (names : list str) : option str :=
  match names with
  | [] => None
  | name :: names' =>
      if contains low name then Some (title name)
      else first_institution low names'
  end.

(** [for p in patterns: m = re.search(p, low); if m: last4 = m.group(1); break] *)
Fixpoint first_account (low : str) (patterns : list regex) : option str :=
  match patterns with
  | [] => None
  | p :: patterns' =>
      match re_search p low with
      | Some m => group 1 m
      | None => first_account low patterns'
      end
  end.

Definition extract_institution_and_account (text : str)
    : option str * option str :=
  let low := lower text in
  let inst := first_institution low institutions in
  let last4 := first_account low account_patterns in
  let masked :=
    match last4 with
    | Some (c :: w) => Some (lit "****" ++ c :: w)
    | _ => None
    end in
  (inst, masked).

(** [for m in _DATE_RE.finditer(text): d = _parse_date(m.group(0)); if d: dates.append(d)] *)
Fixpoint parsed_dates (ms : list match_obj) : list date :=
  match ms with
  | [] => []
  | m :: ms' =>
      match _parse_date (m_text m) with
      | Some d => d :: parsed_dates ms'
      | None => parsed_dates ms'
      end
  end.

(** [today] is what [dt.date.today()] returns. *)
Definition infer_statement_period (today : date) (text : str)
    : result (date * date) :=
  let explicit :=
    match re_search _RANGE_RE text with
    | Some m =>
        match parse_group 1 m, parse_group 2 m with
        | Some d1, Some d2 => if date_leb d1 d2 then Some (d1, d2) else None
        | _, _ => None
        end
    | None => None
    end in
  match explicit with
  | Some period => Ok period
  | None =>
      let dates := parsed_dates (re_finditer _DATE_RE text) in
      ref <- (match dates with
              | [] => Ok today
              | _ => py_max (fun d best => date_ltb best d) dates
              end) ;;
      start <- new_date (year ref) (month ref) 1 ;;
      end_ <- (if (month ref =? 12)%Z
               then new_date (year ref) 12 31
               else
                 first_next <- new_date (year ref) (month ref + 1) 1 ;;
                 sub_one_day first_next) ;;
      Ok (start, end_)
  end.

End Classify.

(** * pf/parsers/generic.py *)

(** A transaction dictionary with the keys ["posted_at"], ["description"]
    and ["amount"]; [None] is a key that is absent or holds [None]. *)
Record txn : Type := {
  posted_at : option date;
  description : option str;
  amount : option Q
}.

(** The dictionary [{"is_income": ..., "is_expense": ...}]. *)
Record flags : Type := { is_income : bool; is_expense : bool }.

(** [a < b] on floats. *)
Definition float_ltb (a b : Q) : bool :=
  (Qnum a * Zpos (Qden b) <? Qnum b * Zpos (Qden a))%Z.

(** The persistence collaborator, as far as the parser and the import loop
    use it: a store of type [S] threaded through the calls.  A method
    returns its value or raises. *)
Record tx_row : Type := {
  r_account_id : Z;
  r_statement_id : Z;
  r_posted_at : date;
  r_description : str;
  r_merchant : option str;
  r_amount : Q;
  r_currency : str;
  r_category_id : option Z;
  r_is_transfer : Z;
  r_is_income : Z;
  r_is_expense : Z;
  r_raw_json : option str
}.

Record Database (S : Type) : Type := {
  get_or_create_category : str -> str -> S -> result Z * S;
  insert_transaction : tx_row -> S -> result Z * S
}.

Section Generic.
Context {U : UnicodeData}.

(** [\d{1,3}(?:,\d{3})*(?:\.\d{2})|\d+\.\d{2}], the body of group [val]. *)
Definition amount_val : regex :=
  Alt (cat [between 1 3 digit;
            star (cat [chr 44%N; times 3 digit]);
            cat [chr 46%N; times 2 digit]])
      (cat [plus digit; chr 46%N; times 2 digit]).

(** [(?P<sign>-)?\$?(?P<val>...)]; group 1 is [sign], group 2 is [val]. *)
Definition _AMOUNT_RE : regex :=
  cat [opt (Grp 1 (chr 45%N)); opt (chr 36%N); Grp 2 amount_val].

(** [^(?P<date>\d{1,2}[\-/]\d{1,2}(?:[\-/]\d{2,4})?)\s+(?P<rest>.+)$];
    group 1 is [date], group 2 is [rest]. *)
Definition _DATE_LINE_RE : regex :=
  cat [Bol;
       Grp 1 (cat [between 1 2 digit; dash_or_slash; between 1 2 digit;
                   opt (cat [dash_or_slash; between 2 4 digit])]);
       plus space; Grp 2 (plus dot); Eol].

(** [\b(20\d{2})\b] *)
Definition year_re : regex :=
  cat [WordB; Grp 1 (cat [text "20"; times 2 digit]); WordB].

(** [\s{2,}] *)
Definition spaces_re : regex := Rep 2 None space.

(** [float(s)] on a decimal numeral [digits.digits] (either run may be
    empty, not both) or [digits]; anything else is a [ValueError] here.
    The value is the exact decimal. *)
Fixpoint split_point (cur : str) (s : str) : str * option str :=
  match s with
  | [] => (rev cur, None)
  | c :: s' => if (c =? 46)%N then (rev cur, Some s') else split_point (c :: cur) s'
  end.

Definition py_float (s : str) : result Q :=
  let '(ip, fp) := split_point [] s in
  let fp := match fp with Some f => f | None => [] end in
  match ip ++ fp with
  | [] => Raise ValueError
  | ds =>
      match digits_value 0 ds with
      | Some n => Ok (Qred (n # Pos.pow 10 (Pos.of_nat (length fp)))%Q)
      | None => Raise ValueError
      end
  end.

Definition _parse_amount (s : str) : result (option Q) :=
  match re_search _AMOUNT_RE s with
  | None => Ok None
  | Some m =>
      match group 2 m with
      | None => Raise TypeError
      | Some v =>
          val <- py_float (remove_char 44%N v) ;;
          let val := match group 1 m with
                     | Some (_ :: _) => Qopp val
                     | _ => val
                     end in
          let val := if endswith (strip s) (lit "-")
                     then Qopp (Qabs val) else val in
          Ok (Some val)
      end
  end.

(** [dateutil.parser.parse(s, default=dt.datetime(y, 1, 1))], an external
    library: the date it returns, or the exception it raises. *)
Variable dateutil_parse : str -> date -> result date.

Definition _parse_date_from_fragment (s : str) (default_year : Z)
    : option date :=
  try_or_None
    (default <- new_date default_year 1 1 ;;
     dtm <- dateutil_parse s default ;;
     new_date (year dtm) (month dtm) (day dtm)).

(** The non-blank lines of all pages, trimmed, in order. *)
Fixpoint page_lines (lns : list str) : list str :=
  match lns with
  | [] => []
  | ln :: lns' =>
      match strip ln with
      | [] => page_lines lns'
      | l => l :: page_lines lns'
      end
  end.

Definition all_lines (pages_text : list str) : list str :=
  flat_map (fun page => page_lines (splitlines page)) pages_text.

(** [today_year] is [dt.date.today().year]. *)
Definition infer_default_year (today_year : Z) (lines : list str) : result Z :=
  match re_search year_re (join [10%N] lines) with
  | Some year_match =>
      match group 1 year_match with
      | Some y => py_int y
      | None => Raise TypeError
      end
  | None => Ok today_year
  end.

(** The text handed to the description: every match of the amount
    pattern cut out of [rest], trimmed, runs of blanks made one space. *)
Definition clean_description (rest : str) : str :=
  let description := strip (re_sub _AMOUNT_RE [] rest) in
  re_sub spaces_re (lit " ") description.

(** One round of the loop over [lines]: [None] is [continue]. *)
Definition extract_line (default_year : Z) (ln : str) : result (option txn) :=
  match re_match _DATE_LINE_RE ln with
  | None => Ok None
  | Some m =>
      match group 1 m, group 2 m with
      | Some date_part, Some rest =>
          amount <- _parse_amount rest ;;
          amount <- (match amount with
                     | None => _parse_amount ln
                     | Some _ => Ok amount
                     end) ;;
          match amount with
          | None => Ok None
          | Some amount =>
              match _parse_date_from_fragment date_part default_year with
              | None => Ok None
              | Some posted_at =>
                  let description := clean_description rest in
                  Ok (Some
                        {| posted_at := Some posted_at;
                           description :=
                             Some (match description with
                                   | [] => lit "Transaction"
                                   | _ => description
                                   end);
                           amount := Some amount |})
              end
          end
      | _, _ => Raise TypeError
      end
  end.

Fixpoint extract_lines (default_year : Z) (lines : list str)
    : result (list txn) :=
  match lines with
  | [] => Ok []
  | ln :: lines' =>
      t <- extract_line default_year ln ;;
      ts <- extract_lines default_year lines' ;;
      Ok (match t with Some t => t :: ts | None => ts end)
  end.

Definition extract_transactions_from_text (today_year : Z)
    (pages_text : list str) : result (list txn) :=
  let lines := all_lines pages_text in
  default_year <- infer_default_year today_year lines ;;
  extract_lines default_year lines.

Definition mapping : list (str * (str * str)) :=
  [ (lit "amazon", (lit "Shopping", lit "expense"));
    (lit "target", (lit "Shopping", lit "expense"));
    (lit "walmart", (lit "Shopping", lit "expense"));
    (lit "whole foods", (lit "Groceries", lit "expense"));
    (lit "trader joe", (lit "Groceries", lit "expense"));
    (lit "costco", (lit "Groceries", lit "expense"));
    (lit "uber", (lit "Transport", lit "expense"));
    (lit "lyft", (lit "Transport", lit "expense"));
    (lit "shell", (lit "Transport", lit "expense"));
    (lit "exxon", (lit "Transport", lit "expense"));
    (lit "starbucks", (lit "Dining", lit "expense"));
    (lit "restaurant", (lit "Dining", lit "expense"));
    (lit "mcdonald", (lit "Dining", lit "expense"));
    (lit "mortgage", (lit "Mortgage", lit "expense"));
    (lit "payroll", (lit "Income:Salary", lit "income"));
    (lit "salary", (lit "Income:Salary", lit "income"));
    (lit "dividend", (lit "Income:Dividend", lit "income"));
    (lit "interest", (lit "Income:Dividend", lit "income")) ].

(** [for key, cat in mapping: if key in desc: chosen = cat; break] *)
Fixpoint first_rule (desc : str) (rules : list (str * (str * str)))
    : option (str * str) :=
  match rules with
  | [] => None
  | (key, cat) :: rules' =>
      if contains desc key then Some cat else first_rule desc rules'
  end.

(** The sign flags: [amount = float(txn.get("amount") or 0)], then the two
    comparisons. *)
Definition txn_amount (t : txn) : Q :=
  match amount t with
  | Some a => if Qeq_bool a 0 then 0%Q else a
  | None => 0%Q
  end.

Definition sign_flags (t : txn) : flags :=
  {| is_income := float_ltb 0 (txn_amount t);
     is_expense := float_ltb (txn_amount t) 0 |}.

(** The category name and kind handed to the collaborator. *)
Definition chosen_category (t : txn) : str * str :=
  let desc := lower (match description t with Some d => d | None => [] end) in
  match first_rule desc mapping with
  | None =>
      (lit "Uncategorized",
       if is_expense (sign_flags t) then lit "expense" else lit "income")
  | Some chosen => chosen
  end.

Definition categorize_transaction {S : Type} (db : Database S) (t : txn)
    (s : S) : (option Z * flags) * S :=
  let '(chosen_name, chosen_type) := chosen_category t in
  let '(r, s') := get_or_create_category db chosen_name chosen_type s in
  ((try_or_None r, sign_flags t), s').

End Generic.

(** * pf/db.py and the import loop of pf/cli.py *)

(** The [categories] and [transactions] tables. *)
Record category_row : Type := { cat_id : Z; cat_name : str; cat_type : str }.

Record store : Type := {
  categories : list category_row;
  transactions : list (Z * tx_row)
}.

(** The row identifier SQLite gives to an insertion: one more than the
    greatest in use. *)
Definition next_rowid (ids : list Z) : Z := (fold_left Z.max ids 0 + 1)%Z.

(** [Database.get_or_create_category]: the name is the key; the kind of an
    existing row is not looked at. *)
Definition db_get_or_create_category (name type_ : str) (s : store)
    : result Z * store :=
  match find (fun row => str_eqb (cat_name row) name) (categories s) with
  | Some row => (Ok (cat_id row), s)
  | None =>
      let id := next_rowid (map cat_id (categories s)) in
      (Ok id,
       {| categories :=
            categories s ++ [{| cat_id := id; cat_name := name; cat_type := type_ |}];
          transactions := transactions s |})
  end.

(** [Database.insert_transaction] *)
Definition db_insert_transaction (row : tx_row) (s : store) : result Z * store :=
  let id := next_rowid (map fst (transactions s)) in
  (Ok id,
   {| categories := categories s;
      transactions := transactions s ++ [(id, row)] |}).

Definition sqlite_db : Database store :=
  {| get_or_create_category := db_get_or_create_category;
     insert_transaction := db_insert_transaction |}.

(** The categories [init_if_needed] seeds an empty table with. *)
Definition seeded : store :=
  {| categories :=
       [ {| cat_id := 1; cat_name := lit "Uncategorized"; cat_type := lit "expense" |};
         {| cat_id := 2; cat_name := lit "Groceries"; cat_type := lit "expense" |};
         {| cat_id := 3; cat_name := lit "Dining"; cat_type := lit "expense" |};
         {| cat_id := 4; cat_name := lit "Transport"; cat_type := lit "expense" |};
         {| cat_id := 5; cat_name := lit "Shopping"; cat_type := lit "expense" |};
         {| cat_id := 6; cat_name := lit "Utilities"; cat_type := lit "expense" |};
         {| cat_id := 7; cat_name := lit "Mortgage"; cat_type := lit "expense" |};
         {| cat_id := 8; cat_name := lit "Income:Salary"; cat_type := lit "income" |};
         {| cat_id := 9; cat_name := lit "Income:Dividend"; cat_type := lit "income" |} ];
     transactions := [] |}.

(** A store whose category lookup raises (a locked or unreachable
    database file). *)
Definition locked_db : Database store :=
  {| get_or_create_category :=
       fun _ _ s => (Raise (OtherError "sqlite3.OperationalError"), s);
     insert_transaction := db_insert_transaction |}.

Section ImportLoop.
Context {U : UnicodeData}.

(** The row the import loop inserts for a transaction. *)
Definition transaction_row (account_id statement_id : Z)
    (posted : date) (desc : str) (amt : Q)
    (category_id : option Z) (fl : flags) : tx_row :=
  {| r_account_id := account_id;
     r_statement_id := statement_id;
     r_posted_at := posted;
     r_description := desc;
     r_merchant := None;
     r_amount := amt;
     r_currency := lit "USD";
     r_category_id := category_id;
     r_is_transfer := 0;
     r_is_income := if is_income fl then 1%Z else 0%Z;
     r_is_expense := if is_expense fl then 1%Z else 0%Z;
     r_raw_json := None |}.

(** One round of [for txn in transactions:] in [import_cmd]. *)
Definition import_transaction {S : Type} (db : Database S)
    (account_id statement_id : Z) (t : txn) (s : S) : result Z * S :=
  let '((category_id, fl), s1) := categorize_transaction db t s in
  match posted_at t, description t, amount t with
  | Some posted, Some desc, Some amt =>
      insert_transaction db
        (transaction_row account_id statement_id posted desc amt category_id fl) s1
  | _, _, _ => (Raise KeyError, s1)
  end.

End ImportLoop.

(** A stand-in for [dateutil] on tokens of the shape month/day/year, used
    to run the extractor on concrete lines. *)
Definition month_day_year (s : str) (default : date) : result date :=
  match split_from [] s with
  | [m; d; y] =>
      y <- py_int (U := ascii_only) y ;;
      m <- py_int (U := ascii_only) m ;;
      d <- py_int (U := ascii_only) d ;;
      new_date y m d
  | _ => Raise ValueError
  end.

(** * pf/db.py: accounts, statements and the whole database *)

(** The [accounts] and [statements] tables; dates are kept as dates (the
    code stores their ISO text, which determines them). *)
Record account_row : Type := {
  acc_id : Z;
  acc_type : str;
  acc_name : str;
  acc_institution : option str;
  acc_currency : str;
  acc_opened_at : option date;
  acc_closed_at : option date
}.

Record statement_row : Type := {
  stmt_id : Z;
  stmt_account_id : Z;
  stmt_period_start : date;
  stmt_period_end : date;
  stmt_source_file_path : str;
  stmt_source_file_hash : str;
  stmt_imported_at : str;
  stmt_status : str
}.

(** The database file: the four tables. *)
Record ledger : Type := {
  accounts : list account_row;
  statements : list statement_row;
  tables : store
}.

Definition date_eqb (a b : date) : bool :=
  (year a =? year b)%Z && (month a =? month b)%Z && (day a =? day b)%Z.

(** [IFNULL(x, '')] *)
Definition ifnull (x : option str) : str :=
  match x with Some s => s | None => [] end.

(** A constraint of the schema is violated. *)
Definition IntegrityError : exn := OtherError "sqlite3.IntegrityError".

(** [Database.init_if_needed]: the tables exist from then on, and an empty
    [categories] table receives the seed rows. *)
Definition init_if_needed (s : ledger) : ledger :=
  match categories (tables s) with
  | [] =>
      {| accounts := accounts s;
         statements := statements s;
         tables := {| categories := categories seeded;
                      transactions := transactions (tables s) |} |}
  | _ :: _ => s
  end.

(** The database right after its file is created. *)
Definition empty_ledger : ledger :=
  {| accounts := []; statements := [];
     tables := {| categories := []; transactions := [] |} |}.

(** [Database.statement_exists_by_hash] *)
Definition statement_exists_by_hash (file_hash : str) (s : ledger) : bool :=
  existsb (fun row => str_eqb (stmt_source_file_hash row) file_hash) (statements s).

(** The row that the [SELECT] of [ensure_account] is about. *)
Definition same_account (name : str) (institution : option str)
    (row : account_row) : bool :=
  str_eqb (acc_name row) name &&
  str_eqb (ifnull (acc_institution row)) (ifnull institution).

(** [Database.ensure_account]; [today] is [dt.date.today()]. *)
Definition ensure_account (today : date) (account_type name : str)
    (institution : option str) (s : ledger) : result Z * ledger :=
  match find (same_account name institution) (accounts s) with
  | Some row => (Ok (acc_id row), s)
  | None =>
      let id := next_rowid (map acc_id (accounts s)) in
      (Ok id,
       {| accounts :=
            accounts s ++
            [{| acc_id := id; acc_type := account_type; acc_name := name;
                acc_institution := institution; acc_currency := lit "USD";
                acc_opened_at := Some today; acc_closed_at := None |}];
          statements := statements s;
          tables := tables s |})
  end.

Definition has_account (account_id : Z) (s : ledger) : bool :=
  existsb (fun row => (acc_id row =? account_id)%Z) (accounts s).

Definition has_statement (statement_id : Z) (s : ledger) : bool :=
  existsb (fun row => (stmt_id row =? statement_id)%Z) (statements s).

(** The rows that [UNIQUE (account_id, period_start, period_end)] forbids
    to repeat. *)
Definition same_period (account_id : Z) (period_start period_end : date)
    (row : statement_row) : bool :=
  (stmt_account_id row =? account_id)%Z &&
  date_eqb (stmt_period_start row) period_start &&
  date_eqb (stmt_period_end row) period_end.

(** [Database.insert_statement]; [now] is the text of
    [dt.datetime.now().isoformat(timespec="seconds")].  The account must
    exist (foreign keys are on) and the period must be new for it. *)
Definition insert_statement (now : str) (account_id : Z)
    (period_start period_end : date) (source_file_path source_file_hash : str)
    (status : str) (s : ledger) : result Z * ledger :=
  if negb (has_account account_id s) then (Raise IntegrityError, s)
  else if existsb (same_period account_id period_start period_end) (statements s)
  then (Raise IntegrityError, s)
  else
    let id := next_rowid (map stmt_id (statements s)) in
    (Ok id,
     {| accounts := accounts s;
        statements :=
          statements s ++
          [{| stmt_id := id; stmt_account_id := account_id;
              stmt_period_start := period_start; stmt_period_end := period_end;
              stmt_source_file_path := source_file_path;
              stmt_source_file_hash := source_file_hash;
              stmt_imported_at := now; stmt_status := status |}];
        tables := tables s |}).

(** [Database.insert_transaction] on the whole database: the account and
    the statement of the row must exist. *)
Definition ledger_insert_transaction (row : tx_row) (s : ledger)
    : result Z * ledger :=
  if has_account (r_account_id row) s && has_statement (r_statement_id row) s
  then
    let '(r, t) := db_insert_transaction row (tables s) in
    (r, {| accounts := accounts s; statements := statements s; tables := t |})
  else (Raise IntegrityError, s).

(** [Database.get_or_create_category] on the whole database. *)
Definition ledger_get_or_create_category (name type_ : str) (s : ledger)
    : result Z * ledger :=
  let '(r, t) := db_get_or_create_category name type_ (tables s) in
  (r, {| accounts := accounts s; statements := statements s; tables := t |}).

Definition ledger_db : Database ledger :=
  {| get_or_create_category := ledger_get_or_create_category;
     insert_transaction := ledger_insert_transaction |}.

(** [Database.read_pdf_text].  [reader] is what [PdfReader(pdf_path)] and
    its [pages] give: an exception, or the pages, each with what its
    [extract_text()] returns or raises. *)
Fixpoint extract_pages (pages : list (result (option str)))
    : result (list str) :=
  match pages with
  | [] => Ok []
  | page :: rest =>
      t <- page ;;
      ts <- extract_pages rest ;;
      Ok (ifnull t :: ts)
  end.

Definition read_pdf_text (reader : result (list (result (option str))))
    : result (str * list str) :=
  pages <- reader ;;
  pages_text <- extract_pages (firstn 3 pages) ;;
  Ok (join [10%N] pages_text, pages_text).

(** * pf/cli.py: importing one document, and a batch *)

(** A computation on the database that returns or raises. *)
Definition io (A : Type) : Type := ledger -> result A * ledger.

Definition ret {A : Type} (a : A) : io A := fun s => (Ok a, s).

Definition lift {A : Type} (r : result A) : io A := fun s => (r, s).

Definition bind_io {A B : Type} (m : io A) (k : A -> io B) : io B :=
  fun s =>
    match m s with
    | (Ok a, s') => k a s'
    | (Raise e, s') => (Raise e, s')
    end.

Notation "x <~ m ;; k" := (bind_io m (fun x => k))
  (at level 61, m at next level, right associativity).

(** What one round of the loop observes of the world: the digest of the
    file's bytes (or the exception of [open]/[read]); what
    [db.read_pdf_text] returns for it (the whole text and the text of each
    page); its absolute path; whether preparing its move raises, to the
    holding area or to the archive folder of a period end ([ensure_dirs] and
    the path functions; an [OSError] of the move itself is swallowed); and
    the clock, at each place where the round reads it. *)
Record document : Type := {
  doc_hash : result str;
  doc_text : result (str * list str);
  doc_abspath : result str;
  doc_hold : result unit;
  doc_archive : date -> result unit;
  doc_opened_on : date;       (* [dt.date.today()] in [ensure_account] *)
  doc_period_today : date;    (* [dt.date.today()] in [infer_statement_period] *)
  doc_year_today : Z;         (* [dt.date.today().year] in the extractor *)
  doc_now : str               (* [dt.datetime.now().isoformat(...)] *)
}.

(** How one round of the loop ends. *)
Inductive outcome : Type :=
| Imported (period_end : date)   (* imported += 1; archived under the period end *)
| ImportedUnfiled (period_end : date) (e : exn)
                                 (* imported += 1, then the archiving raised:
                                    skipped += 1 as well *)
| SkippedDuplicate               (* the digest is already known *)
| SkippedUnclassified            (* confidence < 0.5; moved to the holding area *)
| SkippedError (e : exn).        (* an exception, reported and counted *)

(** [x or default] on an optional text. *)
Definition or_text (x : option str) (default : str) : str :=
  match x with
  | Some (c :: s) => c :: s
  | _ => default
  end.

Section ImportDocument.
Context {U : UnicodeData}.
Variable dateutil_parse : str -> date -> result date.

(** The name and the institution under which the loop files the account of
    a text. *)
Definition account_name (text : str) : str :=
  let '(institution, masked_account) := extract_institution_and_account text in
  strip (or_text institution (lit "Unknown") ++ lit " " ++
         or_text masked_account []).

Definition account_institution (text : str) : str :=
  or_text (fst (extract_institution_and_account text)) (lit "Unknown").

(** [for txn in transactions: ...] *)
Fixpoint import_transactions (account_id statement_id : Z) (txns : list txn)
    : io unit :=
  match txns with
  | [] => ret tt
  | t :: txns' =>
      _ <~ import_transaction ledger_db account_id statement_id t ;;
      import_transactions account_id statement_id txns'
  end.

(** The import proper, once the statement type is accepted: from
    [db.ensure_account] to the archiving. *)
Definition import_classified (doc : document) (file_hash text : str)
    (text_pages : list str) (statement_type : str) : io outcome :=
  account_id <~ ensure_account (doc_opened_on doc) statement_type
                  (account_name text) (Some (account_institution text)) ;;
  period <~ lift (infer_statement_period (doc_period_today doc) text) ;;
  let '(period_start, period_end) := period in
  path <~ lift (doc_abspath doc) ;;
  statement_id <~ insert_statement (doc_now doc) account_id
                    period_start period_end path file_hash (lit "parsed") ;;
  txns <~ lift (extract_transactions_from_text dateutil_parse
                  (doc_year_today doc) text_pages) ;;
  _ <~ import_transactions account_id statement_id txns ;;
  match doc_archive doc period_end with
  | Ok _ => ret (Imported period_end)
  | Raise e => ret (ImportedUnfiled period_end e)
  end.

(** The body of the [try] in [import_cmd]. *)
Definition import_body (doc : document) : io outcome :=
  file_hash <~ lift (doc_hash doc) ;;
  known <~ (fun s => (Ok (statement_exists_by_hash file_hash s), s)) ;;
  if known : bool then ret SkippedDuplicate
  else
    pdf <~ lift (doc_text doc) ;;
    let '(text, text_pages) := pdf in
    classified <~ lift (classify_statement text) ;;
    let '(statement_type, confidence) := classified in
    if float_ltb confidence (1 # 2) then
      _ <~ lift (doc_hold doc) ;;
      ret SkippedUnclassified
    else import_classified doc file_hash text text_pages statement_type.

(** One round of [for pdf_path in pdf_paths:], with its [except]. *)
Definition import_document (doc : document) (s : ledger) : outcome * ledger :=
  match import_body doc s with
  | (Ok o, s') => (o, s')
  | (Raise e, s') => (SkippedError e, s')
  end.

(** The loop, with its two counters. *)
Fixpoint import_all (docs : list document) (imported skipped : Z)
    (s : ledger) : Z * Z * ledger :=
  match docs with
  | [] => (imported, skipped, s)
  | doc :: docs' =>
      match import_document doc s with
      | (Imported _, s') => import_all docs' (imported + 1)%Z skipped s'
      | (ImportedUnfiled _ _, s') =>
          import_all docs' (imported + 1)%Z (skipped + 1)%Z s'
      | (_, s') => import_all docs' imported (skipped + 1)%Z s'
      end
  end.

End ImportDocument.

(** * The declarative reading of a pattern *)

Section Semantics.
Context {U : UnicodeData}.

(** [Matches r st st']: some way of matching [r] takes the cursor from
    [st] to [st']. *)
Inductive Matches : regex -> mstate -> mstate -> Prop :=
| M_Eps st : Matches Eps st st
| M_Chr p c s' st :
    ms_rest st = c :: s' -> p c = true ->
    Matches (Chr p) st
      {| ms_prev := Some c; ms_rest := s'; ms_groups := ms_groups st |}
| M_Seq a b st st1 st2 :
    Matches a st st1 -> Matches b st1 st2 -> Matches (Seq a b) st st2
| M_AltL a b st st' : Matches a st st' -> Matches (Alt a b) st st'
| M_AltR a b st st' : Matches b st st' -> Matches (Alt a b) st st'
| M_RepStop hi a st : Matches (Rep 0 hi a) st st
| M_RepStep lo hi a st st1 st2 :
    hi <> Some 0%nat ->
    Matches a st st1 ->
    Matches (Rep (pred lo) (option_map pred hi) a) st1 st2 ->
    Matches (Rep lo hi a) st st2
| M_Grp n a st st1 : Matches a st st1 -> Matches (Grp n a) st (set_group n st st1)
| M_Bol st : ms_prev st = None -> Matches Bol st st
| M_EolEnd st : ms_rest st = [] -> Matches Eol st st
| M_EolNewline st : ms_rest st = [10%N] -> Matches Eol st st
| M_WordB st :
    xorb (opt_isword (ms_prev st)) (opt_isword (hd_error (ms_rest st))) = true ->
    Matches WordB st st.

(** [Lang r w]: the text [w] is one that [r] can consume (assertions
    consume nothing and are not checked here). *)
Inductive Lang : regex -> str -> Prop :=
| L_Eps : Lang Eps []
| L_Chr p c : p c = true -> Lang (Chr p) [c]
| L_Seq a b w1 w2 : Lang a w1 -> Lang b w2 -> Lang (Seq a b) (w1 ++ w2)
| L_AltL a b w : Lang a w -> Lang (Alt a b) w
| L_AltR a b w : Lang b w -> Lang (Alt a b) w
| L_RepStop hi a : Lang (Rep 0 hi a) []
| L_RepStep lo hi a w1 w2 :
    hi <> Some 0%nat ->
    Lang a w1 ->
    Lang (Rep (pred lo) (option_map pred hi) a) w2 ->
    Lang (Rep lo hi a) (w1 ++ w2)
| L_Grp n a w : Lang a w -> Lang (Grp n a) w
| L_Bol : Lang Bol []
| L_Eol : Lang Eol []
| L_WordB : Lang WordB [].

(** A matcher is sound for a pattern when every answer it gives goes
    through a state that the pattern reaches. *)
Definition sound (a : regex) (m : matcher) : Prop :=
  forall st k res,
    m st k = Some res -> exists st', Matches a st st' /\ k st' = Some res.

End Semantics.

(** * Specification-side notions *)

(** How many of the cue phrases occur in the text; a phrase counts once. *)
Fixpoint hits (cues : list str) (t : str) : Z :=
  match cues with
  | [] => 0%Z
  | cue :: cues' => ((if contains t cue then 1 else 0) + hits cues' t)%Z
  end.

(** The cue phrases of each statement type, in enumeration order. *)
Definition cue_table : list (str * list str) :=
  [ (lit "mortgage", mortgage_cues); (lit "credit_card", cc_cues);
    (lit "brokerage", brkg_cues); (lit "bank", bank_cues) ].

Fixpoint cues_of (ty : str) (table : list (str * list str)) : list str :=
  match table with
  | [] => []
  | (ty', cues) :: table' => if str_eqb ty' ty then cues else cues_of ty table'
  end.

(** The cue-hit count of a statement type on a (lowercased) text. *)
Definition cue_hits (ty : str) (t : str) : Z := hits (cues_of ty cue_table) t.

Definition all_cues : list str := flat_map snd cue_table.

(** No cue phrase of any type occurs in the text. *)
Definition no_cue (t : str) : Prop :=
  forall cue, In cue all_cues -> contains t cue = false.

(** The description as the specification words it: the one matched amount
    cut out of the remainder, repeated blanks collapsed, the result
    trimmed, and ["Transaction"] when nothing is left. *)
Definition remove_first_match {U : UnicodeData} (r : regex) (s : str) : str :=
  match re_search r s with
  | Some m => firstn (m_start m) s ++ m_rest m
  | None => s
  end.

Definition spec_description {U : UnicodeData} (rest : str) : str :=
  match strip (re_sub spaces_re (lit " ") (remove_first_match _AMOUNT_RE rest)) with
  | [] => lit "Transaction"
  | d => d
  end.

(** Repeated blanks collapsed, read directly: every maximal run of two or
    more blanks becomes one space, a single blank stays. *)
Fixpoint blanks (s : str) : str :=
  match s with
  | c :: s' => if isspace c then c :: blanks s' else []
  | [] => []
  end.

Definition flush (run : str) : str :=
  match run with
  | [] => []
  | [c] => [c]
  | _ :: _ :: _ => [32%N]
  end.

(** [run] holds the pending blanks, latest first. *)
Fixpoint collapse_from (run : str) (s : str) : str :=
  match s with
  | [] => flush run
  | c :: s' =>
      if isspace c then collapse_from (c :: run) s'
      else flush run ++ c :: collapse_from [] s'
  end.

Definition collapse (s : str) : str := collapse_from [] s.

(** First and last day of the calendar month of a date. *)
Definition month_first (d : date) : date :=
  {| year := year d; month := month d; day := 1 |}.

Definition month_last (d : date) : date :=
  {| year := year d; month := month d; day := days_in_month (year d) (month d) |}.

(** A date of the calendar. *)
Definition valid_date (d : date) : Prop :=
  valid_ymd (year d) (month d) (day d) = true.

(** The strict order of the calendar. *)
Definition date_lt (a b : date) : Prop :=
  (year a < year b \/
   (year a = year b /\
    (month a < month b \/ (month a = month b /\ day a < day b))))%Z.

(** A matcher is local when its answer depends on the continuation only at
    cursors that are not before its own. *)
Definition local (m : matcher) : Prop :=
  forall st k1 k2,
    (forall st1, (length (ms_rest st1) <= length (ms_rest st))%nat ->
                 k1 st1 = k2 st1) ->
    m st k1 = m st k2.

(** The fuel that a repetition cannot use up: more rounds than its upper
    bound allows, or than the subject has code points left beyond the
    mandatory rounds. *)
Definition enough (fuel lo : nat) (hi : option nat) (st : mstate) : Prop :=
  match hi with
  | Some h => (h < fuel)%nat
  | None => (length (ms_rest st) + lo < fuel)%nat
  end.

(** A pattern without capturing groups. *)
Fixpoint no_groups (r : regex) : bool :=
  match r with
  | Seq a b | Alt a b => no_groups a && no_groups b
  | Rep _ _ a => no_groups a
  | Grp _ _ => false
  | _ => true
  end.

Section SpecNotions.
Context {U : UnicodeData}.

(** A run of exactly 3 or 4 digits. *)
Definition three_or_four_digits (w : str) : Prop :=
  (length w = 3 \/ length w = 4)%nat /\ forallb isdigit w = true.

(** A pattern that ends with the group of the last digits. *)
Definition ends_with_last_digits (p : regex) : Prop :=
  exists pre, p = cat (pre ++ [last_digits]).

(** The text of group [val], once its commas are removed, is a non-empty
    run of digits, a point, and two digits. *)
Definition decimal_numeral (s : str) : Prop :=
  exists ds fs,
    s = ds ++ 46%N :: fs /\ ds <> [] /\
    forallb isdigit ds = true /\ forallb isdigit fs = true /\ length fs = 2%nat.

(** The reference date of the fallback: the latest of the dates that the
    date tokens of the text parse to, or [today] when none parses. *)
Definition reference_date (today : date) (text : str) (ref : date) : Prop :=
  ((forall m, In m (re_finditer _DATE_RE text) -> _parse_date (m_text m) = None) /\
   ref = today) \/
  ((exists m, In m (re_finditer _DATE_RE text) /\ _parse_date (m_text m) = Some ref) /\
   (forall m d, In m (re_finditer _DATE_RE text) ->
                _parse_date (m_text m) = Some d -> date_leb d ref = true)).

(** The explicit range of the text, when the range pattern is found, both
    dates parse and the first is not after the second. *)
Definition explicit_range (text : str) (d1 d2 : date) : Prop :=
  exists m,
    re_search _RANGE_RE text = Some m /\
    parse_group 1 m = Some d1 /\ parse_group 2 m = Some d2 /\
    date_leb d1 d2 = true.

End SpecNotions.

(** The decimal digits of the Unicode database have the values 0 to 9. *)
Definition decimal_digits_ok (U : UnicodeData) : Prop :=
  forall c d, ud_decimal c = Some d -> (0 <= d <= 9)%Z.

(** The separators of a date token. *)
Definition is_date_sep (c : char) : bool := (c =? 45)%N || (c =? 47)%N.

(** The names of the categories that the keyword rules and their fallback
    can ask for. *)
Definition rule_category_names : list str :=
  [lit "Shopping"; lit "Groceries"; lit "Transport"; lit "Dining";
   lit "Mortgage"; lit "Income:Salary"; lit "Income:Dividend";
   lit "Uncategorized"].

(** Every name of the list has a row in the [categories] table. *)
Definition has_categories (names : list str) (s : store) : Prop :=
  forall name, In name names ->
    exists row, In row (categories s) /\ cat_name row = name.

(** No two rows of the [categories] table share a name or an identifier. *)
Definition categories_unique (s : store) : Prop :=
  NoDup (map cat_name (categories s)) /\ NoDup (map cat_id (categories s)).

(** No two rows of the [accounts] table have the same name and institution
    (a missing institution counting as the empty text) or the same
    identifier. *)
Definition account_key (row : account_row) : str * str :=
  (acc_name row, ifnull (acc_institution row)).

Definition accounts_unique (s : ledger) : Prop :=
  NoDup (map account_key (accounts s)) /\ NoDup (map acc_id (accounts s)).

(** The outcomes that count a document as imported. *)
Definition is_imported (o : outcome) : bool :=
  match o with
  | Imported _ | ImportedUnfiled _ _ => true
  | _ => false
  end.

(** The three keys of an extracted transaction, and the columns of a row
    that hold them. *)
Definition txn_keys (t : txn) : option date * option str * option Q :=
  (posted_at t, description t, amount t).

Definition row_keys (row : Z * tx_row) : option date * option str * option Q :=
  (Some (r_posted_at (snd row)), Some (r_description (snd row)),
   Some (r_amount (snd row))).

(** The rows belong to the account and to the statement. *)
Definition rows_of (account_id statement_id : Z) (rows : list (Z * tx_row))
    : Prop :=
  forall row, In row rows ->
    r_account_id (snd row) = account_id /\
    r_statement_id (snd row) = statement_id.

(** Documents to run the loop on: a bank statement, a second copy of it
    saved anew (other bytes, the same text), and a letter without any cue
    phrase. *)
Definition sample_text : str :=
  lit "Chase checking account summary
Account ending in 1234
Statement period 03/01/2024 - 03/31/2024
03/14/2024   UBER TRIP 123   18.40
03/15/2024   Payroll deposit   2,500.00".

Definition sample_document : document :=
  {| doc_hash := Ok (lit "9f2c");
     doc_text := Ok (sample_text, [sample_text]);
     doc_abspath := Ok (lit "/in/march.pdf");
     doc_hold := Ok tt;
     doc_archive := fun _ => Ok tt;
     doc_opened_on := {| year := 2024; month := 4; day := 2 |};
     doc_period_today := {| year := 2024; month := 4; day := 2 |};
     doc_year_today := 2024;
     doc_now := lit "2024-04-02T09:30:00" |}.

Definition sample_copy : document :=
  {| doc_hash := Ok (lit "77aa");
     doc_text := Ok (sample_text, [sample_text]);
     doc_abspath := Ok (lit "/in/march-copy.pdf");
     doc_hold := Ok tt;
     doc_archive := fun _ => Ok tt;
     doc_opened_on := {| year := 2024; month := 4; day := 2 |};
     doc_period_today := {| year := 2024; month := 4; day := 2 |};
     doc_year_today := 2024;
     doc_now := lit "2024-04-02T09:31:00" |}.

Definition sample_letter : document :=
  {| doc_hash := Ok (lit "0b1d");
     doc_text := Ok (lit "Dear customer, our branch has moved.",
                     [lit "Dear customer, our branch has moved."]);
     doc_abspath := Ok (lit "/in/letter.pdf");
     doc_hold := Ok tt;
     doc_archive := fun _ => Ok tt;
     doc_opened_on := {| year := 2024; month := 4; day := 2 |};
     doc_period_today := {| year := 2024; month := 4; day := 2 |};
     doc_year_today := 2024;
     doc_now := lit "2024-04-02T09:32:00" |}.


(** * Properties of the runtime model *)

Unset Implicit Arguments.

Section MaxLoop.
Variable A : Type.
Variable gt : A -> A -> bool.
Hypothesis gt_trans :
  forall a b c, gt b a = true -> gt c b = true -> gt c a = true.
Hypothesis le_gt_trans :
  forall a b c, gt a b = false -> gt c b = true -> gt c a = true.

(** The loop of [max] returns the first of the greatest items: everything
    before it is strictly smaller, nothing after it is greater. *)
Lemma max_loop_split (l : list A) :
  forall (best : A) (pre mid : list A),
    (forall a, In a pre -> gt best a = true) ->
    (forall a, In a mid -> gt a best = false) ->
    exists pre' post',
      pre ++ best :: mid ++ l = pre' ++ max_loop gt best l :: post' /\
      (forall a, In a pre' -> gt (max_loop gt best l) a = true) /\
      (forall a, In a post' -> gt a (max_loop gt best l) = false).
Proof.
  induction l as [|x l IH]; intros best pre mid Hpre Hmid; simpl.
  - exists pre, mid. rewrite app_nil_r. auto.
  - destruct (gt x best) eqn:Hx.
    + destruct (IH x (pre ++ best :: mid) []) as (pre' & post' & E & P1 & P2).
      * intros a Ha. apply in_app_or in Ha. destruct Ha as [Ha | [<- | Ha]].
        -- eapply gt_trans; eauto.
        -- exact Hx.
        -- eapply le_gt_trans; eauto.
      * intros a [].
      * exists pre', post'. split; [|auto].
        rewrite <- app_assoc in E. exact E.
    + destruct (IH best pre (mid ++ [x])) as (pre' & post' & E & P1 & P2).
      * exact Hpre.
      * intros a Ha. apply in_app_or in Ha. destruct Ha as [Ha | [<- | []]]; auto.
      * exists pre', post'. split; [|auto].
        rewrite <- app_assoc in E. exact E.
Qed.

Lemma py_max_split (x : A) (l : list A) :
  exists r pre post,
    py_max gt (x :: l) = Ok r /\
    x :: l = pre ++ r :: post /\
    (forall a, In a pre -> gt r a = true) /\
    (forall a, In a post -> gt a r = false).
Proof.
  destruct (max_loop_split l x [] []) as (pre & post & E & P1 & P2);
    try (intros a []).
  exists (max_loop gt x l), pre, post. simpl in E. auto.
Qed.
End MaxLoop.

Lemma py_max_key_split (A : Type) (key : A -> Z) (x : A) (l : list A) :
  exists r pre post,
    py_max_key key (x :: l) = Ok r /\
    x :: l = pre ++ r :: post /\
    (forall a, In a pre -> (key a < key r)%Z) /\
    (forall a, In a post -> (key a <= key r)%Z).
Proof.
  set (gt := fun a best : A => (key best <? key a)%Z).
  assert (T1 : forall a b c, gt b a = true -> gt c b = true -> gt c a = true).
  { unfold gt. intros a b c H1 H2. apply Z.ltb_lt in H1, H2. apply Z.ltb_lt. lia. }
  assert (T2 : forall a b c, gt a b = false -> gt c b = true -> gt c a = true).
  { unfold gt. intros a b c H1 H2. apply Z.ltb_ge in H1. apply Z.ltb_lt in H2.
    apply Z.ltb_lt. lia. }
  destruct (py_max_split A gt T1 T2 x l) as (r & pre & post & E & S & P1 & P2).
  exists r, pre, post. repeat split; auto.
  - intros a Ha. apply Z.ltb_lt. apply (P1 a Ha).
  - intros a Ha. apply Z.ltb_ge. apply (P2 a Ha).
Qed.

Lemma str_eqb_refl (a : str) : str_eqb a a = true.
Proof.
  induction a as [|x a IH]; simpl; [reflexivity|].
  rewrite N.eqb_refl. exact IH.
Qed.

Lemma str_eqb_eq (a b : str) : str_eqb a b = true -> a = b.
Proof.
  revert b. induction a as [|x a IH]; intros [|y b] H; simpl in H;
    try discriminate; [reflexivity|].
  apply andb_prop in H. destruct H as [H1 H2].
  apply N.eqb_eq in H1. apply IH in H2. congruence.
Qed.

Lemma dict_set_same (d : dict) (k : str) (v : Z) :
  dict_get d k = Some v -> dict_set d k v = d.
Proof.
  induction d as [|[k' v'] d IH]; simpl; [discriminate|].
  destruct (str_eqb k' k); intro H.
  - congruence.
  - rewrite (IH H). reflexivity.
Qed.

Lemma dict_get_set (d : dict) (k : str) (x : Z) :
  dict_get (dict_set d k x) k = Some x.
Proof.
  induction d as [|[k' v'] d IH]; simpl.
  - rewrite str_eqb_refl. reflexivity.
  - destruct (str_eqb k' k) eqn:E; simpl; rewrite E; auto.
Qed.

Lemma dict_set_twice (d : dict) (k : str) (x y : Z) :
  dict_set (dict_set d k x) k y = dict_set d k y.
Proof.
  induction d as [|[k' v'] d IH]; simpl.
  - rewrite str_eqb_refl. reflexivity.
  - destruct (str_eqb k' k) eqn:E; simpl; rewrite E; [reflexivity|].
    rewrite IH. reflexivity.
Qed.

(** A counting loop adds to its own entry the number of cues that occur. *)
Lemma count_cues_spec (key : str) (t : str) (cues : list str) :
  forall (scores : dict) (v : Z),
    dict_get scores key = Some v ->
    count_cues scores key cues t = Ok (dict_set scores key (v + hits cues t)).
Proof.
  induction cues as [|cue cues IH]; intros scores v Hget; simpl.
  - rewrite Z.add_0_r, (dict_set_same _ _ _ Hget). reflexivity.
  - unfold dict_iadd, dict_item. rewrite Hget. simpl.
    rewrite (IH _ _ (dict_get_set scores key _)).
    rewrite dict_set_twice, Z.add_assoc. reflexivity.
Qed.

Lemma cue_scores_eq (t : str) :
  cue_scores t =
  Ok [ (lit "mortgage", hits mortgage_cues t);
       (lit "credit_card", hits cc_cues t);
       (lit "brokerage", hits brkg_cues t);
       (lit "bank", hits bank_cues t) ].
Proof.
  unfold cue_scores.
  erewrite count_cues_spec by reflexivity. cbn [bind].
  erewrite count_cues_spec by reflexivity. cbn [bind].
  erewrite count_cues_spec by reflexivity. cbn [bind].
  erewrite count_cues_spec by reflexivity.
  generalize (hits mortgage_cues t) (hits cc_cues t) (hits brkg_cues t)
             (hits bank_cues t).
  intros a b c d. reflexivity.
Qed.

Lemma hits_nonneg (cues : list str) (t : str) : (0 <= hits cues t)%Z.
Proof.
  induction cues as [|cue cues IH]; simpl; [lia|].
  destruct (contains t cue); lia.
Qed.

Lemma hits_zero (cues : list str) (t : str) :
  hits cues t = 0%Z <-> (forall cue, In cue cues -> contains t cue = false).
Proof.
  induction cues as [|cue cues IH]; simpl.
  - split; [intros _ c []|reflexivity].
  - pose proof (hits_nonneg cues t) as Hn.
    destruct (contains t cue) eqn:E; split.
    + lia.
    + intro H. specialize (H cue (or_introl eq_refl)). congruence.
    + intros H c [<-|Hc]; [exact E|]. apply IH; [lia|exact Hc].
    + intro H. apply IH. intros c Hc. apply H. right. exact Hc.
Qed.

Lemma no_cue_hits (t : str) :
  no_cue t <->
  (hits mortgage_cues t + hits cc_cues t + hits brkg_cues t + hits bank_cues t = 0)%Z.
Proof.
  pose proof (hits_nonneg mortgage_cues t). pose proof (hits_nonneg cc_cues t).
  pose proof (hits_nonneg brkg_cues t). pose proof (hits_nonneg bank_cues t).
  unfold no_cue, all_cues, cue_table. cbn [flat_map snd]. split.
  - intro Hn.
    assert (hits mortgage_cues t = 0%Z) by (apply hits_zero; intros c Hc; apply Hn; apply in_or_app; auto).
    assert (hits cc_cues t = 0%Z)
      by (apply hits_zero; intros c Hc; apply Hn; apply in_or_app; right;
          apply in_or_app; auto).
    assert (hits brkg_cues t = 0%Z)
      by (apply hits_zero; intros c Hc; apply Hn; apply in_or_app; right;
          apply in_or_app; right; apply in_or_app; auto).
    assert (hits bank_cues t = 0%Z)
      by (apply hits_zero; intros c Hc; apply Hn; apply in_or_app; right;
          apply in_or_app; right; apply in_or_app; right; apply in_or_app; auto).
    lia.
  - intros Hsum cue Hc.
    assert (E1 : hits mortgage_cues t = 0%Z) by lia.
    assert (E2 : hits cc_cues t = 0%Z) by lia.
    assert (E3 : hits brkg_cues t = 0%Z) by lia.
    assert (E4 : hits bank_cues t = 0%Z) by lia.
    rewrite hits_zero in E1, E2, E3, E4.
    repeat (apply in_app_or in Hc; destruct Hc as [Hc|Hc]); auto.
    destruct Hc.
Qed.

Lemma py_max_default_greatest (x : Z) (l : list Z) (d : Z) :
  In (py_max_default (x :: l) d) (x :: l) /\
  (forall v, In v (x :: l) -> (v <= py_max_default (x :: l) d)%Z).
Proof.
  destruct (py_max_key_split Z (fun v => v) x l) as (r & pre & post & E & S & P1 & P2).
  assert (Er : py_max_default (x :: l) d = r).
  { unfold py_max_key, py_max in E. simpl. congruence. }
  rewrite Er, S. split.
  - apply in_or_app. right. left. reflexivity.
  - intros v Hv. apply in_app_or in Hv. destruct Hv as [Hv|[<-|Hv]].
    + apply P1 in Hv. lia.
    + lia.
    + apply P2 in Hv. lia.
Qed.

Lemma Qred_div_self (x : Z) : x <> 0%Z -> Qred (inject_Z x / inject_Z x) = 1%Q.
Proof.
  intro Hx. change 1%Q with (Qred 1). apply Qred_complete.
  apply Qmult_inv_r. unfold Qeq, inject_Z. simpl. lia.
Qed.

Section ClassifierProps.
Context {U : UnicodeData}.

Lemma scores_get_hits (t ty : str) :
  In ty statement_types ->
  scores_get [ (lit "mortgage", hits mortgage_cues t);
               (lit "credit_card", hits cc_cues t);
               (lit "brokerage", hits brkg_cues t);
               (lit "bank", hits bank_cues t) ] ty = cue_hits ty t.
Proof.
  intros [<-|[<-|[<-|[<-|[]]]]]; reflexivity.
Qed.

(** What [classify_statement] computes, in terms of the cue-hit counts:
    the selected type is the first of the types with the greatest count,
    and the confidence is 0 when nothing was hit and 1 otherwise. *)
Lemma classify_core (text : str) :
  exists best confidence pre post,
    classify_statement text = Ok (best, confidence) /\
    statement_types = pre ++ best :: post /\
    (forall ty, In ty pre ->
       (cue_hits ty (lower text) < cue_hits best (lower text))%Z) /\
    (forall ty, In ty post ->
       (cue_hits ty (lower text) <= cue_hits best (lower text))%Z) /\
    (no_cue (lower text) -> confidence = 0%Q) /\
    (~ no_cue (lower text) -> confidence = 1%Q).
Proof.
  unfold classify_statement. set (t := lower text).
  rewrite cue_scores_eq. cbn [bind].
  set (scores := [ (lit "mortgage", hits mortgage_cues t);
                   (lit "credit_card", hits cc_cues t);
                   (lit "brokerage", hits brkg_cues t);
                   (lit "bank", hits bank_cues t) ]).
  change (dict_keys scores) with statement_types.
  destruct (py_max_key_split str (scores_get scores) (lit "mortgage")
              [lit "credit_card"; lit "brokerage"; lit "bank"])
    as (best & pre & post & E & S & P1 & P2).
  change (lit "mortgage" :: [lit "credit_card"; lit "brokerage"; lit "bank"])
    with statement_types in E, S.
  rewrite E. cbn [bind].
  assert (Hin : forall ty, In ty pre \/ ty = best \/ In ty post ->
                           In ty statement_types).
  { intros ty H. rewrite S. apply in_or_app.
    destruct H as [H|[->|H]]; [left|right; left|right; right]; auto. }
  assert (Hbest : In best statement_types) by (apply Hin; auto).
  assert (Q1 : forall ty, In ty pre -> (cue_hits ty t < cue_hits best t)%Z).
  { intros ty Hty. rewrite <- !scores_get_hits by auto. apply P1, Hty. }
  assert (Q2 : forall ty, In ty post -> (cue_hits ty t <= cue_hits best t)%Z).
  { intros ty Hty. rewrite <- !scores_get_hits by auto. apply P2, Hty. }
  assert (Hmax : forall ty, In ty statement_types ->
                            (cue_hits ty t <= cue_hits best t)%Z).
  { intros ty Hty. rewrite S in Hty. apply in_app_or in Hty.
    destruct Hty as [Hty|[<-|Hty]]; [apply Q1 in Hty; lia|lia|apply Q2, Hty]. }
  assert (Hitem : dict_item scores best = Ok (cue_hits best t)).
  { rewrite <- (scores_get_hits t best Hbest). fold scores.
    unfold dict_item, scores_get.
    destruct Hbest as [<-|[<-|[<-|[<-|[]]]]]; reflexivity. }
  assert (Hvals : dict_values scores = map (fun ty => cue_hits ty t) statement_types)
    by reflexivity.
  assert (Hdef : py_max_default (dict_values scores) 1 = cue_hits best t).
  { destruct (py_max_default_greatest (hits mortgage_cues t)
                [hits cc_cues t; hits brkg_cues t; hits bank_cues t] 1%Z)
      as [G1 G2].
    change (hits mortgage_cues t ::
            [hits cc_cues t; hits brkg_cues t; hits bank_cues t])
      with (dict_values scores) in G1, G2.
    rewrite Hvals in G1, G2 |- *.
    apply in_map_iff in G1. destruct G1 as (ty & Ety & Hty).
    apply Hmax in Hty.
    specialize (G2 (cue_hits best t) (in_map _ _ _ Hbest)).
    lia. }
  assert (Hsum : py_sum (dict_values scores) =
                 (hits mortgage_cues t + hits cc_cues t + hits brkg_cues t +
                  hits bank_cues t)%Z) by reflexivity.
  pose proof (no_cue_hits t) as Hno.
  rewrite Hsum, Hdef.
  destruct (Z.eqb_spec (hits mortgage_cues t + hits cc_cues t +
                        hits brkg_cues t + hits bank_cues t) 0) as [Hz|Hnz].
  - cbn [bind]. exists best, 0%Q, pre, post.
    repeat split; auto. intro Hn. exfalso. apply Hn, Hno, Hz.
  - rewrite Hitem. cbn [bind].
    assert (Hpos : (1 <= cue_hits best t)%Z).
    { pose proof (hits_nonneg mortgage_cues t). pose proof (hits_nonneg cc_cues t).
      pose proof (hits_nonneg brkg_cues t). pose proof (hits_nonneg bank_cues t).
      pose proof (Hmax (lit "mortgage") (or_introl eq_refl)) as M1.
      pose proof (Hmax (lit "credit_card") (or_intror (or_introl eq_refl))) as M2.
      pose proof (Hmax (lit "brokerage")
                    (or_intror (or_intror (or_introl eq_refl)))) as M3.
      pose proof (Hmax (lit "bank")
                    (or_intror (or_intror (or_intror (or_introl eq_refl))))) as M4.
      change (cue_hits (lit "mortgage") t) with (hits mortgage_cues t) in M1.
      change (cue_hits (lit "credit_card") t) with (hits cc_cues t) in M2.
      change (cue_hits (lit "brokerage") t) with (hits brkg_cues t) in M3.
      change (cue_hits (lit "bank") t) with (hits bank_cues t) in M4.
      lia. }
    rewrite Z.max_r by lia. unfold py_truediv.
    destruct (Z.eqb_spec (cue_hits best t) 0) as [H0|H0]; [lia|].
    rewrite (Qred_div_self _ H0). cbn [bind].
    exists best, 1%Q, pre, post.
    repeat split; auto. intro Hn. exfalso. apply Hnz, Hno, Hn.
Qed.

End ClassifierProps.

Lemma cue_occurs_dec (t : str) (cues : list str) :
  (forall cue, In cue cues -> contains t cue = false) \/
  (exists cue, In cue cues /\ contains t cue = true).
Proof.
  induction cues as [|c cues [IH|(cue & Hin & Hc)]].
  - left. intros cue [].
  - destruct (contains t c) eqn:E.
    + right. exists c. split; [left; reflexivity|exact E].
    + left. intros cue [<-|Hin]; auto.
  - right. exists cue. split; [right; exact Hin|exact Hc].
Qed.

(** * The matcher is sound for the declarative reading *)

Section MatcherSoundness.
Context {U : UnicodeData}.

Lemma rep_loop_sound (a : regex) (m : matcher) :
  sound a m ->
  forall fuel lo hi, sound (Rep lo hi a) (rep_loop m fuel lo hi).
Proof.
  intros Hm fuel. induction fuel as [|fuel IH]; intros lo hi st k res H; simpl in H.
  - destruct lo; [|discriminate]. exists st. split; [constructor|exact H].
  - assert (Hstep :
      forall st0 k0 r,
        hi <> Some 0%nat ->
        m st0 (fun st1 =>
                 if (lo =? 0)%nat && (length (ms_rest st1) =? length (ms_rest st0))%nat
                 then None
                 else rep_loop m fuel (pred lo) (option_map pred hi) st1 k0) = Some r ->
        exists st', Matches (Rep lo hi a) st0 st' /\ k0 st' = Some r).
    { intros st0 k0 r Hhi Hr. apply Hm in Hr. destruct Hr as (st1 & M1 & Hr).
      destruct ((lo =? 0)%nat && (length (ms_rest st1) =? length (ms_rest st0))%nat);
        [discriminate|].
      apply IH in Hr. destruct Hr as (st2 & M2 & Hk).
      exists st2. split; [|exact Hk]. eapply M_RepStep; eauto. }
    destruct hi as [[|h]|].
    + destruct lo; [|discriminate]. exists st. split; [constructor|exact H].
    + destruct lo as [|lo].
      * match type of H with
        | match ?again with _ => _ end = _ => destruct again as [r|] eqn:E
        end.
        -- inversion H; subst r. apply Hstep; [discriminate|exact E].
        -- exists st. split; [constructor|exact H].
      * apply Hstep; [discriminate|exact H].
    + destruct lo as [|lo].
      * match type of H with
        | match ?again with _ => _ end = _ => destruct again as [r|] eqn:E
        end.
        -- inversion H; subst r. apply Hstep; [discriminate|exact E].
        -- exists st. split; [constructor|exact H].
      * apply Hstep; [discriminate|exact H].
Qed.

Lemma rmatch_sound (r : regex) : sound r (rmatch r).
Proof.
  induction r as [|p|a IHa b IHb|a IHa b IHb|lo hi a IHa|n a IHa| | |];
    intros st k res H; simpl in H.
  - exists st. split; [constructor|exact H].
  - destruct (ms_rest st) as [|c s'] eqn:E; [discriminate|].
    destruct (p c) eqn:Hp; [|discriminate].
    eexists. split; [eapply M_Chr; eauto|exact H].
  - apply IHa in H. destruct H as (st1 & M1 & H).
    apply IHb in H. destruct H as (st2 & M2 & H).
    exists st2. split; [econstructor; eauto|exact H].
  - destruct (rmatch a st k) as [r|] eqn:E.
    + inversion H; subst r. apply IHa in E. destruct E as (st' & M & Hk).
      exists st'. split; [apply M_AltL; exact M|exact Hk].
    + apply IHb in H. destruct H as (st' & M & Hk).
      exists st'. split; [apply M_AltR; exact M|exact Hk].
  - eapply rep_loop_sound; eauto.
  - apply IHa in H. destruct H as (st1 & M1 & H).
    exists (set_group n st st1). split; [constructor; exact M1|exact H].
  - destruct (ms_prev st) eqn:E; [discriminate|].
    exists st. split; [constructor; exact E|exact H].
  - destruct (ms_rest st) as [|c [|c' s']] eqn:E.
    + exists st. split; [apply M_EolEnd; exact E|exact H].
    + destruct (c =? 10)%N eqn:Ec; [|discriminate].
      apply N.eqb_eq in Ec. subst c.
      exists st. split; [apply M_EolNewline; exact E|exact H].
    + discriminate.
  - destruct (xorb (opt_isword (ms_prev st)) (opt_isword (hd_error (ms_rest st))))
      eqn:E; [|discriminate].
    exists st. split; [constructor; exact E|exact H].
Qed.

(** What a pattern reaches, it reaches by consuming a text of its language. *)
Lemma Matches_Lang (r : regex) (st st' : mstate) :
  Matches r st st' -> exists w, ms_rest st = w ++ ms_rest st' /\ Lang r w.
Proof.
  induction 1.
  - exists []. split; [reflexivity|constructor].
  - exists [c]. split; [assumption|constructor; assumption].
  - destruct IHMatches1 as (w1 & E1 & L1). destruct IHMatches2 as (w2 & E2 & L2).
    exists (w1 ++ w2). split; [rewrite E1, E2, app_assoc; reflexivity|constructor; auto].
  - destruct IHMatches as (w & E & L). exists w. split; [exact E|apply L_AltL; exact L].
  - destruct IHMatches as (w & E & L). exists w. split; [exact E|apply L_AltR; exact L].
  - exists []. split; [reflexivity|constructor].
  - destruct IHMatches1 as (w1 & E1 & L1). destruct IHMatches2 as (w2 & E2 & L2).
    exists (w1 ++ w2). split; [rewrite E1, E2, app_assoc; reflexivity|].
    apply L_RepStep; auto.
  - destruct IHMatches as (w & E & L). exists w. split; [exact E|constructor; exact L].
  - exists []. split; [reflexivity|constructor].
  - exists []. split; [reflexivity|constructor].
  - exists []. split; [reflexivity|constructor].
  - exists []. split; [reflexivity|constructor].
Qed.

Lemma consumed_app (w s : str) : consumed (w ++ s) s = w.
Proof.
  unfold consumed. rewrite length_app.
  replace (length w + length s - length s)%nat with (length w) by lia.
  rewrite firstn_app, firstn_all, Nat.sub_diag. simpl. apply app_nil_r.
Qed.

(** The text of a group that has just been closed belongs to the language
    of its body, and lies in the subject where the group was opened. *)
Lemma Matches_Grp_text (n : nat) (a : regex) (st st' : mstate) :
  Matches (Grp n a) st st' ->
  exists w, ms_groups st' = (n, w) :: skipn 1 (ms_groups st') /\
            ms_rest st = w ++ ms_rest st' /\ Lang a w.
Proof.
  intro H. inversion H; subst.
  match goal with
  | M : Matches a st _ |- _ => destruct (Matches_Lang _ _ _ M) as (w & E & L)
  end.
  exists w. simpl. rewrite E, consumed_app. auto.
Qed.

(** A repeated character class consumes that many code points of the class. *)
Lemma Lang_rep_chr (p : char -> bool) (r : regex) (w : str) :
  Lang r w ->
  forall lo hi, r = Rep lo hi (Chr p) ->
    forallb p w = true /\ (lo <= length w)%nat /\
    (forall h, hi = Some h -> (length w <= h)%nat).
Proof.
  induction 1; intros lo' hi' E; try discriminate; inversion E; subst.
  - repeat split; [lia|intros; simpl; lia].
  - match goal with
    | L : Lang (Chr p) _ |- _ => inversion L as [|? c Hp| | | | | | | | |]; subst
    end.
    destruct (IHLang2 _ _ eq_refl) as (F & Hlo & Hhi).
    simpl. rewrite Hp, F. repeat split; [lia|].
    intros h ->. simpl in Hhi. specialize (Hhi _ eq_refl).
    destruct h; [congruence|]. simpl in Hhi. lia.
Qed.

(** A property of texts that holds of the empty text, and of [x ++ y] when
    it holds of one round [x] and of [y], holds of any repetition. *)
Lemma Lang_rep_closed (Q : str -> Prop) (a r : regex) (w : str) :
  Lang r w ->
  forall lo hi, r = Rep lo hi a ->
    Q [] ->
    (forall x y, Lang a x -> Q y -> Q (x ++ y)) ->
    Q w.
Proof.
  induction 1; intros lo' hi' E Hnil Happ; try discriminate; inversion E; subst.
  - exact Hnil.
  - apply Happ; [assumption|]. eapply IHLang2; eauto.
Qed.

(** Matching a pattern without groups leaves the captured groups as they
    were. *)
Lemma Matches_no_groups (r : regex) (st st' : mstate) :
  Matches r st st' -> no_groups r = true -> ms_groups st' = ms_groups st.
Proof.
  induction 1; simpl; intro Hn; try reflexivity;
    try (apply andb_prop in Hn; destruct Hn as [Ha Hb]).
  - rewrite IHMatches2, IHMatches1; auto.
  - auto.
  - auto.
  - rewrite IHMatches2, IHMatches1; auto.
  - discriminate.
Qed.

Lemma match_here_sound (r : regex) (pos : nat) (prev : option char) (s : str)
    (m : match_obj) :
  match_here r pos prev s = Some m ->
  exists st,
    Matches r {| ms_prev := prev; ms_rest := s; ms_groups := [] |} st /\
    m_start m = pos /\ m_groups m = ms_groups st /\ m_rest m = ms_rest st /\
    s = m_text m ++ m_rest m.
Proof.
  unfold match_here. intro H.
  destruct (rmatch r _ Some) as [st|] eqn:E; [|discriminate].
  apply rmatch_sound in E. destruct E as (st' & M & Hk).
  inversion Hk; subst st'. inversion H; subst m. simpl.
  exists st. repeat split; auto.
  destruct (Matches_Lang _ _ _ M) as (w & Ew & _). simpl in Ew.
  rewrite Ew, consumed_app. reflexivity.
Qed.

(** A search answers with an attempt made at some suffix of the subject. *)
Lemma search_from_sound (r : regex) (s : str) :
  forall (pos : nat) (prev : option char) (m : match_obj),
    search_from r pos prev s = Some m ->
    exists skipped s' prev',
      s = skipped ++ s' /\
      match_here r (pos + length skipped) prev' s' = Some m.
Proof.
  induction s as [|c s IH]; intros pos prev m H; simpl in H.
  - destruct (match_here r pos prev []) eqn:E; [|discriminate].
    exists [], [], prev. simpl. rewrite Nat.add_0_r. split; congruence.
  - destruct (match_here r pos prev (c :: s)) eqn:E.
    + exists [], (c :: s), prev. simpl. rewrite Nat.add_0_r. split; congruence.
    + apply IH in H. destruct H as (skipped & s' & prev' & Es & Hm).
      exists (c :: skipped), s', prev'. simpl. split; [congruence|].
      rewrite <- Hm. f_equal. lia.
Qed.

End MatcherSoundness.

(** * The fuel of the matcher is never used up *)

Section MatcherFuel.
Context {U : UnicodeData}.

Lemma rep_loop_local (m : matcher) :
  local m -> forall fuel lo hi, local (rep_loop m fuel lo hi).
Proof.
  intros Hm fuel. induction fuel as [|fuel IH]; intros lo hi st k1 k2 Hk; simpl.
  - destruct lo; [apply Hk; lia|reflexivity].
  - assert (Hagain :
      m st (fun st1 =>
              if (lo =? 0)%nat && (length (ms_rest st1) =? length (ms_rest st))%nat
              then None
              else rep_loop m fuel (pred lo) (option_map pred hi) st1 k1) =
      m st (fun st1 =>
              if (lo =? 0)%nat && (length (ms_rest st1) =? length (ms_rest st))%nat
              then None
              else rep_loop m fuel (pred lo) (option_map pred hi) st1 k2)).
    { apply Hm. intros st1 Hle.
      destruct ((lo =? 0)%nat && (length (ms_rest st1) =? length (ms_rest st))%nat);
        [reflexivity|].
      apply IH. intros st2 Hle2. apply Hk. lia. }
    rewrite Hagain, (Hk st (le_n _)). reflexivity.
Qed.

Lemma rmatch_local (r : regex) : local (rmatch r).
Proof.
  induction r as [|p|a IHa b IHb|a IHa b IHb|lo hi a IHa|n a IHa| | |];
    intros st k1 k2 Hk; simpl.
  - apply Hk. lia.
  - destruct (ms_rest st) as [|c s'] eqn:E; [reflexivity|].
    destruct (p c); [|reflexivity]. apply Hk. simpl. lia.
  - apply IHa. intros st1 H1. apply IHb. intros st2 H2. apply Hk. lia.
  - rewrite (IHa st k1 k2 Hk), (IHb st k1 k2 Hk). reflexivity.
  - apply rep_loop_local; assumption.
  - apply IHa. intros st1 H1. apply Hk. simpl. exact H1.
  - destruct (ms_prev st); [reflexivity|]. apply Hk. lia.
  - rewrite (Hk st (le_n _)). reflexivity.
  - rewrite (Hk st (le_n _)). reflexivity.
Qed.

(** With enough fuel the repetition loop does not depend on the fuel: the
    bound on the recursion is never what stops it. *)
Lemma rep_loop_fuel_irrelevant (m : matcher) :
  local m ->
  forall fuel1 fuel2 lo hi st k,
    enough fuel1 lo hi st -> enough fuel2 lo hi st ->
    rep_loop m fuel1 lo hi st k = rep_loop m fuel2 lo hi st k.
Proof.
  intros Hm fuel1.
  induction fuel1 as [|f1 IH]; intros fuel2 lo hi st k E1 E2.
  - destruct hi; simpl in E1; lia.
  - destruct fuel2 as [|f2]; [destruct hi; simpl in E2; lia|].
    simpl.
    assert (Hagain :
      hi <> Some 0%nat ->
      m st (fun st1 =>
              if (lo =? 0)%nat && (length (ms_rest st1) =? length (ms_rest st))%nat
              then None
              else rep_loop m f1 (pred lo) (option_map pred hi) st1 k) =
      m st (fun st1 =>
              if (lo =? 0)%nat && (length (ms_rest st1) =? length (ms_rest st))%nat
              then None
              else rep_loop m f2 (pred lo) (option_map pred hi) st1 k)).
    { intro Hhi. apply Hm. intros st1 Hle.
      destruct (Nat.eqb_spec lo 0) as [Hlo|Hlo];
        destruct (Nat.eqb_spec (length (ms_rest st1)) (length (ms_rest st)))
          as [Hlen|Hlen]; simpl; try reflexivity;
        apply IH; destruct hi as [[|h]|]; simpl in *; try congruence; lia. }
    destruct hi as [[|h]|]; [reflexivity| |];
      rewrite Hagain by discriminate; reflexivity.
Qed.

(** A match ends inside its subject. *)
Lemma search_from_rest (r : regex) (s : str) (pos : nat) (prev : option char)
    (m : match_obj) :
  search_from r pos prev s = Some m ->
  (length (m_text m) + length (m_rest m) <= length s)%nat.
Proof.
  intro H. apply search_from_sound in H.
  destruct H as (skipped & s' & prev' & Es & Hm).
  apply match_here_sound in Hm. destruct Hm as (st & _ & _ & _ & _ & Et).
  rewrite Es, Et, !length_app. lia.
Qed.

(** With more fuel than the subject has code points, the list of the
    successive matches does not depend on the fuel. *)
Lemma finditer_fuel_irrelevant (r : regex) :
  forall fuel1 fuel2 pos prev s,
    (length s < fuel1)%nat -> (length s < fuel2)%nat ->
    finditer_from fuel1 r pos prev s = finditer_from fuel2 r pos prev s.
Proof.
  induction fuel1 as [|f1 IH]; intros fuel2 pos prev s H1 H2; [lia|].
  destruct fuel2 as [|f2]; [lia|]. simpl.
  destruct (search_from r pos prev s) as [m|] eqn:E; [|reflexivity].
  apply search_from_rest in E. f_equal.
  destruct (m_text m) as [|c w]; destruct (m_rest m) as [|c' s']; simpl in E;
    try reflexivity; apply IH; simpl; lia.
Qed.

(** The fuel that [rmatch] and [re_finditer] give to their loops can be
    replaced by any greater one. *)
Lemma rmatch_rep_any_fuel (lo : nat) (hi : option nat) (a : regex)
    (st : mstate) (k : cont) (fuel : nat) :
  enough fuel lo hi st ->
  rmatch (Rep lo hi a) st k = rep_loop (rmatch a) fuel lo hi st k.
Proof.
  intro He. simpl. apply rep_loop_fuel_irrelevant.
  - apply rmatch_local.
  - destruct hi; simpl; lia.
  - exact He.
Qed.

Lemma re_finditer_any_fuel (r : regex) (s : str) (fuel : nat) :
  (length s < fuel)%nat ->
  re_finditer r s = finditer_from fuel r 0 None s.
Proof.
  intro H. unfold re_finditer. apply finditer_fuel_irrelevant; lia.
Qed.

End MatcherFuel.

(** * Collapsing repeated blanks *)

Section CollapseProps.
Context {U : UnicodeData}.

Lemma blanks_lstrip (s : str) : s = blanks s ++ lstrip s.
Proof.
  induction s as [|c s IH]; simpl; [reflexivity|].
  destruct (isspace c); simpl; [f_equal; exact IH|reflexivity].
Qed.

Lemma lstrip_head (s : str) :
  match lstrip s with
  | [] => True
  | c :: _ => isspace c = false
  end.
Proof.
  induction s as [|c s IH]; simpl; [exact I|].
  destruct (isspace c) eqn:E; [exact IH|exact E].
Qed.

(** The greedy loop over blanks takes the whole run. *)
Lemma rep_greedy (m : matcher) :
  (forall prev g k,
     m {| ms_prev := prev; ms_rest := []; ms_groups := g |} k = None) ->
  (forall prev c s g k,
     m {| ms_prev := prev; ms_rest := c :: s; ms_groups := g |} k =
     if isspace c
     then k {| ms_prev := Some c; ms_rest := s; ms_groups := g |}
     else None) ->
  forall s fuel lo prev g,
    (length s + lo < fuel)%nat ->
    exists prev',
      rep_loop m fuel lo None
        {| ms_prev := prev; ms_rest := s; ms_groups := g |} Some =
      if (lo <=? length (blanks s))%nat
      then Some {| ms_prev := prev'; ms_rest := lstrip s; ms_groups := g |}
      else None.
Proof.
  intros Hnil Hcons s.
  induction s as [|c s IH]; intros fuel lo prev g Hf.
  - destruct fuel as [|fuel]; [lia|]. simpl. rewrite Hnil.
    destruct lo; exists prev; reflexivity.
  - destruct fuel as [|fuel]; [simpl in Hf; lia|].
    simpl rep_loop. rewrite Hcons. simpl blanks. simpl lstrip.
    destruct (isspace c) eqn:Ec.
    + cbn [ms_rest length].
      replace (length s =? S (length s))%nat with false
        by (symmetry; apply Nat.eqb_neq; lia).
      rewrite andb_false_r.
      destruct (IH fuel (pred lo) (Some c) g) as (prev' & E).
      { simpl in Hf. lia. }
      rewrite E. exists prev'. cbn [length].
      destruct lo as [|lo]; cbn [pred].
      * reflexivity.
      * reflexivity.
    + exists prev. cbn [length]. destruct lo; reflexivity.
Qed.

(** An attempt of [\s{2,}] succeeds exactly on a run of two blanks or
    more, and takes all of it. *)
Lemma match_here_spaces (pos : nat) (prev : option char) (s : str) :
  (exists m,
     match_here spaces_re pos prev s = Some m /\
     (2 <= length (blanks s))%nat /\
     m_start m = pos /\ m_text m = blanks s /\ m_rest m = lstrip s) \/
  (match_here spaces_re pos prev s = None /\ (length (blanks s) < 2)%nat).
Proof.
  unfold match_here, spaces_re. cbn [rmatch ms_rest].
  destruct (rep_greedy (rmatch space) (fun _ _ _ => eq_refl)
              (fun _ _ _ _ _ => eq_refl) s (S (2 + length s)) 2 prev [])
    as (prev' & E); [lia|].
  rewrite E.
  destruct (Nat.leb_spec 2 (length (blanks s))) as [H|H].
  - left. eexists. split; [reflexivity|]. cbn.
    repeat split; auto.
    rewrite (blanks_lstrip s) at 1. apply consumed_app.
  - right. split; [reflexivity|exact H].
Qed.

Lemma search_from_start (r : regex) (s : str) (pos : nat) (prev : option char)
    (m : match_obj) :
  search_from r pos prev s = Some m -> (pos <= m_start m)%nat.
Proof.
  intro H. apply search_from_sound in H.
  destruct H as (skipped & s' & prev' & _ & Hm).
  apply match_here_sound in Hm. destruct Hm as (st & _ & E & _). lia.
Qed.

(** Where no match starts at the first code point, that code point is
    copied and the scan goes on behind it. *)
Lemma finditer_skip (r : regex) (fuel pos : nat) (prev : option char)
    (c : char) (s : str) :
  match_here r pos prev (c :: s) = None ->
  finditer_from fuel r pos prev (c :: s) = finditer_from fuel r (S pos) (Some c) s.
Proof.
  intro H. destruct fuel as [|fuel]; [reflexivity|].
  cbn [finditer_from search_from]. rewrite H.
  destruct fuel; reflexivity.
Qed.

Lemma finditer_head_start (r : regex) (fuel pos : nat) (prev : option char)
    (s : str) :
  match finditer_from fuel r pos prev s with
  | [] => True
  | m :: _ => (pos <= m_start m)%nat
  end.
Proof.
  destruct fuel as [|fuel]; simpl; [exact I|].
  destruct (search_from r pos prev s) as [m|] eqn:E; [|exact I].
  eapply search_from_start; eauto.
Qed.

Lemma sub_matches_skip (repl : str) (pos : nat) (c : char) (s : str)
    (ms : list match_obj) :
  match ms with [] => True | m :: _ => (S pos <= m_start m)%nat end ->
  sub_matches repl pos (c :: s) ms = c :: sub_matches repl (S pos) s ms.
Proof.
  destruct ms as [|m ms]; intro H; simpl; [reflexivity|].
  unfold m_end.
  replace (m_start m - pos)%nat with (S (m_start m - S pos)) by lia.
  replace (m_start m + length (m_text m) - pos)%nat
    with (S (m_start m + length (m_text m) - S pos)) by lia.
  reflexivity.
Qed.

Lemma collapse_from_blanks (s : str) :
  forall run, collapse_from run s = collapse_from (rev (blanks s) ++ run) (lstrip s).
Proof.
  induction s as [|c s IH]; intro run; simpl; [reflexivity|].
  destruct (isspace c) eqn:E.
  - rewrite IH. simpl. rewrite <- app_assoc. reflexivity.
  - simpl. rewrite E. reflexivity.
Qed.

Lemma collapse_from_flush (run t : str) :
  match t with [] => True | c :: _ => isspace c = false end ->
  collapse_from run t = flush run ++ collapse_from [] t.
Proof.
  destruct t as [|c t]; simpl; intro H.
  - rewrite app_nil_r. reflexivity.
  - rewrite H. reflexivity.
Qed.

Lemma flush_long (run : str) : (2 <= length run)%nat -> flush run = [32%N].
Proof.
  destruct run as [|a [|b run]]; simpl; intro H; try lia. reflexivity.
Qed.

(** A run of two blanks or more at the head becomes one space. *)
Lemma collapse_run (s : str) :
  (2 <= length (blanks s))%nat -> collapse s = 32%N :: collapse (lstrip s).
Proof.
  intro H. unfold collapse. rewrite collapse_from_blanks, app_nil_r.
  rewrite (collapse_from_flush _ _ (lstrip_head s)).
  rewrite flush_long by (rewrite length_rev; exact H). reflexivity.
Qed.

(** A code point that does not start such a run is copied. *)
Lemma collapse_copy (c : char) (s : str) :
  (length (blanks (c :: s)) < 2)%nat -> collapse (c :: s) = c :: collapse s.
Proof.
  unfold collapse. simpl. destruct (isspace c) eqn:E; [|reflexivity].
  simpl. intro H.
  assert (Hb : blanks s = []) by (destruct (blanks s); [reflexivity|simpl in H; lia]).
  apply collapse_from_flush.
  destruct s as [|d s]; [exact I|]. simpl in Hb.
  destruct (isspace d); [discriminate|reflexivity].
Qed.

(** [re.sub(r"\s{2,}", " ", s)] is [collapse s]. *)
Lemma sub_spaces_from (fuel : nat) :
  forall s pos prev,
    (length s < fuel)%nat ->
    sub_matches (lit " ") pos s (finditer_from fuel spaces_re pos prev s) =
    collapse s.
Proof.
  induction fuel as [|fuel IHf]; intros s pos prev Hf; [lia|].
  revert pos prev Hf. induction s as [|c s IHs]; intros pos prev Hf.
  - destruct (match_here_spaces pos prev []) as [(m & _ & H2 & _)|[Hm _]];
      [simpl in H2; lia|].
    cbn [finditer_from search_from]. rewrite Hm. reflexivity.
  - destruct (match_here_spaces pos prev (c :: s))
      as [(m & Hm & H2 & Hs & Ht & Hr)|[Hm Hlt]].
    + cbn [finditer_from search_from]. rewrite Hm.
      assert (Hlen : length (c :: s) = (length (blanks (c :: s)) +
                                        length (lstrip (c :: s)))%nat).
      { rewrite (blanks_lstrip (c :: s)) at 1. apply length_app. }
      rewrite Ht, Hr.
      destruct (blanks (c :: s)) as [|b w] eqn:Eb; [simpl in H2; lia|].
      cbn [sub_matches]. unfold m_end. rewrite Hs, Ht, Nat.sub_diag.
      replace (pos + length (b :: w) - pos)%nat with (length (b :: w)) by lia.
      cbn [firstn app].
      assert (Hskip : skipn (length (b :: w)) (c :: s) = lstrip (c :: s)).
      { rewrite (blanks_lstrip (c :: s)) at 1. rewrite Eb.
        rewrite skipn_app, skipn_all, Nat.sub_diag. reflexivity. }
      rewrite Hskip.
      assert (Hlast :
        sub_matches (lit " ") (pos + length (b :: w)) (lstrip (c :: s))
          match lstrip (c :: s) with
          | [] => finditer_from fuel spaces_re (pos + length (b :: w))
                    (m_prev m) []
          | _ :: _ => finditer_from fuel spaces_re (pos + length (b :: w))
                        (m_prev m) (lstrip (c :: s))
          end = collapse (lstrip (c :: s))).
      { destruct (lstrip (c :: s)) eqn:El; apply IHf; simpl in *; lia. }
      rewrite collapse_run by (rewrite Eb; exact H2).
      change (lit " ") with [32%N] in *. cbn [app]. f_equal.
      destruct (lstrip (c :: s)); exact Hlast.
    + rewrite (finditer_skip _ _ _ _ _ _ Hm).
      rewrite sub_matches_skip by apply finditer_head_start.
      rewrite IHs by (simpl in Hf; lia).
      symmetry. apply collapse_copy. exact Hlt.
Qed.

Lemma re_sub_spaces (s : str) : re_sub spaces_re (lit " ") s = collapse s.
Proof.
  unfold re_sub, re_finditer. apply sub_spaces_from. lia.
Qed.

(** *** Trimming and collapsing commute *)

Lemma lstrip_blank_app (b x : str) :
  forallb isspace b = true -> lstrip (b ++ x) = lstrip x.
Proof.
  induction b as [|c b IH]; simpl; [reflexivity|].
  intro H. apply andb_prop in H. destruct H as [Hc Hb].
  rewrite Hc. exact (IH Hb).
Qed.

Lemma lstrip_fixed (x : str) :
  match x with [] => True | c :: _ => isspace c = false end -> lstrip x = x.
Proof.
  destruct x as [|c x]; simpl; [reflexivity|]. intros ->. reflexivity.
Qed.

Lemma blanks_blank (s : str) : forallb isspace (blanks s) = true.
Proof.
  induction s as [|c s IH]; simpl; [reflexivity|].
  destruct (isspace c) eqn:E; simpl; [rewrite E; exact IH|reflexivity].
Qed.

Lemma forallb_rev (A : Type) (f : A -> bool) (l : list A) :
  forallb f l = true -> forallb f (rev l) = true.
Proof.
  intro H. apply forallb_forall. intros x Hx. apply in_rev in Hx.
  rewrite forallb_forall in H. exact (H x Hx).
Qed.

Lemma flush_blank (run : str) :
  forallb isspace run = true -> forallb isspace (flush run) = true.
Proof.
  destruct run as [|a [|b run]]; simpl; intro H; [reflexivity| |reflexivity].
  exact H.
Qed.

Lemma collapse_head (t : str) :
  match t with [] => True | c :: _ => isspace c = false end ->
  match collapse t with [] => True | c :: _ => isspace c = false end.
Proof.
  destruct t as [|c t]; unfold collapse; simpl; [exact (fun H => H)|].
  intro H. rewrite H. simpl. exact H.
Qed.

Lemma lstrip_collapse (s : str) : lstrip (collapse s) = collapse (lstrip s).
Proof.
  unfold collapse at 1. rewrite collapse_from_blanks, app_nil_r.
  rewrite (collapse_from_flush _ _ (lstrip_head s)).
  rewrite lstrip_blank_app
    by (apply flush_blank, forallb_rev, blanks_blank).
  apply lstrip_fixed. apply collapse_head. apply lstrip_head.
Qed.

Lemma rstrip_blank_app (x b : str) :
  forallb isspace b = true -> rstrip (x ++ b) = rstrip x.
Proof.
  intro H. unfold rstrip. rewrite rev_app_distr.
  rewrite lstrip_blank_app by (apply forallb_rev; exact H). reflexivity.
Qed.

Lemma rstrip_fixed (x : str) (c : char) :
  isspace c = false -> rstrip (x ++ [c]) = x ++ [c].
Proof.
  intro H. unfold rstrip. rewrite rev_app_distr. simpl. rewrite H.
  simpl. rewrite rev_involutive. reflexivity.
Qed.

(** A text is its right-trimmed part followed by blanks; the trimmed part
    is empty or ends with a code point that is not a blank. *)
Lemma rstrip_split (s : str) :
  exists b,
    s = rstrip s ++ b /\ forallb isspace b = true /\
    (rstrip s = [] \/ exists x c, rstrip s = x ++ [c] /\ isspace c = false).
Proof.
  exists (rev (blanks (rev s))). split; [|split].
  - unfold rstrip. rewrite <- rev_app_distr, <- blanks_lstrip, rev_involutive.
    reflexivity.
  - apply forallb_rev, blanks_blank.
  - unfold rstrip. pose proof (lstrip_head (rev s)) as H.
    destruct (lstrip (rev s)) as [|c t]; [left; reflexivity|].
    right. exists (rev t), c. split; [reflexivity|exact H].
Qed.

Lemma collapse_from_all_blank (w : str) :
  forallb isspace w = true ->
  forall run, collapse_from run w = flush (rev w ++ run).
Proof.
  induction w as [|c w IH]; simpl; intros H run; [reflexivity|].
  apply andb_prop in H. destruct H as [Hc Hw].
  rewrite Hc, (IH Hw). rewrite <- app_assoc. reflexivity.
Qed.

Lemma collapse_from_snoc (x : str) (c : char) (w : str) :
  isspace c = false -> forallb isspace w = true ->
  forall run,
    collapse_from run ((x ++ [c]) ++ w) =
    (collapse_from run x ++ [c]) ++ flush (rev w).
Proof.
  intros Hc Hw. induction x as [|d x IH]; intro run; simpl.
  - rewrite Hc. rewrite (collapse_from_all_blank w Hw), app_nil_r.
    rewrite <- !app_assoc. reflexivity.
  - destruct (isspace d).
    + apply IH.
    + rewrite IH. rewrite <- !app_assoc. reflexivity.
Qed.

Lemma rstrip_collapse (s : str) : rstrip (collapse s) = collapse (rstrip s).
Proof.
  destruct (rstrip_split s) as (b & Es & Hb & [E0|(x & c & Ex & Hc)]).
  - rewrite E0 in *. simpl in Es. subst s. unfold collapse.
    rewrite (collapse_from_all_blank b Hb), app_nil_r. simpl.
    change (flush (rev b)) with ([] ++ flush (rev b)).
    rewrite rstrip_blank_app by (apply flush_blank, forallb_rev; exact Hb).
    reflexivity.
  - rewrite Ex. rewrite Es at 1. rewrite Ex. unfold collapse.
    rewrite (collapse_from_snoc x c b Hc Hb).
    rewrite rstrip_blank_app by (apply flush_blank, forallb_rev; exact Hb).
    rewrite rstrip_fixed by exact Hc.
    pose proof (collapse_from_snoc x c [] Hc eq_refl []) as E.
    simpl in E. rewrite !app_nil_r in E.
    symmetry. exact E.
Qed.

(** Collapsing and then trimming gives what trimming and then collapsing
    gives. *)
Lemma strip_collapse (s : str) : strip (collapse s) = collapse (strip s).
Proof.
  unfold strip. rewrite rstrip_collapse, lstrip_collapse. reflexivity.
Qed.

End CollapseProps.

(** * pf/classify.py: the statement classifier *)

Section ClassifierClaims.
Context {U : UnicodeData}.

(** C1. For every text in whose lowercased form none of the cue phrases of
    the four statement types occurs, [classify_statement] returns normally
    (no [ZeroDivisionError], nor any other exception) and the confidence
    it returns is exactly 0.0. *)
Theorem classify_no_cue_confidence_zero (text : str) :
  no_cue (lower text) ->
  exists ty, classify_statement text = Ok (ty, 0%Q).
Proof.
  intro Hno.
  destruct (classify_core text) as (best & c & pre & post & E & _ & _ & _ & Hz & _).
  exists best. rewrite E, (Hz Hno). reflexivity.
Qed.

(** C2. For every text [classify_statement] returns, and its confidence is
    exactly 0.0 when no cue phrase occurs and exactly 1.0 when at least
    one does: the count of the selected type is the greatest count over
    the four types.  Hence the caller's test [confidence < 0.5] holds
    exactly when no cue phrase occurs at all. *)
Theorem classify_confidence_zero_or_one (text : str) :
  exists best confidence,
    classify_statement text = Ok (best, confidence) /\
    In best statement_types /\
    (forall ty, In ty statement_types ->
       (cue_hits ty (lower text) <= cue_hits best (lower text))%Z) /\
    ((no_cue (lower text) /\ confidence = 0%Q) \/
     ((exists cue, In cue all_cues /\ contains (lower text) cue = true) /\
      confidence = 1%Q)) /\
    (float_ltb confidence (1 # 2) = true <-> no_cue (lower text)).
Proof.
  destruct (classify_core text)
    as (best & c & pre & post & E & S & P1 & P2 & Hz & Hnz).
  exists best, c. split; [exact E|].
  assert (Hbest : In best statement_types).
  { rewrite S. apply in_or_app. right. left. reflexivity. }
  split; [exact Hbest|]. split.
  { intros ty Hty. rewrite S in Hty. apply in_app_or in Hty.
    destruct Hty as [Hty|[<-|Hty]]; [apply P1 in Hty; lia|lia|apply P2, Hty]. }
  destruct (cue_occurs_dec (lower text) all_cues) as [Hno|Hyes].
  - rewrite (Hz Hno). split; [left; split; [exact Hno|reflexivity]|].
    split; [intros _; exact Hno|reflexivity].
  - assert (Hn : ~ no_cue (lower text)).
    { intro Hno. destruct Hyes as (cue & Hin & Hc).
      rewrite (Hno cue Hin) in Hc. discriminate. }
    rewrite (Hnz Hn). split; [right; split; [exact Hyes|reflexivity]|].
    split; [discriminate|intro Hno; destruct (Hn Hno)].
Qed.

(** C9. For every text [classify_statement] returns one of the four types
    mortgage, credit_card, brokerage, bank; the type it returns has the
    greatest cue-hit count, and among the types with that count it is the
    first in the enumeration order: every type listed before it has a
    strictly smaller count, no type listed after it has a greater one. *)
Theorem classify_first_max_wins (text : str) :
  exists best confidence pre post,
    classify_statement text = Ok (best, confidence) /\
    (best = lit "mortgage" \/ best = lit "credit_card" \/
     best = lit "brokerage" \/ best = lit "bank") /\
    [lit "mortgage"; lit "credit_card"; lit "brokerage"; lit "bank"] =
      pre ++ best :: post /\
    (forall ty, In ty pre ->
       (cue_hits ty (lower text) < cue_hits best (lower text))%Z) /\
    (forall ty, In ty post ->
       (cue_hits ty (lower text) <= cue_hits best (lower text))%Z).
Proof.
  destruct (classify_core text)
    as (best & c & pre & post & E & S & P1 & P2 & _ & _).
  exists best, c, pre, post. split; [exact E|].
  assert (Hbest : In best statement_types).
  { rewrite S. apply in_or_app. right. left. reflexivity. }
  split; [|split; [exact S|split; [exact P1|exact P2]]].
  destruct Hbest as [<-|[<-|[<-|[<-|[]]]]]; auto.
Qed.

End ClassifierClaims.

Lemma classify_no_cue_confidence_zero_witness :
  no_cue (lower (U := ascii_only) (lit "Hello, World")) /\
  exists ty,
    classify_statement (U := ascii_only) (lit "Hello, World") = Ok (ty, 0%Q).
Proof.
  assert (Hno : no_cue (lower (U := ascii_only) (lit "Hello, World"))).
  { intros cue Hin. vm_compute in Hin.
    repeat (destruct Hin as [<-|Hin]; [vm_compute; reflexivity|]).
    destruct Hin. }
  split; [exact Hno|].
  exact (classify_no_cue_confidence_zero (U := ascii_only) (lit "Hello, World") Hno).
Defined.

(** * pf/classify.py: the masked account *)

Section MaskedAccount.
Context {U : UnicodeData}.

Lemma last_digits_group (pre : list regex) :
  forall st st',
    Matches (cat (pre ++ [last_digits])) st st' ->
    exists u w,
      lookup_group 1 (ms_groups st') = Some w /\
      ms_rest st = u ++ w ++ ms_rest st' /\
      three_or_four_digits w.
Proof.
  induction pre as [|a pre IH]; intros st st' H; simpl in H.
  - inversion H as [| |? ? ? st1 ? M1 M2| | | | | | | | |]; subst.
    inversion M2; subst.
    apply Matches_Grp_text in M1. destruct M1 as (w & G & E & L).
    exists [], w. rewrite G. simpl. split; [reflexivity|]. split; [exact E|].
    destruct (Lang_rep_chr _ _ _ L _ _ eq_refl) as (F & Hlo & Hhi).
    specialize (Hhi _ eq_refl). split; [lia|exact F].
  - inversion H as [| |? ? ? st1 ? M1 M2| | | | | | | | |]; subst.
    destruct (Matches_Lang _ _ _ M1) as (w1 & E1 & _).
    destruct (IH _ _ M2) as (u & w & G & E & D).
    exists (w1 ++ u), w. split; [exact G|]. split; [|exact D].
    rewrite E1, E, <- app_assoc. reflexivity.
Qed.

Lemma account_patterns_shape : Forall ends_with_last_digits account_patterns.
Proof.
  unfold account_patterns.
  apply Forall_cons.
  { exists [text "account ending in"; star space]. reflexivity. }
  apply Forall_cons.
  { exists [text "account"; star space; text "no"; opt (chr 46%N); star space;
            plus (chr 42%N); star space]. reflexivity. }
  apply Forall_cons.
  { exists [Rep 2 None (chr 42%N)]. reflexivity. }
  apply Forall_cons.
  { exists [text "xxxx"; star space]. reflexivity. }
  apply Forall_nil.
Qed.

Lemma search_last_digits (p : regex) (low : str) (m : match_obj) :
  ends_with_last_digits p ->
  re_search p low = Some m ->
  exists w a b,
    group 1 m = Some w /\ low = a ++ w ++ b /\ three_or_four_digits w.
Proof.
  intros [pre ->] H. unfold re_search in H.
  apply search_from_sound in H. destruct H as (skipped & s' & prev' & Es & Hm).
  apply match_here_sound in Hm. destruct Hm as (st & M & _ & G & R & _).
  apply last_digits_group in M. destruct M as (u & w & Hg & Hr & D).
  simpl in Hr. exists w, (skipped ++ u), (ms_rest st).
  unfold group. rewrite G. split; [exact Hg|]. split; [|exact D].
  rewrite Es, Hr, <- app_assoc. reflexivity.
Qed.

(** The loop over the patterns stops at the first one that is found. *)
Lemma first_account_spec (low : str) (patterns : list regex) (last4 : str) :
  Forall ends_with_last_digits patterns ->
  first_account low patterns = Some last4 ->
  exists before p after m a b,
    patterns = before ++ p :: after /\
    (forall q, In q before -> re_search q low = None) /\
    re_search p low = Some m /\
    group 1 m = Some last4 /\
    low = a ++ last4 ++ b /\
    three_or_four_digits last4.
Proof.
  induction 1 as [|p ps Hp Hps IH]; simpl; [discriminate|].
  destruct (re_search p low) as [m|] eqn:E.
  - intro Hg.
    destruct (search_last_digits _ _ _ Hp E) as (w & a & b & Gw & El & D).
    assert (w = last4) by congruence. subst w.
    exists [], p, ps, m, a, b. simpl.
    split; [reflexivity|]. split; [intros q []|]. auto.
  - intro Hf. destruct (IH Hf) as (before & q & after & m & a & b & S & N & R & G & El & D).
    exists (p :: before), q, after, m, a, b. simpl.
    split; [congruence|]. split; [|auto].
    intros q' [<-|Hq]; auto.
Qed.

Lemma star_not_digit : isdigit 42%N = false.
Proof. reflexivity. Qed.

Lemma filter_all (A : Type) (f : A -> bool) (l : list A) :
  forallb f l = true -> filter f l = l.
Proof.
  induction l as [|x l IH]; simpl; [reflexivity|].
  intro H. apply andb_prop in H. destruct H as [Hx Hl].
  rewrite Hx, (IH Hl). reflexivity.
Qed.

(** C8. Whenever [extract_institution_and_account] returns a masked
    account, it is "****" followed by the text of group 1 of the first of
    the four account patterns, in their order, that is found in the
    lowercased text; that text is a run of exactly 3 or 4 digits of the
    lowercased text.  So the masked account holds 3 or 4 digits, never
    more than 4, whatever the length of the account number in the text. *)
Theorem masked_account_shape (text : str) (masked : str) :
  snd (extract_institution_and_account text) = Some masked ->
  exists before p after m last4 a b,
    account_patterns = before ++ p :: after /\
    (forall q, In q before -> re_search q (lower text) = None) /\
    re_search p (lower text) = Some m /\
    group 1 m = Some last4 /\
    masked = lit "****" ++ last4 /\
    lower text = a ++ last4 ++ b /\
    (length last4 = 3 \/ length last4 = 4)%nat /\
    forallb isdigit last4 = true /\
    filter isdigit masked = last4.
Proof.
  unfold extract_institution_and_account. cbn [snd].
  destruct (first_account (lower text) account_patterns) as [last4|] eqn:E;
    [|discriminate].
  destruct (first_account_spec _ _ _ account_patterns_shape E)
    as (before & p & after & m & a & b & S & N & R & G & El & [Dl Dd]).
  destruct last4 as [|c w]; [simpl in Dl; lia|].
  intro H. inversion H; subst masked.
  exists before, p, after, m, (c :: w), a, b.
  repeat split; auto.
  change (lit "****") with [42%N; 42%N; 42%N; 42%N].
  cbn [app filter]. rewrite star_not_digit.
  apply (filter_all _ isdigit (c :: w) Dd).
Qed.

End MaskedAccount.

Lemma masked_account_shape_witness :
  snd (extract_institution_and_account (U := ascii_only)
         (lit "Chase Account No. ****123456 Account ending in 9876"))
    = Some (lit "****9876") /\
  exists last4,
    lit "****9876" = lit "****" ++ last4 /\
    (length last4 = 3 \/ length last4 = 4)%nat.
Proof.
  split; [vm_compute; reflexivity|].
  destruct (masked_account_shape (U := ascii_only)
              (lit "Chase Account No. ****123456 Account ending in 9876")
              (lit "****9876") eq_refl)
    as (_ & _ & _ & _ & last4 & _ & _ & _ & _ & _ & _ & E & _ & L & _).
  exists last4. split; [exact E|exact L].
Defined.

(** * pf/classify.py: the statement period *)

Lemma date_ltb_spec (a b : date) : date_ltb a b = true <-> date_lt a b.
Proof.
  unfold date_ltb, date_lt.
  rewrite !orb_true_iff, !andb_true_iff, !orb_true_iff, !andb_true_iff,
          !Z.ltb_lt, !Z.eqb_eq.
  reflexivity.
Qed.

Lemma date_ltb_false (a b : date) : date_ltb a b = false <-> ~ date_lt a b.
Proof.
  rewrite <- date_ltb_spec. destruct (date_ltb a b); split; congruence.
Qed.

Lemma date_leb_refl (a : date) : date_leb a a = true.
Proof.
  unfold date_leb. apply negb_true_iff, date_ltb_false. unfold date_lt. lia.
Qed.

(** [max] over a non-empty list of dates returns one of them, and none of
    them is later. *)
Lemma py_max_dates (d : date) (l : list date) :
  exists ref,
    py_max (fun x best => date_ltb best x) (d :: l) = Ok ref /\
    In ref (d :: l) /\
    (forall x, In x (d :: l) -> date_leb x ref = true).
Proof.
  destruct (py_max_split date (fun x best => date_ltb best x)) with (x := d) (l := l)
    as (ref & pre & post & E & S & P1 & P2).
  - intros a b c H1 H2. apply date_ltb_spec in H1, H2. apply date_ltb_spec.
    unfold date_lt in *. lia.
  - intros a b c H1 H2. apply date_ltb_false in H1. apply date_ltb_spec in H2.
    apply date_ltb_spec. unfold date_lt in *. lia.
  - exists ref. split; [exact E|]. rewrite S. split.
    + apply in_or_app. right. left. reflexivity.
    + intros x Hx. apply in_app_or in Hx. unfold date_leb. apply negb_true_iff.
      destruct Hx as [Hx|[<-|Hx]].
      * apply P1 in Hx. apply date_ltb_spec in Hx. apply date_ltb_false.
        unfold date_lt in *. lia.
      * apply date_ltb_false. unfold date_lt. lia.
      * apply P2, Hx.
Qed.

Lemma new_date_ok (y m d : Z) (r : date) :
  new_date y m d = Ok r ->
  r = {| year := y; month := m; day := d |} /\ valid_date r.
Proof.
  unfold new_date, valid_date. destruct (valid_ymd y m d) eqn:E; [|discriminate].
  intro H. inversion H; subst r. simpl. auto.
Qed.

Lemma valid_date_bounds (d : date) :
  valid_date d ->
  (1 <= year d <= 9999 /\ 1 <= month d <= 12 /\
   1 <= day d <= days_in_month (year d) (month d))%Z.
Proof.
  unfold valid_date, valid_ymd. rewrite !andb_true_iff, !Z.leb_le. lia.
Qed.

Lemma days_in_month_min (y m : Z) : (28 <= days_in_month y m)%Z.
Proof.
  unfold days_in_month.
  destruct (m =? 2)%Z; [destruct (is_leap y); lia|].
  destruct ((m =? 4)%Z || (m =? 6)%Z || (m =? 9)%Z || (m =? 11)%Z); lia.
Qed.

(** The month bounds computed from a calendar date: no exception, and the
    first and the last day of its month. *)
Lemma month_bounds_ok (ref : date) :
  valid_date ref ->
  new_date (year ref) (month ref) 1 = Ok (month_first ref) /\
  (if (month ref =? 12)%Z
   then new_date (year ref) 12 31
   else
     first_next <- new_date (year ref) (month ref + 1) 1 ;;
     sub_one_day first_next) = Ok (month_last ref) /\
  date_leb (month_first ref) (month_last ref) = true.
Proof.
  intro Hv. apply valid_date_bounds in Hv. destruct Hv as (Hy & Hm & Hd).
  pose proof (days_in_month_min (year ref) (month ref)) as Hmin.
  pose proof (days_in_month_min (year ref) (month ref + 1)) as Hmin'.
  assert (V1 : valid_ymd (year ref) (month ref) 1 = true).
  { unfold valid_ymd. rewrite !andb_true_iff, !Z.leb_le. lia. }
  split; [unfold new_date; rewrite V1; reflexivity|]. split.
  - destruct (Z.eqb_spec (month ref) 12) as [E|E].
    + unfold new_date, month_last. rewrite E. 
      replace (valid_ymd (year ref) 12 31) with true; [reflexivity|].
      symmetry. unfold valid_ymd. rewrite !andb_true_iff, !Z.leb_le.
      change (days_in_month (year ref) 12) with 31%Z. lia.
    + unfold new_date.
      replace (valid_ymd (year ref) (month ref + 1) 1) with true.
      * cbn [bind]. unfold sub_one_day. cbn [day month year].
        change (1 <? 1)%Z with false. cbv iota.
        replace (1 <? month ref + 1)%Z with true by (symmetry; apply Z.ltb_lt; lia).
        rewrite Z.add_simpl_r. reflexivity.
      * symmetry. unfold valid_ymd. rewrite !andb_true_iff, !Z.leb_le. lia.
  - unfold date_leb. apply negb_true_iff, date_ltb_false.
    unfold date_lt, month_last, month_first. simpl. lia.
Qed.

Section PeriodClaims.
Context {U : UnicodeData}.

Lemma _parse_date_valid (s : str) (d : date) :
  _parse_date s = Some d -> valid_date d.
Proof.
  unfold _parse_date.
  destruct (split_from [] s) as [|m [|dd [|y [|? ?]]]]; try discriminate.
  destruct (py_int y) as [yv|]; cbn [bind]; [|discriminate].
  destruct (py_int m) as [mv|]; cbn [bind]; [|discriminate].
  destruct (py_int dd) as [dv|]; cbn [bind]; [|discriminate].
  destruct (new_date _ mv dv) as [r|] eqn:E; cbn [bind]; [|discriminate].
  intro H. inversion H; subst r. apply new_date_ok in E. apply E.
Qed.

Lemma parsed_dates_In (ms : list match_obj) (d : date) :
  In d (parsed_dates ms) <->
  exists m, In m ms /\ _parse_date (m_text m) = Some d.
Proof.
  induction ms as [|m ms IH]; simpl.
  - split; [intros []|intros (m & [] & _)].
  - destruct (_parse_date (m_text m)) as [d0|] eqn:E; simpl; rewrite IH; split.
    + intros [<-|(m' & Hin & Hp)]; [exists m; auto|exists m'; auto].
    + intros (m' & [<-|Hin] & Hp); [left; congruence|right; exists m'; auto].
    + intros (m' & Hin & Hp). exists m'. auto.
    + intros (m' & [<-|Hin] & Hp); [congruence|exists m'; auto].
Qed.

(** C3. For every text (and every calendar date returned by
    [dt.date.today()]) [infer_statement_period] returns a pair
    [(start, end)] with [start <= end].  When the range pattern is found,
    both of its dates parse and the first is not after the second, the pair
    is exactly these two dates.  In every other case, a found range whose
    first date is after the second included, the pair is the first and the
    last day of the month of the reference date: the latest date that a
    date token of the whole text parses to, or today's date when no token
    parses. *)
Theorem infer_statement_period_spec (today : date) (text : str) :
  valid_date today ->
  exists start end_,
    infer_statement_period today text = Ok (start, end_) /\
    date_leb start end_ = true /\
    (forall d1 d2, explicit_range text d1 d2 -> start = d1 /\ end_ = d2) /\
    ((forall d1 d2, ~ explicit_range text d1 d2) ->
     exists ref,
       reference_date today text ref /\
       start = month_first ref /\ end_ = month_last ref).
Proof.
  intro Htoday. unfold infer_statement_period.
  assert (Hfallback :
    (forall d1 d2, ~ explicit_range text d1 d2) ->
    exists start end_,
      (ref <- match parsed_dates (re_finditer _DATE_RE text) with
              | [] => Ok today
              | _ :: _ =>
                  py_max (fun d best => date_ltb best d)
                    (parsed_dates (re_finditer _DATE_RE text))
              end ;;
       start <- new_date (year ref) (month ref) 1 ;;
       end_ <- (if (month ref =? 12)%Z
                then new_date (year ref) 12 31
                else
                  first_next <- new_date (year ref) (month ref + 1) 1 ;;
                  sub_one_day first_next) ;;
       Ok (start, end_)) = Ok (start, end_) /\
      date_leb start end_ = true /\
      (forall d1 d2, explicit_range text d1 d2 -> start = d1 /\ end_ = d2) /\
      ((forall d1 d2, ~ explicit_range text d1 d2) ->
       exists ref,
         reference_date today text ref /\
         start = month_first ref /\ end_ = month_last ref)).
  { intro Hnone.
    assert (Href : exists ref,
      match parsed_dates (re_finditer _DATE_RE text) with
      | [] => Ok today
      | _ :: _ =>
          py_max (fun d best => date_ltb best d)
            (parsed_dates (re_finditer _DATE_RE text))
      end = Ok ref /\ valid_date ref /\ reference_date today text ref).
    { destruct (parsed_dates (re_finditer _DATE_RE text)) as [|d l] eqn:E.
      - exists today. split; [reflexivity|]. split; [exact Htoday|].
        left. split; [|reflexivity].
        intros m Hm. destruct (_parse_date (m_text m)) as [d|] eqn:Ed; [|reflexivity].
        assert (Hin : In d (parsed_dates (re_finditer _DATE_RE text)))
          by (apply parsed_dates_In; exists m; auto).
        rewrite E in Hin. destruct Hin.
      - destruct (py_max_dates d l) as (ref & Emax & Hin & Hle).
        exists ref. split; [exact Emax|].
        rewrite <- E in Hin, Hle.
        pose proof Hin as Hin'. apply parsed_dates_In in Hin'.
        destruct Hin' as (m & Hm & Hp).
        split; [eapply _parse_date_valid; eauto|].
        right. split; [exists m; auto|].
        intros m' d' Hm' Hp'. apply Hle. apply parsed_dates_In. exists m'. auto. }
    destruct Href as (ref & Eref & Vref & Rref).
    destruct (month_bounds_ok ref Vref) as (Es & Ee & Hle).
    exists (month_first ref), (month_last ref).
    rewrite Eref. cbn [bind]. rewrite Es. cbn [bind]. rewrite Ee. cbn [bind].
    split; [reflexivity|]. split; [exact Hle|]. split.
    - intros d1 d2 Hex. destruct (Hnone d1 d2 Hex).
    - intros _. exists ref. auto. }
  destruct (re_search _RANGE_RE text) as [m|] eqn:Em.
  - destruct (parse_group 1 m) as [d1|] eqn:E1.
    + destruct (parse_group 2 m) as [d2|] eqn:E2.
      * destruct (date_leb d1 d2) eqn:Ele.
        -- exists d1, d2. split; [reflexivity|]. split; [exact Ele|]. split.
           ++ intros x y (m' & Hm' & H1 & H2 & _). split; congruence.
           ++ intro Hnone. exfalso. apply (Hnone d1 d2). exists m. auto.
        -- apply Hfallback. intros x y (m' & Hm' & H1 & H2 & Hle). congruence.
      * apply Hfallback. intros x y (m' & Hm' & H1 & H2 & Hle). congruence.
    + apply Hfallback. intros x y (m' & Hm' & H1 & H2 & Hle). congruence.
  - apply Hfallback. intros x y (m' & Hm' & H1 & H2 & Hle). congruence.
Qed.

End PeriodClaims.

Lemma infer_statement_period_spec_witness :
  valid_date {| year := 2026; month := 11; day := 4 |} /\
  exists start end_,
    infer_statement_period (U := ascii_only)
      {| year := 2026; month := 11; day := 4 |}
      (lit "Statement period 01/05/2024 - 02/04/2024") = Ok (start, end_) /\
    date_leb start end_ = true.
Proof.
  split; [reflexivity|].
  destruct (infer_statement_period_spec (U := ascii_only)
              {| year := 2026; month := 11; day := 4 |}
              (lit "Statement period 01/05/2024 - 02/04/2024") eq_refl)
    as (start & end_ & E & L & _).
  exists start, end_. split; [exact E|exact L].
Defined.

(** * pf/parsers/generic.py: amounts *)

Section AmountProps.
Context {U : UnicodeData}.

Lemma remove_char_app (c : char) (a b : str) :
  remove_char c (a ++ b) = remove_char c a ++ remove_char c b.
Proof. apply filter_app. Qed.

Lemma digit_is_not (c x : char) :
  is_ascii x = true -> ascii_isdigit x = false -> isdigit c = true ->
  (c =? x)%N = false.
Proof.
  intros Ha Hd Hc. destruct (N.eqb_spec c x) as [->|]; [|reflexivity].
  unfold isdigit, decimal in Hc. rewrite Ha, Hd in Hc. discriminate.
Qed.

Lemma remove_char_digits (x : char) (ds : str) :
  is_ascii x = true -> ascii_isdigit x = false ->
  forallb isdigit ds = true -> remove_char x ds = ds.
Proof.
  intros Ha Hd H. apply filter_all.
  induction ds as [|c ds IH]; simpl in *; [reflexivity|].
  apply andb_prop in H. destruct H as [Hc Hds].
  rewrite (digit_is_not c x Ha Hd Hc), (IH Hds). reflexivity.
Qed.

Lemma forallb_app_true (A : Type) (f : A -> bool) (a b : list A) :
  forallb f a = true -> forallb f b = true -> forallb f (a ++ b) = true.
Proof. intros Ha Hb. rewrite forallb_app, Ha, Hb. reflexivity. Qed.

Lemma thousands_groups (w : str) :
  Lang (star (cat [chr 44%N; times 3 digit])) w ->
  forallb isdigit (remove_char 44%N w) = true.
Proof.
  intro L.
  apply (Lang_rep_closed (fun y => forallb isdigit (remove_char 44%N y) = true)
           _ _ _ L _ _ eq_refl); [reflexivity|].
  intros x y Lx Hy. cbv [cat fold_right chr times digit] in Lx.
  inversion Lx as [| |? ? c1 r1 Lc Lr| | | | | | | |]; subst.
  inversion Lc as [|? c Hc| | | | | | | | |]; subst.
  inversion Lr as [| |? ? ds e Ld Le| | | | | | | |]; subst.
  inversion Le; subst.
  destruct (Lang_rep_chr _ _ _ Ld _ _ eq_refl) as (Fd & _ & _).
  apply N.eqb_eq in Hc. subst c.
  rewrite !remove_char_app, app_nil_r.
  rewrite (remove_char_digits 44%N ds eq_refl eq_refl Fd).
  change (remove_char 44%N [44%N]) with (@nil char). cbn [app].
  apply forallb_app_true; assumption.
Qed.

Lemma amount_val_numeral (v : str) :
  Lang amount_val v -> decimal_numeral (remove_char 44%N v).
Proof.
  intro L. unfold amount_val in L.
  inversion L as [| | |? ? ? L1|? ? ? L2| | | | | |]; subst.
  - cbv [cat fold_right] in L1.
    inversion L1 as [| |? ? w1 r1 Lw1 Lr1| | | | | | | |]; subst.
    inversion Lr1 as [| |? ? w2 r2 Lw2 Lr2| | | | | | | |]; subst.
    inversion Lr2 as [| |? ? w3 r3 Lw3 Lr3| | | | | | | |]; subst.
    inversion Lr3; subst.
    inversion Lw3 as [| |? ? p1 f1 Lp Lf| | | | | | | |]; subst.
    inversion Lp as [|? c Hc| | | | | | | | |]; subst.
    inversion Lf as [| |? ? fs e Lfs Le| | | | | | | |]; subst.
    inversion Le; subst.
    apply N.eqb_eq in Hc. subst c.
    destruct (Lang_rep_chr _ _ _ Lw1 _ _ eq_refl) as (F1 & Hlo1 & _).
    destruct (Lang_rep_chr _ _ _ Lfs _ _ eq_refl) as (Ff & Hlof & Hhif).
    specialize (Hhif _ eq_refl).
    pose proof (thousands_groups _ Lw2) as F2.
    exists (w1 ++ remove_char 44%N w2), fs.
    rewrite !app_nil_r, !remove_char_app.
    rewrite (remove_char_digits 44%N w1 eq_refl eq_refl F1).
    rewrite (remove_char_digits 44%N fs eq_refl eq_refl Ff).
    split; [rewrite <- app_assoc; reflexivity|].
    split; [destruct w1; [simpl in Hlo1; lia|discriminate]|].
    split; [apply forallb_app_true; assumption|].
    split; [exact Ff|apply Nat.le_antisymm; assumption].
  - cbv [cat fold_right] in L2.
    inversion L2 as [| |? ? w1 r1 Lw1 Lr1| | | | | | | |]; subst.
    inversion Lr1 as [| |? ? p1 r2 Lp Lr2| | | | | | | |]; subst.
    inversion Lr2 as [| |? ? fs e Lfs Le| | | | | | | |]; subst.
    inversion Le; subst.
    inversion Lp as [|? c Hc| | | | | | | | |]; subst.
    apply N.eqb_eq in Hc. subst c.
    destruct (Lang_rep_chr _ _ _ Lw1 _ _ eq_refl) as (F1 & Hlo1 & _).
    destruct (Lang_rep_chr _ _ _ Lfs _ _ eq_refl) as (Ff & Hlof & Hhif).
    specialize (Hhif _ eq_refl).
    exists w1, fs.
    rewrite !app_nil_r, !remove_char_app.
    rewrite (remove_char_digits 44%N w1 eq_refl eq_refl F1).
    rewrite (remove_char_digits 44%N fs eq_refl eq_refl Ff).
    split; [reflexivity|].
    split; [destruct w1; [simpl in Hlo1; lia|discriminate]|].
    split; [exact F1|]. split; [exact Ff|apply Nat.le_antisymm; assumption].
Qed.

End AmountProps.

Section AmountClaims.
Context {U : UnicodeData}.

Lemma split_point_numeral (ds fs : str) :
  forallb isdigit ds = true ->
  forall cur, split_point cur (ds ++ 46%N :: fs) = (rev cur ++ ds, Some fs).
Proof.
  induction ds as [|c ds IH]; intros H cur; simpl.
  - rewrite app_nil_r. reflexivity.
  - simpl in H. apply andb_prop in H. destruct H as [Hc Hds].
    rewrite (digit_is_not c 46%N eq_refl eq_refl Hc).
    rewrite (IH Hds). simpl. rewrite <- app_assoc. reflexivity.
Qed.

Lemma digits_value_total (s : str) :
  forallb isdigit s = true -> forall acc, exists n, digits_value acc s = Some n.
Proof.
  induction s as [|c s IH]; intros H acc; simpl.
  - exists acc. reflexivity.
  - simpl in H. apply andb_prop in H. destruct H as [Hc Hs].
    unfold isdigit in Hc. destruct (decimal c) as [d|]; [|discriminate].
    apply IH. exact Hs.
Qed.

(** [float] accepts every such numeral. *)
Lemma py_float_numeral (s : str) :
  decimal_numeral s -> exists val, py_float s = Ok val.
Proof.
  intros (ds & fs & -> & Hne & Fd & Ff & Hlen).
  unfold py_float. rewrite (split_point_numeral ds fs Fd []). simpl rev. simpl app at 1.
  destruct (digits_value_total (ds ++ fs) (forallb_app_true _ _ _ _ Fd Ff) 0%Z)
    as (n & Hn).
  destruct (ds ++ fs) as [|c w] eqn:E.
  - destruct ds; [congruence|discriminate].
  - rewrite Hn. eexists. reflexivity.
Qed.

(** What a found amount captures: group [val] holds a numeral of the
    pattern's shape, group [sign] is absent or holds the minus sign. *)
Lemma amount_groups (s : str) (m : match_obj) :
  re_search _AMOUNT_RE s = Some m ->
  exists v,
    group 2 m = Some v /\ Lang amount_val v /\
    (group 1 m = None \/ group 1 m = Some (lit "-")).
Proof.
  intro H. unfold re_search in H.
  apply search_from_sound in H. destruct H as (skipped & s' & prev' & _ & Hm).
  apply match_here_sound in Hm. destruct Hm as (st & M & _ & G & _ & _).
  unfold group. rewrite G. clear G m.
  cbv [_AMOUNT_RE cat fold_right] in M.
  inversion M as [| |? ? ? st1 ? M1 R1| | | | | | | | |]; subst.
  inversion R1 as [| |? ? ? st2 ? M2 R2| | | | | | | | |]; subst.
  inversion R2 as [| |? ? ? st3 ? M3 R3| | | | | | | | |]; subst.
  inversion R3; subst.
  inversion M3 as [| | | | | | |? ? ? st3' M3'| | | |]; subst.
  destruct (Matches_Lang _ _ _ M3') as (v & Ev & Lv).
  exists v. simpl. rewrite Ev, consumed_app.
  split; [reflexivity|]. split; [exact Lv|].
  assert (G3 : ms_groups st3' = ms_groups st2)
    by (apply (Matches_no_groups _ _ _ M3'); reflexivity).
  assert (G2 : ms_groups st2 = ms_groups st1)
    by (apply (Matches_no_groups _ _ _ M2); reflexivity).
  rewrite G3, G2. clear - M1.
  unfold opt in M1.
  inversion M1 as [| | | | |? ? ?| ? ? ? ? sta ? Hhi Ma Mr| | | | |]; subst.
  - left. reflexivity.
  - right. simpl in Mr.
    assert (st1 = sta).
    { inversion Mr as [| | | | |? ? ?|? ? ? ? ? ? Hhi' ? ?| | | | |]; subst;
        [reflexivity|congruence]. }
    subst sta.
    apply Matches_Grp_text in Ma. destruct Ma as (w & Gw & _ & Lw).
    rewrite Gw. simpl.
    inversion Lw as [|? c Hc| | | | | | | | |]; subst.
    apply N.eqb_eq in Hc. subst c. reflexivity.
Qed.

Lemma Qabs_Qopp (x : Q) : Qabs (Qopp x) = Qabs x.
Proof. destruct x as [n d]. unfold Qabs, Qopp. simpl. rewrite Z.abs_opp. reflexivity. Qed.

(** C4. The three amounts of the specification parse as stated.  In
    general, whenever the amount pattern is found, [_parse_amount] returns
    a value: the numeral of group [val], negated when the sign group in
    front of it holds "-"; and when the trimmed input ends with "-", the
    result is the negated absolute value of that numeral, whether or not a
    leading sign was found. *)
Theorem parse_amount_signs :
  _parse_amount (lit "-$1,234.56") = Ok (Some (Qred (-1234.56))) /\
  _parse_amount (lit "1234.56-") = Ok (Some (Qred (-1234.56))) /\
  _parse_amount (lit "$45.00") = Ok (Some (Qred 45.00)) /\
  forall s m,
    re_search _AMOUNT_RE s = Some m ->
    exists v val,
      group 2 m = Some v /\
      py_float (remove_char 44%N v) = Ok val /\
      (group 1 m = None \/ group 1 m = Some (lit "-")) /\
      _parse_amount s =
        Ok (Some (if endswith (strip s) (lit "-") then Qopp (Qabs val)
                  else match group 1 m with
                       | Some _ => Qopp val
                       | None => val
                       end)).
Proof.
  split; [vm_compute; reflexivity|].
  split; [vm_compute; reflexivity|].
  split; [vm_compute; reflexivity|].
  intros s m Hs.
  destruct (amount_groups s m Hs) as (v & G2 & Lv & G1).
  destruct (py_float_numeral _ (amount_val_numeral v Lv)) as (val & Hval).
  exists v, val. split; [exact G2|]. split; [exact Hval|]. split; [exact G1|].
  unfold _parse_amount. rewrite Hs, G2, Hval. cbn [bind].
  destruct G1 as [-> | ->].
  - reflexivity.
  - change (lit "-") with [45%N]. cbn iota.
    rewrite Qabs_Qopp. reflexivity.
Qed.

End AmountClaims.

Lemma parse_amount_signs_witness :
  exists m,
    re_search (U := ascii_only) (@_AMOUNT_RE ascii_only) (lit "-$5.00-") = Some m /\
    group 1 m = Some (lit "-") /\
    _parse_amount (U := ascii_only) (lit "-$5.00-") = Ok (Some (Qopp (Qabs 5))).
Proof.
  destruct (re_search (U := ascii_only) (@_AMOUNT_RE ascii_only) (lit "-$5.00-")) as [m|] eqn:Hs;
    [|vm_compute in Hs; discriminate].
  exists m. split; [reflexivity|].
  destruct (proj2 (proj2 (proj2 (parse_amount_signs (U := ascii_only))))
              (lit "-$5.00-") m Hs)
    as (v & val & G2 & Hf & G1 & E).
  vm_compute in Hs. inversion Hs; subst m. clear Hs.
  vm_compute in G2. inversion G2; subst v. clear G2.
  vm_compute in Hf. inversion Hf; subst val. clear Hf.
  split; [vm_compute; reflexivity|].
  rewrite E. vm_compute. reflexivity.
Defined.

(** * pf/parsers/generic.py: the description of an extracted line *)

Section DescriptionClaims.
Context {U : UnicodeData}.
Variable dateutil_parse : str -> date -> result date.

(** A line that yields a transaction matched the date-line pattern, and
    its description is the cleaned remainder, or the default. *)
Lemma extract_line_description (default_year : Z) (ln : str) (t : txn) :
  extract_line dateutil_parse default_year ln = Ok (Some t) ->
  exists m rest,
    re_match _DATE_LINE_RE ln = Some m /\
    group 2 m = Some rest /\
    description t =
      Some (match clean_description rest with
            | [] => lit "Transaction"
            | c :: d => c :: d
            end).
Proof.
  unfold extract_line.
  destruct (re_match _DATE_LINE_RE ln) as [m|] eqn:Em; [|discriminate].
  destruct (group 1 m) as [date_part|]; [|discriminate].
  destruct (group 2 m) as [rest|] eqn:Eg; [|discriminate].
  assert (Hfinal :
    forall a,
      match _parse_date_from_fragment dateutil_parse date_part default_year with
      | Some posted =>
          Ok (Some {| posted_at := Some posted;
                      description :=
                        Some match clean_description rest with
                             | [] => lit "Transaction"
                             | _ :: _ => clean_description rest
                             end;
                      amount := Some a |})
      | None => Ok None
      end = Ok (Some t) ->
      exists m0 rest0,
        Some m = Some m0 /\ group 2 m0 = Some rest0 /\
        description t =
          Some match clean_description rest0 with
               | [] => lit "Transaction"
               | c :: d => c :: d
               end).
  { intros a H.
    destruct (_parse_date_from_fragment dateutil_parse date_part default_year);
      [|discriminate].
    inversion H; subst t. cbn [description].
    exists m, rest. split; [reflexivity|]. split; [exact Eg|].
    destruct (clean_description rest); reflexivity. }
  destruct (_parse_amount rest) as [[a|]|]; cbn [bind]; [| |discriminate].
  - apply Hfinal.
  - destruct (_parse_amount ln) as [[a|]|]; cbn [bind]; try discriminate.
    apply Hfinal.
Qed.

(** Every transaction of the loop comes from one of the lines. *)
Lemma extract_lines_In (default_year : Z) (lines : list str) :
  forall ts,
    extract_lines dateutil_parse default_year lines = Ok ts ->
    forall t, In t ts ->
      exists ln, In ln lines /\
                 extract_line dateutil_parse default_year ln = Ok (Some t).
Proof.
  induction lines as [|ln lines IH]; intros ts H t Ht; simpl in H.
  - inversion H; subst ts. destruct Ht.
  - destruct (extract_line dateutil_parse default_year ln) as [o|] eqn:E;
      cbn [bind] in H; [|discriminate].
    destruct (extract_lines dateutil_parse default_year lines) as [ts'|];
      cbn [bind] in H; [|discriminate].
    inversion H; subst ts. clear H.
    destruct o as [t0|].
    + destruct Ht as [<-|Ht].
      * exists ln. split; [left; reflexivity|exact E].
      * destruct (IH ts' eq_refl t Ht) as (ln' & Hin & He).
        exists ln'. split; [right; exact Hin|exact He].
    + destruct (IH ts' eq_refl t Ht) as (ln' & Hin & He).
      exists ln'. split; [right; exact Hin|exact He].
Qed.

(** C7 (as amended). Every transaction that
    [extract_transactions_from_text] emits comes from a line that matched
    the date-line pattern, and its description is obtained from the
    remainder after the date token by removing every match of the amount
    pattern, collapsing repeated whitespace and trimming, with
    "Transaction" when nothing is left; so the description of every
    emitted transaction is a non-empty text. *)
Theorem emitted_description_is_cleaned_remainder
    (today_year : Z) (pages_text : list str) (ts : list txn) (t : txn) :
  extract_transactions_from_text dateutil_parse today_year pages_text = Ok ts ->
  In t ts ->
  exists ln m rest d,
    In ln (all_lines pages_text) /\
    re_match _DATE_LINE_RE ln = Some m /\
    group 2 m = Some rest /\
    description t = Some d /\
    d = (match strip (re_sub spaces_re (lit " ") (re_sub _AMOUNT_RE [] rest)) with
         | [] => lit "Transaction"
         | c :: d' => c :: d'
         end) /\
    d <> [].
Proof.
  unfold extract_transactions_from_text.
  destruct (infer_default_year today_year (all_lines pages_text)) as [y|];
    cbn [bind]; [|discriminate].
  intros H Ht.
  destruct (extract_lines_In y _ _ H t Ht) as (ln & Hin & He).
  destruct (extract_line_description y ln t He) as (m & rest & Hm & Hg & Hd).
  exists ln, m, rest. eexists. split; [exact Hin|]. split; [exact Hm|].
  split; [exact Hg|]. split; [exact Hd|].
  assert (Eclean : clean_description rest =
                   strip (re_sub spaces_re (lit " ") (re_sub _AMOUNT_RE [] rest))).
  { unfold clean_description. rewrite !re_sub_spaces, strip_collapse. reflexivity. }
  rewrite <- Eclean. split; [reflexivity|].
  destruct (clean_description rest); discriminate.
Qed.

End DescriptionClaims.

(** C7, as the specification states it, fails on a line with two amounts:
    the extractor removes both from the description, not only the one it
    parsed. *)
Lemma description_drops_every_amount :
  extract_transactions_from_text (U := ascii_only) month_day_year 2026
    [lit "01/02/2024 REFUND 12.00 OF 40.00"] =
    Ok [ {| posted_at := Some {| year := 2024; month := 1; day := 2 |};
            description := Some (lit "REFUND OF");
            amount := Some 12%Q |} ] /\
  spec_description (U := ascii_only) (lit "REFUND 12.00 OF 40.00") =
    lit "REFUND OF 40.00" /\
  lit "REFUND OF" <> lit "REFUND OF 40.00".
Proof.
  split; [vm_compute; reflexivity|].
  split; [vm_compute; reflexivity|].
  vm_compute. discriminate.
Qed.

Lemma emitted_description_is_cleaned_remainder_witness :
  let t := {| posted_at := Some {| year := 2024; month := 1; day := 2 |};
              description := Some (lit "REFUND OF");
              amount := Some 12%Q |} in
  extract_transactions_from_text (U := ascii_only) month_day_year 2026
    [lit "01/02/2024 REFUND 12.00 OF 40.00"] = Ok [t] /\
  In t [t] /\
  exists d, description t = Some d /\ d <> [].
Proof.
  intro t.
  assert (E : extract_transactions_from_text (U := ascii_only) month_day_year 2026
                [lit "01/02/2024 REFUND 12.00 OF 40.00"] = Ok [t])
    by (vm_compute; reflexivity).
  split; [exact E|]. split; [left; reflexivity|].
  destruct (emitted_description_is_cleaned_remainder (U := ascii_only)
              month_day_year 2026 [lit "01/02/2024 REFUND 12.00 OF 40.00"]
              [t] t E (or_introl eq_refl))
    as (_ & _ & _ & d & _ & _ & _ & Hd & _ & Hne).
  exists d. split; [exact Hd|exact Hne].
Defined.

(** * pf/parsers/generic.py: categorisation *)

Lemma float_ltb_irrefl_zero (a : Q) :
  (a == 0)%Q -> float_ltb 0 a = false /\ float_ltb a 0 = false.
Proof.
  unfold Qeq, float_ltb. simpl. intro H. split; apply Z.ltb_ge; lia.
Qed.

Lemma float_ltb_asym (a b : Q) : float_ltb a b = true -> float_ltb b a = false.
Proof.
  unfold float_ltb. intro H. apply Z.ltb_lt in H. apply Z.ltb_ge. lia.
Qed.

Lemma float_ltb_total_zero (a : Q) :
  float_ltb 0 a = false -> float_ltb a 0 = false -> (a == 0)%Q.
Proof.
  unfold Qeq, float_ltb. simpl. intros H1 H2.
  apply Z.ltb_ge in H1, H2. lia.
Qed.

Lemma categorize_transaction_eq {U : UnicodeData} (S : Type) (db : Database S)
    (t : txn) (s : S) :
  categorize_transaction db t s =
  (try_or_None
     (fst (get_or_create_category db (fst (chosen_category t))
             (snd (chosen_category t)) s)),
   sign_flags t,
   snd (get_or_create_category db (fst (chosen_category t))
          (snd (chosen_category t)) s)).
Proof.
  unfold categorize_transaction.
  destruct (chosen_category t) as [name kind]. simpl.
  destruct (get_or_create_category db name kind s) as [r s']. reflexivity.
Qed.

Section CategorizerClaims.
Context {U : UnicodeData}.

(** C5 (as amended). The flags of [categorize_transaction] are the strict
    comparisons [amount > 0] and [amount < 0].  A transaction whose amount
    is exactly 0 gets [is_income = false] and [is_expense = false]; this is
    the only case in which both flags are false, and the two flags are
    never both true. *)
Theorem zero_amount_is_neither_income_nor_expense
    (S : Type) (db : Database S) (t : txn) (s : S) (a : Q) :
  amount t = Some a ->
  let fl := snd (fst (categorize_transaction db t s)) in
  ((a == 0)%Q <-> is_income fl = false /\ is_expense fl = false) /\
  ~ (is_income fl = true /\ is_expense fl = true).
Proof.
  intros Ha fl. subst fl. rewrite categorize_transaction_eq. simpl.
  assert (Eamt : (txn_amount t == a)%Q).
  { unfold txn_amount. rewrite Ha.
    destruct (Qeq_bool a 0) eqn:E; [|reflexivity].
    apply Qeq_bool_eq in E. symmetry. exact E. }
  assert (Ez : (a == 0)%Q <-> (txn_amount t == 0)%Q).
  { rewrite Eamt. reflexivity. }
  split; [split|].
  - intro H. apply float_ltb_irrefl_zero. apply Ez, H.
  - intros [H1 H2]. apply Ez. apply float_ltb_total_zero; assumption.
  - intros [H1 H2]. apply float_ltb_asym in H1. congruence.
Qed.

(** C10. When the get-or-create collaborator raises, whatever the
    exception, [categorize_transaction] returns normally: the category
    identifier is [None] and the flags are the ones the sign of the amount
    gives.  The import loop then inserts the transaction with no category. *)
Theorem category_failure_is_not_fatal
    (S : Type) (db : Database S) (t : txn) (s s' : S) (e : exn) :
  get_or_create_category db (fst (chosen_category t))
    (snd (chosen_category t)) s = (Raise e, s') ->
  categorize_transaction db t s = ((None, sign_flags t), s') /\
  forall account_id statement_id posted desc amt,
    posted_at t = Some posted -> description t = Some desc ->
    amount t = Some amt ->
    import_transaction db account_id statement_id t s =
    insert_transaction db
      (transaction_row account_id statement_id posted desc amt None
         (sign_flags t)) s'.
Proof.
  intro H.
  assert (E : categorize_transaction db t s = ((None, sign_flags t), s')).
  { rewrite categorize_transaction_eq, H. reflexivity. }
  split; [exact E|].
  intros account_id statement_id posted desc amt Hp Hd Ha.
  unfold import_transaction. rewrite E, Hp, Hd, Ha. reflexivity.
Qed.

End CategorizerClaims.

(** C5, as the specification states it, fails: the transaction extracted
    from a line with amount 0.00 gets [is_expense = false], and both flags
    are false. *)
Lemma zero_amount_is_expense_fails :
  let t := {| posted_at := Some {| year := 2024; month := 1; day := 2 |};
              description := Some (lit "ADJUSTMENT");
              amount := Some 0%Q |} in
  let fl := snd (fst (categorize_transaction (U := ascii_only) sqlite_db t seeded)) in
  is_expense fl = false /\ is_income fl = false.
Proof.
  vm_compute. split; reflexivity.
Qed.

Lemma zero_amount_is_neither_income_nor_expense_witness :
  let t := {| posted_at := Some {| year := 2024; month := 1; day := 2 |};
              description := Some (lit "ADJUSTMENT");
              amount := Some 0%Q |} in
  amount t = Some 0%Q /\
  let fl := snd (fst (categorize_transaction (U := ascii_only) sqlite_db t seeded)) in
  ((0 == 0)%Q <-> is_income fl = false /\ is_expense fl = false) /\
  ~ (is_income fl = true /\ is_expense fl = true).
Proof.
  intro t. split; [reflexivity|].
  exact (zero_amount_is_neither_income_nor_expense (U := ascii_only)
           store sqlite_db t seeded 0%Q eq_refl).
Defined.

Lemma category_failure_is_not_fatal_witness :
  let t := {| posted_at := Some {| year := 2024; month := 3; day := 14 |};
              description := Some (lit "STARBUCKS COFFEE");
              amount := Some (Qred 5.75) |} in
  get_or_create_category locked_db (fst (chosen_category (U := ascii_only) t))
    (snd (chosen_category (U := ascii_only) t)) seeded =
    (Raise (OtherError "sqlite3.OperationalError"), seeded) /\
  categorize_transaction (U := ascii_only) locked_db t seeded =
    ((None, sign_flags t), seeded).
Proof.
  intro t. split; [reflexivity|].
  exact (proj1 (category_failure_is_not_fatal (U := ascii_only)
                  store locked_db t seeded seeded
                  (OtherError "sqlite3.OperationalError") eq_refl)).
Defined.

(** * pf/parsers/generic.py: one line, end to end *)

Section StarbucksLine.
Context {U : UnicodeData}.
Variable dateutil_parse : str -> date -> result date.
Variable today_year : Z.

(** C6. When [dateutil] reads the token 03/14/2024 as 14 March 2024, the
    single line "03/14/2024  STARBUCKS COFFEE   $5.75" yields exactly one
    transaction, with [posted_at] 2024-03-14, description
    "STARBUCKS COFFEE" and amount 5.75.  Categorising it asks the
    collaborator for the category "Dining" of kind "expense", while the
    flags are [is_income = true] and [is_expense = false]: the keyword
    decides the category, the sign of the amount decides the flags. *)
Theorem starbucks_line_extracted_and_categorized :
  dateutil_parse (lit "03/14/2024") {| year := 2024; month := 1; day := 1 |} =
    Ok {| year := 2024; month := 3; day := 14 |} ->
  exists t,
    extract_transactions_from_text dateutil_parse today_year
      [lit "03/14/2024  STARBUCKS COFFEE   $5.75"] = Ok [t] /\
    posted_at t = Some {| year := 2024; month := 3; day := 14 |} /\
    description t = Some (lit "STARBUCKS COFFEE") /\
    amount t = Some (Qred 5.75) /\
    chosen_category t = (lit "Dining", lit "expense") /\
    forall (S : Type) (db : Database S) (s : S),
      categorize_transaction db t s =
      (try_or_None (fst (get_or_create_category db (lit "Dining") (lit "expense") s)),
       {| is_income := true; is_expense := false |},
       snd (get_or_create_category db (lit "Dining") (lit "expense") s)).
Proof.
  intro Hdate. vm_compute in Hdate.
  eexists. split.
  - vm_compute. rewrite Hdate. vm_compute. reflexivity.
  - split; [reflexivity|]. split; [reflexivity|]. split; [reflexivity|].
    split; [vm_compute; reflexivity|].
    intros S db s. rewrite categorize_transaction_eq.
    match goal with
    | |- context [chosen_category ?t] =>
        replace (chosen_category t) with (lit "Dining", lit "expense")
          by (vm_compute; reflexivity);
        replace (sign_flags t) with {| is_income := true; is_expense := false |}
          by (vm_compute; reflexivity)
    end.
    reflexivity.
Qed.

End StarbucksLine.

Lemma starbucks_line_extracted_and_categorized_witness :
  month_day_year (lit "03/14/2024") {| year := 2024; month := 1; day := 1 |} =
    Ok {| year := 2024; month := 3; day := 14 |} /\
  exists t,
    extract_transactions_from_text (U := ascii_only) month_day_year 2026
      [lit "03/14/2024  STARBUCKS COFFEE   $5.75"] = Ok [t] /\
    amount t = Some (Qred 5.75).
Proof.
  split; [reflexivity|].
  destruct (starbucks_line_extracted_and_categorized (U := ascii_only)
              month_day_year 2026 eq_refl)
    as (t & E & _ & _ & A & _).
  exists t. split; [exact E|exact A].
Defined.

(** * Further properties of pf/classify.py *)

Section ClassifierMore.
Context {U : UnicodeData}.

Lemma no_cue_all_zero (t ty : str) :
  no_cue t -> In ty statement_types -> cue_hits ty t = 0%Z.
Proof.
  intros Hno Hty. apply no_cue_hits in Hno.
  pose proof (hits_nonneg mortgage_cues t). pose proof (hits_nonneg cc_cues t).
  pose proof (hits_nonneg brkg_cues t). pose proof (hits_nonneg bank_cues t).
  destruct Hty as [<-|[<-|[<-|[<-|[]]]]];
    [change (hits mortgage_cues t = 0%Z)|change (hits cc_cues t = 0%Z)|
     change (hits brkg_cues t = 0%Z)|change (hits bank_cues t = 0%Z)]; lia.
Qed.

(** X1. A text in which no cue phrase occurs is classified as "mortgage",
    the first type of the enumeration, with confidence 0.0. *)
Theorem classify_no_cue_is_mortgage (text : str) :
  no_cue (lower text) ->
  classify_statement text = Ok (lit "mortgage", 0%Q).
Proof.
  intro Hno.
  destruct (classify_core text)
    as (best & c & pre & post & E & S & P1 & _ & Hz & _).
  rewrite E, (Hz Hno).
  assert (Hbest : In best statement_types).
  { rewrite S. apply in_or_app. right. left. reflexivity. }
  destruct pre as [|ty pre].
  - simpl in S. inversion S. reflexivity.
  - exfalso.
    assert (Hty : In ty statement_types) by (rewrite S; left; reflexivity).
    specialize (P1 ty (or_introl eq_refl)).
    rewrite (no_cue_all_zero _ _ Hno Hty), (no_cue_all_zero _ _ Hno Hbest) in P1.
    lia.
Qed.

(** X2. A type whose cue-hit count is strictly greater than the count of
    every other type is the one returned, with confidence 1.0. *)
Theorem classify_strict_winner (text ty : str) :
  In ty statement_types ->
  (forall ty', In ty' statement_types -> ty' <> ty ->
     (cue_hits ty' (lower text) < cue_hits ty (lower text))%Z) ->
  classify_statement text = Ok (ty, 1%Q).
Proof.
  intros Hty Hwin.
  destruct (classify_core text)
    as (best & c & pre & post & E & S & P1 & P2 & _ & Hnz).
  assert (Hbest : In best statement_types).
  { rewrite S. apply in_or_app. right. left. reflexivity. }
  assert (Hle : (cue_hits ty (lower text) <= cue_hits best (lower text))%Z).
  { pose proof Hty as H. rewrite S in H. apply in_app_or in H.
    destruct H as [H|[<-|H]]; [apply P1 in H; lia|lia|apply P2, H]. }
  assert (Heq : best = ty).
  { destruct (list_eq_dec N.eq_dec best ty) as [H|H]; [exact H|].
    specialize (Hwin best Hbest H). lia. }
  subst best. rewrite E. f_equal. f_equal. apply Hnz.
  intro Hno.
  assert (Hother : exists ty', In ty' statement_types /\ ty' <> ty).
  { destruct (list_eq_dec N.eq_dec ty (lit "mortgage")) as [->|H].
    - exists (lit "bank"). split; [simpl; auto|discriminate].
    - exists (lit "mortgage"). split; [simpl; auto|congruence]. }
  destruct Hother as (ty' & Hty' & Hne).
  specialize (Hwin ty' Hty' Hne).
  rewrite (no_cue_all_zero _ _ Hno Hty), (no_cue_all_zero _ _ Hno Hty') in Hwin.
  lia.
Qed.

End ClassifierMore.

Lemma classify_no_cue_is_mortgage_witness :
  no_cue (lower (U := ascii_only) (lit "Grocery list: eggs, milk")) /\
  classify_statement (U := ascii_only) (lit "Grocery list: eggs, milk") =
    Ok (lit "mortgage", 0%Q).
Proof.
  assert (Hno : no_cue (lower (U := ascii_only) (lit "Grocery list: eggs, milk"))).
  { intros cue Hin. vm_compute in Hin.
    repeat (destruct Hin as [<-|Hin]; [vm_compute; reflexivity|]).
    destruct Hin. }
  split; [exact Hno|].
  exact (classify_no_cue_is_mortgage (U := ascii_only) _ Hno).
Defined.

Lemma classify_strict_winner_witness :
  In (lit "bank") statement_types /\
  classify_statement (U := ascii_only)
    (lit "Checking and Savings: interest paid, ACCOUNT SUMMARY") =
    Ok (lit "bank", 1%Q).
Proof.
  assert (Hin : In (lit "bank") statement_types) by (simpl; auto).
  split; [exact Hin|].
  apply (classify_strict_winner (U := ascii_only) _ _ Hin).
  intros ty' Hty' Hne.
  destruct Hty' as [<-|[<-|[<-|[<-|[]]]]];
    try (vm_compute; reflexivity).
  exfalso. apply Hne. reflexivity.
Defined.

Section ParseDateMore.
Context {U : UnicodeData}.

Lemma digits_value_digits (w : str) :
  forall acc v, digits_value acc w = Some v -> forallb isdigit w = true.
Proof.
  induction w as [|c w IH]; intros acc v H; simpl in *; [reflexivity|].
  unfold isdigit. destruct (decimal c) as [d|]; [|discriminate].
  simpl. eapply IH; eauto.
Qed.

Lemma py_int_digits (w : str) (v : Z) :
  py_int w = Ok v -> w <> [] /\ forallb isdigit w = true.
Proof.
  unfold py_int. destruct w as [|c w]; [discriminate|].
  destruct (digits_value 0 (c :: w)) as [n|] eqn:E; [|discriminate].
  intros _. split; [discriminate|]. eapply digits_value_digits; eauto.
Qed.

Lemma split_from_digits (w : str) :
  forallb isdigit w = true ->
  forall cur rest, split_from cur (w ++ rest) = split_from (rev w ++ cur) rest.
Proof.
  induction w as [|c w IH]; intros H cur rest; simpl; [reflexivity|].
  simpl in H. apply andb_prop in H. destruct H as [Hc Hw].
  rewrite (digit_is_not c 45%N eq_refl eq_refl Hc).
  rewrite (digit_is_not c 47%N eq_refl eq_refl Hc). simpl.
  rewrite (IH Hw). rewrite <- app_assoc. reflexivity.
Qed.

Lemma split_from_three (m d y : str) (s1 s2 : char) :
  forallb isdigit m = true -> forallb isdigit d = true ->
  forallb isdigit y = true ->
  is_date_sep s1 = true -> is_date_sep s2 = true ->
  split_from [] (m ++ s1 :: d ++ s2 :: y) = [m; d; y].
Proof.
  intros Hm Hd Hy H1 H2. unfold is_date_sep in *.
  rewrite (split_from_digits m Hm). simpl split_from. rewrite H1.
  rewrite (split_from_digits d Hd). simpl split_from. rewrite H2.
  rewrite <- (app_nil_r y) at 1. rewrite (split_from_digits y Hy). simpl.
  rewrite !app_nil_r, !rev_involutive. reflexivity.
Qed.

(** X3. [_parse_date] reads its token as month, day, year: on three runs
    of digits joined by "-" or "/", it returns the date with that month and
    day, in the year read (plus 2000 when it is below 100), when this is a
    date of the calendar, and [None] when it is not. *)
Theorem parse_date_reads_month_day_year
    (m d y : str) (s1 s2 : char) (mv dv yv : Z) :
  is_date_sep s1 = true -> is_date_sep s2 = true ->
  py_int m = Ok mv -> py_int d = Ok dv -> py_int y = Ok yv ->
  _parse_date (m ++ s1 :: d ++ s2 :: y) =
    (let yr := if (yv <? 100)%Z then (yv + 2000)%Z else yv in
     if valid_ymd yr mv dv
     then Some {| year := yr; month := mv; day := dv |}
     else None).
Proof.
  intros H1 H2 Hm Hd Hy.
  destruct (py_int_digits _ _ Hm) as [_ Fm].
  destruct (py_int_digits _ _ Hd) as [_ Fd].
  destruct (py_int_digits _ _ Hy) as [_ Fy].
  unfold _parse_date. rewrite (split_from_three m d y s1 s2 Fm Fd Fy H1 H2).
  rewrite Hy, Hm, Hd. cbn [bind]. unfold new_date.
  destruct (valid_ymd (if (yv <? 100)%Z then (yv + 2000)%Z else yv) mv dv);
    reflexivity.
Qed.

End ParseDateMore.

Lemma parse_date_reads_month_day_year_witness :
  is_date_sep 47%N = true /\ is_date_sep 45%N = true /\
  py_int (U := ascii_only) (lit "2") = Ok 2%Z /\
  py_int (U := ascii_only) (lit "29") = Ok 29%Z /\
  py_int (U := ascii_only) (lit "24") = Ok 24%Z /\
  _parse_date (U := ascii_only) (lit "2/29-24") =
    Some {| year := 2024; month := 2; day := 29 |}.
Proof.
  repeat (split; [reflexivity|]).
  exact (parse_date_reads_month_day_year (U := ascii_only)
           (lit "2") (lit "29") (lit "24") 47%N 45%N 2 29 24
           eq_refl eq_refl eq_refl eq_refl eq_refl).
Defined.

Section PeriodMore.
Context {U : UnicodeData}.

Lemma parse_group_valid (n : nat) (m : match_obj) (d : date) :
  parse_group n m = Some d -> valid_date d.
Proof.
  unfold parse_group. destruct (group n m); [|discriminate].
  apply _parse_date_valid.
Qed.

Lemma month_first_valid (ref : date) : valid_date ref -> valid_date (month_first ref).
Proof.
  intro H. apply valid_date_bounds in H.
  pose proof (days_in_month_min (year ref) (month ref)).
  unfold valid_date, valid_ymd, month_first. simpl.
  rewrite !andb_true_iff, !Z.leb_le. lia.
Qed.

Lemma month_last_valid (ref : date) : valid_date ref -> valid_date (month_last ref).
Proof.
  intro H. apply valid_date_bounds in H.
  pose proof (days_in_month_min (year ref) (month ref)).
  unfold valid_date, valid_ymd, month_last. simpl.
  rewrite !andb_true_iff, !Z.leb_le. lia.
Qed.

(** The two ways in which [infer_statement_period] returns. *)
Lemma infer_statement_period_cases (today : date) (text : str) :
  valid_date today ->
  (exists d1 d2,
     explicit_range text d1 d2 /\
     infer_statement_period today text = Ok (d1, d2)) \/
  (exists ref,
     valid_date ref /\
     infer_statement_period today text = Ok (month_first ref, month_last ref)).
Proof.
  intro Htoday. unfold infer_statement_period.
  assert (Hfallback :
    exists ref,
      valid_date ref /\
      (ref <- match parsed_dates (re_finditer _DATE_RE text) with
              | [] => Ok today
              | _ :: _ =>
                  py_max (fun d best => date_ltb best d)
                    (parsed_dates (re_finditer _DATE_RE text))
              end ;;
       start <- new_date (year ref) (month ref) 1 ;;
       end_ <- (if (month ref =? 12)%Z
                then new_date (year ref) 12 31
                else
                  first_next <- new_date (year ref) (month ref + 1) 1 ;;
                  sub_one_day first_next) ;;
       Ok (start, end_)) = Ok (month_first ref, month_last ref)).
  { assert (Href : exists ref,
      match parsed_dates (re_finditer _DATE_RE text) with
      | [] => Ok today
      | _ :: _ =>
          py_max (fun d best => date_ltb best d)
            (parsed_dates (re_finditer _DATE_RE text))
      end = Ok ref /\ valid_date ref).
    { destruct (parsed_dates (re_finditer _DATE_RE text)) as [|d l] eqn:E.
      - exists today. auto.
      - destruct (py_max_dates d l) as (ref & Emax & Hin & _).
        exists ref. split; [exact Emax|].
        rewrite <- E in Hin. apply parsed_dates_In in Hin.
        destruct Hin as (m & _ & Hp). eapply _parse_date_valid; eauto. }
    destruct Href as (ref & Eref & Vref).
    destruct (month_bounds_ok ref Vref) as (Es & Ee & _).
    exists ref. split; [exact Vref|].
    rewrite Eref. cbn [bind]. rewrite Es. cbn [bind]. rewrite Ee. reflexivity. }
  destruct (re_search _RANGE_RE text) as [m|] eqn:Em; [|right; exact Hfallback].
  destruct (parse_group 1 m) as [d1|] eqn:E1; [|right; exact Hfallback].
  destruct (parse_group 2 m) as [d2|] eqn:E2; [|right; exact Hfallback].
  destruct (date_leb d1 d2) eqn:Ele; [|right; exact Hfallback].
  left. exists d1, d2. split; [|reflexivity]. exists m. auto.
Qed.

(** X4. Both dates of the period that [infer_statement_period] returns are
    dates of the calendar (whatever the tokens of the text look like), so
    the year and month of the period end under which the file is archived
    always exist. *)
Theorem statement_period_is_calendar_dates (today : date) (text : str) :
  valid_date today ->
  exists start end_,
    infer_statement_period today text = Ok (start, end_) /\
    valid_date start /\ valid_date end_.
Proof.
  intro Htoday.
  destruct (infer_statement_period_cases today text Htoday)
    as [(d1 & d2 & (m & _ & H1 & H2 & _) & E)|(ref & V & E)].
  - exists d1, d2. split; [exact E|].
    split; eapply parse_group_valid; eauto.
  - exists (month_first ref), (month_last ref). split; [exact E|].
    split; [apply month_first_valid|apply month_last_valid]; exact V.
Qed.

End PeriodMore.

Lemma statement_period_is_calendar_dates_witness :
  valid_date {| year := 2026; month := 11; day := 4 |} /\
  exists start end_,
    infer_statement_period (U := ascii_only)
      {| year := 2026; month := 11; day := 4 |}
      (lit "Closing date 02/30/2024, opened 2/3/24") = Ok (start, end_) /\
    valid_date start /\ valid_date end_.
Proof.
  split; [reflexivity|].
  exact (statement_period_is_calendar_dates (U := ascii_only)
           {| year := 2026; month := 11; day := 4 |}
           (lit "Closing date 02/30/2024, opened 2/3/24") eq_refl).
Defined.

Section AccountMore.
Context {U : UnicodeData}.

Lemma first_account_none (low : str) (patterns : list regex) :
  Forall ends_with_last_digits patterns ->
  (first_account low patterns = None <->
   forall p, In p patterns -> re_search p low = None).
Proof.
  induction 1 as [|p ps Hp Hps IH]; simpl.
  - split; [intros _ p []|reflexivity].
  - destruct (re_search p low) as [m|] eqn:E.
    + destruct (search_last_digits _ _ _ Hp E) as (w & a & b & Gw & _ & _).
      rewrite Gw. split; [discriminate|].
      intro H. specialize (H p (or_introl eq_refl)). congruence.
    + rewrite IH. split.
      * intros H q [<-|Hq]; auto.
      * intros H q Hq. apply H. right. exact Hq.
Qed.

(** X5. No masked account is returned exactly when none of the four
    account patterns is found in the lowercased text: a pattern that is
    found always yields its digits. *)
Theorem masked_account_absent_iff (text : str) :
  snd (extract_institution_and_account text) = None <->
  forall p, In p account_patterns -> re_search p (lower text) = None.
Proof.
  unfold extract_institution_and_account. cbn [snd].
  rewrite <- (first_account_none _ _ account_patterns_shape).
  destruct (first_account (lower text) account_patterns) as [last4|] eqn:E.
  - destruct (first_account_spec _ _ _ account_patterns_shape E)
      as (_ & _ & _ & _ & _ & _ & _ & _ & _ & _ & _ & [Dl _]).
    destruct last4 as [|c w]; [simpl in Dl; lia|].
    split; discriminate.
  - split; reflexivity.
Qed.

Lemma first_institution_spec (low : str) (names : list str) :
  match first_institution low names with
  | Some inst =>
      exists before name after,
        names = before ++ name :: after /\ inst = title name /\
        contains low name = true /\
        (forall n, In n before -> contains low n = false)
  | None => forall n, In n names -> contains low n = false
  end.
Proof.
  induction names as [|name names IH]; simpl.
  - intros n [].
  - destruct (contains low name) eqn:E.
    + exists [], name, names. repeat split; auto. intros n [].
    + destruct (first_institution low names) as [inst|].
      * destruct IH as (before & nm & after & S & Ei & Hc & Hb).
        exists (name :: before), nm, after. simpl.
        split; [congruence|]. split; [exact Ei|]. split; [exact Hc|].
        intros n [<-|Hn]; auto.
      * intros n [<-|Hn]; auto.
Qed.

(** X6. The institution returned is the display form of the first name of
    the list that occurs in the lowercased text, so it is one of nine fixed
    names; none is returned exactly when no name of the list occurs.  When
    "american express" and "amex" both occur, the former wins. *)
Theorem institution_is_first_listed (text : str) :
  match fst (extract_institution_and_account text) with
  | Some inst =>
      (exists before name after,
         institutions = before ++ name :: after /\ inst = title name /\
         contains (lower text) name = true /\
         (forall n, In n before -> contains (lower text) n = false)) /\
      In inst [lit "Chase"; lit "Wells Fargo"; lit "Bank Of America";
               lit "American Express"; lit "Amex"; lit "Citi"; lit "Fidelity";
               lit "Vanguard"; lit "Charles Schwab"]
  | None => forall n, In n institutions -> contains (lower text) n = false
  end.
Proof.
  unfold extract_institution_and_account. cbn [fst].
  pose proof (first_institution_spec (lower text) institutions) as H.
  destruct (first_institution (lower text) institutions) as [inst|]; [|exact H].
  split; [exact H|].
  destruct H as (before & name & after & S & -> & _ & _).
  assert (Hin : In name institutions).
  { rewrite S. apply in_or_app. right. left. reflexivity. }
  change [lit "Chase"; lit "Wells Fargo"; lit "Bank Of America";
          lit "American Express"; lit "Amex"; lit "Citi"; lit "Fidelity";
          lit "Vanguard"; lit "Charles Schwab"] with (map title institutions).
  apply in_map. exact Hin.
Qed.

End AccountMore.

(** * Further properties of pf/parsers/generic.py *)

Section AmountMore.
Context {U : UnicodeData}.

(** What [_parse_amount] returns, in one equation. *)
Lemma parse_amount_found (s : str) (m : match_obj) :
  re_search _AMOUNT_RE s = Some m ->
  exists v val,
    group 2 m = Some v /\ py_float (remove_char 44%N v) = Ok val /\
    (group 1 m = None \/ group 1 m = Some (lit "-")) /\
    _parse_amount s =
      Ok (Some (if endswith (strip s) (lit "-") then Qopp (Qabs val)
                else match group 1 m with
                     | Some _ => Qopp val
                     | None => val
                     end)).
Proof.
  intro Hs.
  destruct (amount_groups s m Hs) as (v & G2 & Lv & G1).
  destruct (py_float_numeral _ (amount_val_numeral v Lv)) as (val & Hval).
  exists v, val. split; [exact G2|]. split; [exact Hval|]. split; [exact G1|].
  unfold _parse_amount. rewrite Hs, G2, Hval. cbn [bind].
  destruct G1 as [-> | ->].
  - reflexivity.
  - change (lit "-") with [45%N]. cbn iota.
    rewrite Qabs_Qopp. reflexivity.
Qed.

(** X7. [_parse_amount] never raises: whatever the text, the numeral that
    the amount pattern captures is one that [float] accepts.  It returns
    [None] exactly when the pattern is not found. *)
Theorem parse_amount_never_raises (s : str) :
  exists r,
    _parse_amount s = Ok r /\
    (r = None <-> re_search _AMOUNT_RE s = None).
Proof.
  destruct (re_search _AMOUNT_RE s) as [m|] eqn:Hs.
  - destruct (parse_amount_found s m Hs) as (v & val & _ & _ & _ & E).
    eexists. split; [exact E|]. split; discriminate.
  - exists None. unfold _parse_amount. rewrite Hs.
    split; [reflexivity|]. split; reflexivity.
Qed.

Lemma digits_value_nonneg (s : str) :
  decimal_digits_ok U ->
  forall acc v, (0 <= acc)%Z -> digits_value acc s = Some v -> (0 <= v)%Z.
Proof.
  intro Hok. induction s as [|c s IH]; intros acc v Hacc H; simpl in H.
  - inversion H; subst. exact Hacc.
  - destruct (decimal c) as [d|] eqn:Ed; [|discriminate].
    assert (Hd : (0 <= d <= 9)%Z).
    { unfold decimal in Ed. destruct (is_ascii c).
      - destruct (ascii_isdigit c) eqn:Ea; [|discriminate].
        inversion Ed; subst d. unfold ascii_isdigit, in_range in Ea.
        apply andb_prop in Ea. destruct Ea as [E1 E2].
        apply N.leb_le in E1, E2. lia.
      - apply (Hok c d Ed). }
    apply (IH (10 * acc + d)%Z v); [lia|exact H].
Qed.

Lemma py_float_nonneg (s : str) (val : Q) :
  decimal_digits_ok U -> py_float s = Ok val -> (0 <= val)%Q.
Proof.
  intros Hok. unfold py_float.
  destruct (split_point [] s) as [ip fp].
  destruct (ip ++ match fp with Some f => f | None => [] end) as [|c ds] eqn:E;
    [discriminate|].
  destruct (digits_value 0 (c :: ds)) as [n|] eqn:En; [|discriminate].
  intro H.
  match type of H with
  | Ok ?q = _ => assert (Ev : q = val) by congruence
  end.
  clear H. subst val.
  pose proof (digits_value_nonneg _ Hok 0%Z n (Z.le_refl 0) En) as Hn.
  apply (proj2 (Qle_comp 0%Q 0%Q (Qeq_refl 0%Q) _ _ (Qred_correct _))).
  unfold Qle. simpl. lia.
Qed.

(** X8. The sign of a parsed amount follows its marks: with a "-" at the
    end of the trimmed text, or in front of the amount, the value is never
    positive; with neither, it is never negative. *)
Theorem parse_amount_sign (s : str) (a : Q) :
  decimal_digits_ok U ->
  _parse_amount s = Ok (Some a) ->
  exists m,
    re_search _AMOUNT_RE s = Some m /\
    (if endswith (strip s) (lit "-") then (a <= 0)%Q
     else match group 1 m with
          | Some _ => (a <= 0)%Q
          | None => (0 <= a)%Q
          end).
Proof.
  intros Hok Ha.
  destruct (re_search _AMOUNT_RE s) as [m|] eqn:Hs.
  - exists m. split; [reflexivity|].
    destruct (parse_amount_found s m Hs) as (v & val & _ & Hf & _ & E).
    rewrite E in Ha. inversion Ha as [Ea]. clear Ha.
    pose proof (py_float_nonneg _ _ Hok Hf) as Hv.
    destruct (endswith (strip s) (lit "-")).
    + pose proof (Qabs_nonneg val) as Habs.
      apply Qopp_le_compat in Habs. exact Habs.
    + destruct (group 1 m).
      * apply Qopp_le_compat in Hv. exact Hv.
      * exact Hv.
  - unfold _parse_amount in Ha. rewrite Hs in Ha. discriminate.
Qed.

End AmountMore.

Lemma ascii_only_digits_ok : decimal_digits_ok ascii_only.
Proof. intros c d H. discriminate. Qed.

Lemma parse_amount_sign_witness :
  decimal_digits_ok ascii_only /\
  _parse_amount (U := ascii_only) (lit "PAYMENT $1,250.00-") =
    Ok (Some (Qred (-1250))) /\
  (Qred (-1250) <= 0)%Q.
Proof.
  split; [exact ascii_only_digits_ok|].
  assert (E : _parse_amount (U := ascii_only) (lit "PAYMENT $1,250.00-") =
              Ok (Some (Qred (-1250)))) by (vm_compute; reflexivity).
  split; [exact E|].
  destruct (parse_amount_sign (U := ascii_only) _ _ ascii_only_digits_ok E)
    as (m & _ & H).
  exact H.
Defined.

Section ExtractMore.
Context {U : UnicodeData}.
Variable dateutil_parse : str -> date -> result date.

Lemma Matches_Grp_inv (n : nat) (a : regex) (st st' : mstate) :
  Matches (Grp n a) st st' ->
  exists st1 w,
    Matches a st st1 /\
    ms_groups st' = (n, w) :: ms_groups st1 /\
    ms_rest st' = ms_rest st1 /\
    ms_rest st = w ++ ms_rest st1 /\ Lang a w.
Proof.
  intro H. inversion H; subst.
  match goal with
  | M : Matches a st ?s1 |- _ =>
      destruct (Matches_Lang _ _ _ M) as (w & E & L); exists s1, w
  end.
  simpl. rewrite E, consumed_app. auto.
Qed.

Lemma py_int_total (w : str) :
  w <> [] -> forallb isdigit w = true -> exists v, py_int w = Ok v.
Proof.
  intros Hne Hd. unfold py_int. destruct w as [|c w]; [congruence|].
  destruct (digits_value_total (c :: w) Hd 0%Z) as (n & Hn).
  rewrite Hn. exists n. reflexivity.
Qed.

(** Group 1 of the year pattern is "20" and two digits. *)
Lemma year_group (s : str) (m : match_obj) :
  re_search year_re s = Some m ->
  exists a b,
    group 1 m = Some [50%N; 48%N; a; b] /\
    isdigit a = true /\ isdigit b = true.
Proof.
  intro H. unfold re_search in H.
  apply search_from_sound in H. destruct H as (skipped & s' & prev' & _ & Hm).
  apply match_here_sound in Hm. destruct Hm as (st & M & _ & G & _ & _).
  unfold group. rewrite G. clear G m.
  cbv [year_re cat fold_right] in M.
  inversion M as [| |? ? ? st0 ? M0 R0| | | | | | | | |]; subst.
  inversion R0 as [| |? ? ? st1 ? M1 R1| | | | | | | | |]; subst.
  inversion R1 as [| |? ? ? st2 ? M2 R2| | | | | | | | |]; subst.
  inversion R2; subst. inversion M2; subst. clear R0 R1 R2 M2 M0.
  apply Matches_Grp_inv in M1.
  destruct M1 as (sta & w & _ & Gw & _ & _ & Lw).
  rewrite Gw. simpl.
  cbv [text lit list_ascii_of_string map N_of_ascii N_of_digits chr cat
       fold_right times digit] in Lw.
  simpl in Lw.
  inversion Lw as [| |? ? w1 r1 L1 Lr1| | | | | | | |]; subst.
  inversion L1 as [| |? ? c2 r2 Lc2 Lr2| | | | | | | |]; subst.
  inversion Lc2 as [|? c Hc| | | | | | | | |]; subst.
  inversion Lr2 as [| |? ? c0 r3 Lc0 Lr3| | | | | | | |]; subst.
  inversion Lc0 as [|? c' Hc'| | | | | | | | |]; subst.
  inversion Lr3; subst.
  inversion Lr1 as [| |? ? ds e Lds Le| | | | | | | |]; subst.
  inversion Le; subst.
  apply N.eqb_eq in Hc, Hc'. subst c c'.
  destruct (Lang_rep_chr _ _ _ Lds _ _ eq_refl) as (Fd & Hlo & Hhi).
  specialize (Hhi _ eq_refl).
  destruct ds as [|a [|b [|x ds]]]; simpl in Hlo, Hhi; try lia.
  simpl in Fd. apply andb_prop in Fd. destruct Fd as [Fa Fb].
  apply andb_prop in Fb. destruct Fb as [Fb _].
  exists a, b. simpl. auto.
Qed.

Lemma infer_default_year_ok (today_year : Z) (lines : list str) :
  exists y, infer_default_year today_year lines = Ok y.
Proof.
  unfold infer_default_year.
  destruct (re_search year_re (join [10%N] lines)) as [m|] eqn:E.
  - destruct (year_group _ _ E) as (a & b & G & Fa & Fb). rewrite G.
    apply py_int_total; [discriminate|].
    simpl. rewrite Fa, Fb. reflexivity.
  - exists today_year. reflexivity.
Qed.

(** What the date-line pattern captures: the date token, then blanks, then
    a non-empty remainder that runs to the end of the line. *)
Lemma date_line_groups (ln : str) (m : match_obj) :
  re_match _DATE_LINE_RE ln = Some m ->
  exists date_part blank rest,
    group 1 m = Some date_part /\ group 2 m = Some rest /\
    ln = date_part ++ blank ++ rest ++ m_rest m /\
    forallb isspace blank = true /\ blank <> [] /\ rest <> [].
Proof.
  intro H. unfold re_match in H.
  apply match_here_sound in H. destruct H as (st & M & _ & G & R & _).
  unfold group. rewrite G, R. clear G R m.
  cbv [_DATE_LINE_RE cat fold_right] in M.
  inversion M as [| |? ? ? st0 ? M0 R0| | | | | | | | |]; subst.
  inversion R0 as [| |? ? ? st1 ? M1 R1| | | | | | | | |]; subst.
  inversion R1 as [| |? ? ? st2 ? M2 R2| | | | | | | | |]; subst.
  inversion R2 as [| |? ? ? st3 ? M3 R3| | | | | | | | |]; subst.
  inversion R3 as [| |? ? ? st4 ? M4 R4| | | | | | | | |]; subst.
  inversion R4; subst. clear R0 R1 R2 R3 R4.
  assert (E4 : st = st3) by (inversion M4; reflexivity). subst st.
  assert (E0 : st0 = {| ms_prev := None; ms_rest := ln; ms_groups := [] |})
    by (inversion M0; reflexivity).
  subst st0. clear M M0 M4.
  apply Matches_Grp_inv in M1.
  destruct M1 as (s1 & d & _ & G1 & R1 & E1 & _).
  apply Matches_Grp_inv in M3.
  destruct M3 as (s3 & r & M3 & G3 & R3 & E3 & L3).
  assert (N3 : ms_groups s3 = ms_groups st2)
    by (apply (Matches_no_groups _ _ _ M3); reflexivity).
  assert (N2 : ms_groups st2 = ms_groups st1)
    by (apply (Matches_no_groups _ _ _ M2); reflexivity).
  destruct (Matches_Lang _ _ _ M2) as (b & E2 & L2).
  destruct (Lang_rep_chr _ _ _ L2 _ _ eq_refl) as (Fb & Hb & _).
  destruct (Lang_rep_chr _ _ _ L3 _ _ eq_refl) as (_ & Hr & _).
  exists d, b, r. rewrite G3, N3, N2, G1. simpl.
  split; [reflexivity|]. split; [reflexivity|].
  simpl in E1. rewrite E1, <- R1, E2, E3, R3.
  split; [reflexivity|]. split; [exact Fb|].
  split; [destruct b; [simpl in Hb; lia|discriminate]|].
  destruct r; [simpl in Hr; lia|discriminate].
Qed.

Lemma parse_amount_ok (s : str) : exists r, _parse_amount s = Ok r.
Proof.
  destruct (re_search _AMOUNT_RE s) as [m|] eqn:Hs.
  - destruct (parse_amount_found s m Hs) as (v & val & _ & _ & _ & E).
    eexists. exact E.
  - exists None. unfold _parse_amount. rewrite Hs. reflexivity.
Qed.

Lemma extract_line_ok (default_year : Z) (ln : str) :
  exists r, extract_line dateutil_parse default_year ln = Ok r.
Proof.
  unfold extract_line.
  destruct (re_match _DATE_LINE_RE ln) as [m|] eqn:Em; [|exists None; reflexivity].
  destruct (date_line_groups ln m Em) as (d & b & r & G1 & G2 & _).
  rewrite G1, G2.
  destruct (parse_amount_ok r) as ([a|] & Er); rewrite Er; cbn [bind].
  - destruct (_parse_date_from_fragment dateutil_parse d default_year);
      eexists; reflexivity.
  - destruct (parse_amount_ok ln) as ([a|] & El); rewrite El; cbn [bind].
    + destruct (_parse_date_from_fragment dateutil_parse d default_year);
        eexists; reflexivity.
    + exists None. reflexivity.
Qed.

Lemma extract_lines_ok (default_year : Z) (lines : list str) :
  exists ts,
    extract_lines dateutil_parse default_year lines = Ok ts /\
    (length ts <= length lines)%nat.
Proof.
  induction lines as [|ln lines (ts & E & Hlen)]; simpl.
  - exists []. auto.
  - destruct (extract_line_ok default_year ln) as (r & Er).
    rewrite Er, E. cbn [bind].
    destruct r as [t|]; eexists; (split; [reflexivity|simpl; lia]).
Qed.

End ExtractMore.

Section ExtractClaimsMore.
Context {U : UnicodeData}.
Variable dateutil_parse : str -> date -> result date.

(** X9. [extract_transactions_from_text] never raises, whatever the pages
    hold and whatever [dateutil] does: the year token is always a number,
    the groups of a matched date line always exist, and a found amount
    always parses.  It returns at most one transaction per non-blank
    line. *)
Theorem extract_transactions_never_raises
    (today_year : Z) (pages_text : list str) :
  exists ts,
    extract_transactions_from_text dateutil_parse today_year pages_text = Ok ts /\
    (length ts <= length (all_lines pages_text))%nat.
Proof.
  unfold extract_transactions_from_text.
  destruct (infer_default_year_ok today_year (all_lines pages_text)) as (y & Ey).
  rewrite Ey. cbn [bind]. apply extract_lines_ok.
Qed.

Lemma parse_date_from_fragment_valid (s : str) (default_year : Z) (d : date) :
  _parse_date_from_fragment dateutil_parse s default_year = Some d ->
  valid_date d.
Proof.
  unfold _parse_date_from_fragment.
  destruct (new_date default_year 1 1) as [def|]; cbn [bind try_or_None];
    [|discriminate].
  destruct (dateutil_parse s def) as [dtm|]; cbn [bind try_or_None];
    [|discriminate].
  destruct (new_date (year dtm) (month dtm) (day dtm)) as [r|] eqn:E;
    cbn [try_or_None]; [|discriminate].
  intro H. inversion H; subst r. apply new_date_ok in E. apply E.
Qed.

Lemma extract_line_complete (default_year : Z) (ln : str) (t : txn) :
  extract_line dateutil_parse default_year ln = Ok (Some t) ->
  exists posted desc amt,
    posted_at t = Some posted /\ valid_date posted /\
    description t = Some desc /\ desc <> [] /\ amount t = Some amt.
Proof.
  unfold extract_line.
  destruct (re_match _DATE_LINE_RE ln) as [m|]; [|discriminate].
  destruct (group 1 m) as [date_part|]; [|discriminate].
  destruct (group 2 m) as [rest|]; [|discriminate].
  assert (Hfinal :
    forall a,
      match _parse_date_from_fragment dateutil_parse date_part default_year with
      | Some posted =>
          Ok (Some {| posted_at := Some posted;
                      description :=
                        Some match clean_description rest with
                             | [] => lit "Transaction"
                             | _ :: _ => clean_description rest
                             end;
                      amount := Some a |})
      | None => Ok None
      end = Ok (Some t) ->
      exists posted desc amt,
        posted_at t = Some posted /\ valid_date posted /\
        description t = Some desc /\ desc <> [] /\ amount t = Some amt).
  { intros a H.
    destruct (_parse_date_from_fragment dateutil_parse date_part default_year)
      as [p|] eqn:Ep; [|discriminate].
    inversion H; subst t. cbn [posted_at description amount].
    exists p. eexists. exists a.
    split; [reflexivity|].
    split; [eapply parse_date_from_fragment_valid; eauto|].
    split; [reflexivity|]. split; [|reflexivity].
    destruct (clean_description rest); discriminate. }
  destruct (_parse_amount rest) as [[a|]|]; cbn [bind]; [| |discriminate].
  - apply Hfinal.
  - destruct (_parse_amount ln) as [[a|]|]; cbn [bind]; try discriminate.
    apply Hfinal.
Qed.

(** X10. Every transaction that the extractor emits carries its three
    keys: a posting date of the calendar, a non-empty description and an
    amount.  So the import loop never fails on a missing key: its round
    for such a transaction is the categorisation followed by the insertion
    of the row. *)
Theorem emitted_transaction_is_insertable
    (today_year : Z) (pages_text : list str) (ts : list txn) (t : txn) :
  extract_transactions_from_text dateutil_parse today_year pages_text = Ok ts ->
  In t ts ->
  exists posted desc amt,
    posted_at t = Some posted /\ valid_date posted /\
    description t = Some desc /\ desc <> [] /\ amount t = Some amt /\
    forall (S : Type) (db : Database S) (account_id statement_id : Z) (s : S),
      import_transaction db account_id statement_id t s =
      insert_transaction db
        (transaction_row account_id statement_id posted desc amt
           (fst (fst (categorize_transaction db t s))) (sign_flags t))
        (snd (categorize_transaction db t s)).
Proof.
  unfold extract_transactions_from_text.
  destruct (infer_default_year today_year (all_lines pages_text)) as [y|];
    cbn [bind]; [|discriminate].
  intros H Ht.
  destruct (extract_lines_In dateutil_parse y _ _ H t Ht) as (ln & _ & He).
  destruct (extract_line_complete y ln t He)
    as (posted & desc & amt & Hp & Vp & Hd & Hne & Ha).
  exists posted, desc, amt. repeat (split; [assumption|]).
  intros S db account_id statement_id s.
  unfold import_transaction. rewrite categorize_transaction_eq.
  cbn [fst snd]. rewrite Hp, Hd, Ha. reflexivity.
Qed.

End ExtractClaimsMore.

Lemma emitted_transaction_is_insertable_witness :
  let t := {| posted_at := Some {| year := 2024; month := 3; day := 14 |};
              description := Some (lit "UBER TRIP 123");
              amount := Some (Qred 18.40) |} in
  extract_transactions_from_text (U := ascii_only) month_day_year 2026
    [lit "Ride history
03/14/2024   UBER TRIP 123   18.40"] = Ok [t] /\
  In t [t] /\
  exists posted, posted_at t = Some posted /\ valid_date posted.
Proof.
  intro t.
  assert (E : extract_transactions_from_text (U := ascii_only) month_day_year 2026
    [lit "Ride history
03/14/2024   UBER TRIP 123   18.40"] = Ok [t]) by (vm_compute; reflexivity).
  split; [exact E|]. split; [left; reflexivity|].
  destruct (emitted_transaction_is_insertable (U := ascii_only) month_day_year
              2026 _ [t] t E (or_introl eq_refl))
    as (posted & _ & _ & Hp & Vp & _).
  exists posted. split; [exact Hp|exact Vp].
Defined.

Section LinesMore.
Context {U : UnicodeData}.

Lemma splitlines_from_no_break (s : str) :
  forall after_cr cur,
    forallb (fun c : N => negb (is_linebreak c)) cur = true ->
    Forall (fun l => forallb (fun c : N => negb (is_linebreak c)) l = true) (splitlines_from after_cr cur s).
Proof.
  induction s as [|c s IH]; intros after_cr cur Hcur; simpl.
  - destruct cur; [constructor|].
    constructor; [|constructor].
    apply forallb_rev. exact Hcur.
  - destruct (after_cr && (c =? 10)%N); [apply IH; exact Hcur|].
    destruct (is_linebreak c) eqn:Ec.
    + constructor; [apply forallb_rev; exact Hcur|].
      apply IH. reflexivity.
    + apply IH. simpl. rewrite Ec. exact Hcur.
Qed.

Lemma lstrip_forallb (f : char -> bool) (s : str) :
  forallb f s = true -> forallb f (lstrip s) = true.
Proof.
  induction s as [|c s IH]; simpl; [reflexivity|].
  intro H. destruct (isspace c); [|exact H].
  apply andb_prop in H. apply IH, H.
Qed.

Lemma strip_forallb (f : char -> bool) (s : str) :
  forallb f s = true -> forallb f (strip s) = true.
Proof.
  intro H. unfold strip, rstrip.
  apply lstrip_forallb, forallb_rev, lstrip_forallb, forallb_rev, H.
Qed.

Lemma lstrip_snoc (z : str) (c : char) :
  isspace c = false -> exists z', lstrip (z ++ [c]) = z' ++ [c].
Proof.
  intro Hc. induction z as [|d z (z' & IH)]; simpl.
  - rewrite Hc. exists []. reflexivity.
  - destruct (isspace d); [exists z'; exact IH|].
    exists (d :: z). reflexivity.
Qed.

(** Trimming twice is trimming once. *)
Lemma strip_idempotent (s : str) : strip (strip s) = strip s.
Proof.
  unfold strip at 2 3.
  destruct (rstrip_split s) as (b & _ & _ & [E|(x & c & E & Hc)]); rewrite E.
  - reflexivity.
  - destruct (lstrip_snoc x c Hc) as (z' & Ez). rewrite Ez.
    unfold strip. rewrite (rstrip_fixed z' c Hc).
    apply lstrip_fixed. rewrite <- Ez.
    apply lstrip_head.
Qed.

Lemma page_lines_In (lns : list str) (l : str) :
  In l (page_lines lns) -> l <> [] /\ exists ln, In ln lns /\ l = strip ln.
Proof.
  induction lns as [|ln lns IH]; simpl; [intros []|].
  destruct (strip ln) as [|c w] eqn:E.
  - intro H. destruct (IH H) as (Hne & ln' & Hin & El).
    split; [exact Hne|]. exists ln'. auto.
  - intros [<-|H].
    + split; [discriminate|]. exists ln. auto.
    + destruct (IH H) as (Hne & ln' & Hin & El).
      split; [exact Hne|]. exists ln'. auto.
Qed.

(** X11. Every line that the extractor works on is non-empty, is its own
    trimmed form (no blank at either end), and holds no line boundary; in
    particular no newline, so that the date-line pattern, whose [.] stops
    at a newline, always sees one whole line. *)
Theorem all_lines_are_trimmed_single_lines (pages_text : list str) (l : str) :
  In l (all_lines pages_text) ->
  l <> [] /\ strip l = l /\
  forallb (fun c => negb (is_linebreak c)) l = true.
Proof.
  unfold all_lines. intro H. apply in_flat_map in H.
  destruct H as (page & _ & Hl).
  apply page_lines_In in Hl. destruct Hl as (Hne & ln & Hin & ->).
  split; [exact Hne|]. split; [apply strip_idempotent|].
  apply strip_forallb.
  pose proof (splitlines_from_no_break page false [] eq_refl) as F.
  rewrite Forall_forall in F. apply F. exact Hin.
Qed.



End LinesMore.


Lemma all_lines_are_trimmed_single_lines_witness :
  In (lit "b  c") (all_lines [lit "  a
   b  c   "]) /\
  strip (lit "b  c") = lit "b  c".
Proof.
  assert (Hin : In (lit "b  c") (all_lines [lit "  a
   b  c   "])) by (vm_compute; auto).
  split; [exact Hin|].
  exact (proj1 (proj2 (all_lines_are_trimmed_single_lines _ _ Hin))).
Defined.

(** * Properties of pf/db.py *)

Lemma fold_max_ge (ids : list Z) :
  forall acc, (acc <= fold_left Z.max ids acc)%Z /\
              (forall i, In i ids -> (i <= fold_left Z.max ids acc)%Z).
Proof.
  induction ids as [|x ids IH]; intro acc; simpl.
  - split; [lia|intros i []].
  - destruct (IH (Z.max acc x)) as [H1 H2]. split; [lia|].
    intros i [<-|Hi]; [lia|auto].
Qed.

(** The next row identifier is positive and not in use. *)
Lemma next_rowid_fresh (ids : list Z) :
  (0 < next_rowid ids)%Z /\ ~ In (next_rowid ids) ids.
Proof.
  unfold next_rowid. destruct (fold_max_ge ids 0%Z) as [H1 H2].
  split; [lia|]. intro Hin. apply H2 in Hin. lia.
Qed.

Lemma find_app_none (A : Type) (f : A -> bool) (l1 l2 : list A) :
  find f l1 = None -> find f (l1 ++ l2) = find f l2.
Proof.
  induction l1 as [|x l1 IH]; simpl; [reflexivity|].
  destruct (f x); [discriminate|exact IH].
Qed.

Lemma find_category_none (name : str) (rows : list category_row) :
  find (fun row => str_eqb (cat_name row) name) rows = None ->
  ~ In name (map cat_name rows).
Proof.
  intros H Hin. apply in_map_iff in Hin. destruct Hin as (row & E & Hrow).
  apply (find_none _ _ H) in Hrow. rewrite E, str_eqb_refl in Hrow. discriminate.
Qed.

Lemma find_category_some (name : str) (rows : list category_row)
    (row : category_row) :
  find (fun row => str_eqb (cat_name row) name) rows = Some row ->
  In row rows /\ cat_name row = name.
Proof.
  intro H. apply find_some in H. destruct H as [Hin Heq].
  apply str_eqb_eq in Heq. auto.
Qed.

Lemma NoDup_snoc (A : Type) (l : list A) (x : A) :
  NoDup l -> ~ In x l -> NoDup (l ++ [x]).
Proof.
  intros Hl Hx. induction Hl as [|y l Hy Hl IH]; simpl.
  - constructor; [intros []|constructor].
  - constructor.
    + intro Hin. apply in_app_or in Hin. destruct Hin as [Hin|[->|[]]].
      * exact (Hy Hin).
      * apply Hx. left. reflexivity.
    + apply IH. intro Hin. apply Hx. right. exact Hin.
Qed.

(** X13. [get_or_create_category] is a get-or-create keyed by the name
    alone: it returns an identifier under which the name is then stored;
    asking again for the same name, with any kind, returns the same
    identifier and changes nothing (the first kind stays); rows that were
    there are kept, at most one is added, and the transactions are not
    touched. *)
Theorem get_or_create_category_is_stable (name kind : str) (s : store) :
  exists id s1 added,
    db_get_or_create_category name kind s = (Ok id, s1) /\
    categories s1 = categories s ++ added /\
    (added = [] \/
     added = [{| cat_id := id; cat_name := name; cat_type := kind |}]) /\
    transactions s1 = transactions s /\
    (exists row, In row (categories s1) /\ cat_name row = name /\ cat_id row = id) /\
    (forall kind', db_get_or_create_category name kind' s1 = (Ok id, s1)).
Proof.
  unfold db_get_or_create_category.
  destruct (find (fun row => str_eqb (cat_name row) name) (categories s))
    as [row|] eqn:E.
  - exists (cat_id row), s, []. rewrite app_nil_r.
    split; [reflexivity|]. split; [reflexivity|]. split; [left; reflexivity|].
    split; [reflexivity|]. split.
    + exists row. apply find_some in E. destruct E as [Hin Heq].
      apply str_eqb_eq in Heq. auto.
    + intro kind'. rewrite E. reflexivity.
  - set (id := next_rowid (map cat_id (categories s))).
    set (new := {| cat_id := id; cat_name := name; cat_type := kind |}).
    eexists id, _, [new].
    split; [reflexivity|]. cbn [categories transactions].
    split; [reflexivity|]. split; [right; reflexivity|].
    split; [reflexivity|]. split.
    + exists new. split; [apply in_or_app; right; left; reflexivity|auto].
    + intro kind'. rewrite (find_app_none _ _ _ _ E). simpl.
      rewrite str_eqb_refl. reflexivity.
Qed.

(** X14. [get_or_create_category] keeps the names and the identifiers of
    the [categories] table without repetition: it never inserts a name that
    is there, and a new row gets an identifier that is not in use. *)
Theorem get_or_create_category_keeps_unique (name kind : str) (s : store) :
  categories_unique s ->
  categories_unique (snd (db_get_or_create_category name kind s)).
Proof.
  intros [Hn Hi]. unfold db_get_or_create_category.
  destruct (find (fun row => str_eqb (cat_name row) name) (categories s))
    as [row|] eqn:E; cbn [snd]; [split; assumption|].
  unfold categories_unique. cbn [categories]. rewrite !map_app. simpl.
  split.
  - apply NoDup_snoc; [exact Hn|]. apply find_category_none. exact E.
  - apply NoDup_snoc; [exact Hi|]. apply next_rowid_fresh.
Qed.

Lemma get_or_create_category_keeps_unique_witness :
  categories_unique seeded /\
  categories_unique
    (snd (db_get_or_create_category (lit "Travel") (lit "expense") seeded)).
Proof.
  assert (H : categories_unique seeded).
  { split; vm_compute;
      repeat (constructor; [simpl; intuition discriminate|]); constructor. }
  split; [exact H|].
  exact (get_or_create_category_keeps_unique (lit "Travel") (lit "expense") seeded H).
Defined.

Section CategorizeMore.
Context {U : UnicodeData}.

Lemma first_rule_In (desc : str) (rules : list (str * (str * str)))
    (cat : str * str) :
  first_rule desc rules = Some cat -> In cat (map snd rules).
Proof.
  induction rules as [|[key c] rules IH]; simpl; [discriminate|].
  destruct (contains desc key).
  - intro H. inversion H; subst. left. reflexivity.
  - intro H. right. apply IH, H.
Qed.

Lemma chosen_category_name (t : txn) :
  In (fst (chosen_category t)) rule_category_names.
Proof.
  unfold chosen_category.
  destruct (first_rule _ mapping) as [cat|] eqn:E.
  - apply first_rule_In in E. apply (in_map fst) in E.
    remember (fst cat) as n eqn:En. clear En.
    vm_compute in E. unfold rule_category_names.
    repeat (destruct E as [<-|E]; [vm_compute; tauto|]). destruct E.
  - simpl. unfold rule_category_names. simpl. tauto.
Qed.

(** X15. On a store that holds the categories the rules can ask for (as
    the seeded one does), categorising never changes the store and always
    finds an identifier: the one of the stored row with the chosen name. *)
Theorem categorize_keeps_seeded_store (t : txn) (s : store) :
  has_categories rule_category_names s ->
  exists row,
    In row (categories s) /\ cat_name row = fst (chosen_category t) /\
    categorize_transaction sqlite_db t s = ((Some (cat_id row), sign_flags t), s).
Proof.
  intro Hhas.
  destruct (Hhas _ (chosen_category_name t)) as (row0 & Hin0 & Hname0).
  rewrite categorize_transaction_eq. cbn [sqlite_db get_or_create_category].
  unfold db_get_or_create_category.
  destruct (find (fun row => str_eqb (cat_name row) (fst (chosen_category t)))
              (categories s)) as [row|] eqn:E.
  - apply find_some in E. destruct E as [Hin Heq]. apply str_eqb_eq in Heq.
    exists row. auto.
  - exfalso. apply (find_none _ _ E) in Hin0.
    rewrite Hname0, str_eqb_refl in Hin0. discriminate.
Qed.

End CategorizeMore.

Lemma seeded_has_categories : has_categories rule_category_names seeded.
Proof.
  intros name Hin. unfold rule_category_names in Hin.
  repeat (destruct Hin as [<-|Hin];
          [eexists; apply find_category_some; vm_compute; reflexivity|]).
  destruct Hin.
Qed.

Lemma categorize_keeps_seeded_store_witness :
  let t := {| posted_at := Some {| year := 2024; month := 3; day := 14 |};
              description := Some (lit "UBER TRIP 123");
              amount := Some (Qred 18.40) |} in
  has_categories rule_category_names seeded /\
  categorize_transaction (U := ascii_only) sqlite_db t seeded =
    ((Some 4%Z, {| is_income := true; is_expense := false |}), seeded).
Proof.
  intro t. split; [exact seeded_has_categories|].
  destruct (categorize_keeps_seeded_store (U := ascii_only) t seeded
              seeded_has_categories) as (row & _ & _ & E).
  rewrite E. vm_compute in E. injection E as E1. vm_compute. congruence.
Defined.

(** * Properties of accounts and statements *)

Lemma existsb_snoc (A : Type) (f : A -> bool) (l : list A) (x : A) :
  existsb f (l ++ [x]) = existsb f l || f x.
Proof. rewrite existsb_app. simpl. rewrite orb_false_r. reflexivity. Qed.

Lemma existsb_not_In (ids : list Z) (id : Z) :
  ~ In id ids -> existsb (fun i => (i =? id)%Z) ids = false.
Proof.
  intro H. destruct (existsb (fun i => (i =? id)%Z) ids) eqn:E; [|reflexivity].
  apply existsb_exists in E. destruct E as (i & Hi & Ei).
  apply Z.eqb_eq in Ei. subst i. contradiction.
Qed.

Lemma existsb_of_map (A B : Type) (g : A -> B) (f : B -> bool) (l : list A) :
  existsb f (map g l) = existsb (fun x => f (g x)) l.
Proof.
  induction l as [|x l IH]; simpl; [reflexivity|]. rewrite IH. reflexivity.
Qed.


Lemma find_same_account_none (name : str) (institution : option str)
    (rows : list account_row) :
  find (same_account name institution) rows = None ->
  ~ In (name, ifnull institution) (map account_key rows).
Proof.
  intros H Hin. apply in_map_iff in Hin. destruct Hin as (row & E & Hrow).
  apply (find_none _ _ H) in Hrow. unfold account_key in E.
  injection E as E1 E2. unfold same_account in Hrow.
  rewrite E1, E2, !str_eqb_refl in Hrow. discriminate.
Qed.

Lemma find_same_account_some (name : str) (institution : option str)
    (rows : list account_row) (row : account_row) :
  find (same_account name institution) rows = Some row ->
  In row rows /\ account_key row = (name, ifnull institution).
Proof.
  intro H. apply find_some in H. destruct H as [Hin Heq].
  unfold same_account in Heq. apply andb_prop in Heq. destruct Heq as [E1 E2].
  apply str_eqb_eq in E1, E2. unfold account_key. rewrite E1, E2. auto.
Qed.

Lemma has_account_In (row : account_row) (s : ledger) :
  In row (accounts s) -> has_account (acc_id row) s = true.
Proof.
  intro H. unfold has_account. apply existsb_exists. exists row.
  split; [exact H|apply Z.eqb_refl].
Qed.

(** What [ensure_account] returns is the identifier of the stored row with
    the name and the institution asked for; it touches the [accounts] table
    only. *)
Lemma ensure_account_find (today : date) (account_type name : str)
    (institution : option str) (s : ledger) :
  exists row added,
    ensure_account today account_type name institution s =
      (Ok (acc_id row),
       {| accounts := accounts s ++ added; statements := statements s;
          tables := tables s |}) /\
    (length added <= 1)%nat /\
    find (same_account name institution) (accounts s ++ added) = Some row.
Proof.
  unfold ensure_account.
  destruct (find (same_account name institution) (accounts s)) as [row|] eqn:E.
  - exists row, []. rewrite app_nil_r. destruct s; simpl in *.
    split; [reflexivity|]. split; [lia|exact E].
  - set (new := {| acc_id := next_rowid (map acc_id (accounts s));
                   acc_type := account_type; acc_name := name;
                   acc_institution := institution; acc_currency := lit "USD";
                   acc_opened_at := Some today; acc_closed_at := None |}).
    exists new, [new]. split; [reflexivity|]. split; [simpl; lia|].
    rewrite (find_app_none _ _ _ _ E). simpl. unfold same_account. simpl.
    rewrite !str_eqb_refl. reflexivity.
Qed.

(** X16. [ensure_account] is a get-or-create keyed by the name and the
    institution (a missing institution counting as the empty text): it
    returns the identifier of a stored account, adds at most one row and
    touches no other table; asked again for the same name and institution,
    on any day and with any account type, it returns the same identifier
    and changes nothing. *)
Theorem ensure_account_is_stable (today : date) (account_type name : str)
    (institution : option str) (s : ledger) :
  exists id s1 added,
    ensure_account today account_type name institution s = (Ok id, s1) /\
    has_account id s1 = true /\
    accounts s1 = accounts s ++ added /\ (length added <= 1)%nat /\
    statements s1 = statements s /\ tables s1 = tables s /\
    forall today' account_type' institution',
      ifnull institution' = ifnull institution ->
      ensure_account today' account_type' name institution' s1 = (Ok id, s1).
Proof.
  destruct (ensure_account_find today account_type name institution s)
    as (row & added & E & Hlen & Hfind).
  eexists _, _, added. split; [exact E|].
  pose proof (find_same_account_some _ _ _ _ Hfind) as [Hin _].
  split; [apply has_account_In; exact Hin|].
  split; [reflexivity|]. split; [exact Hlen|].
  split; [reflexivity|]. split; [reflexivity|].
  intros today' account_type' institution' Hi.
  unfold ensure_account, same_account. rewrite Hi.
  change (fun row0 : account_row =>
            str_eqb (acc_name row0) name &&
            str_eqb (ifnull (acc_institution row0)) (ifnull institution))
    with (same_account name institution).
  cbn [accounts]. rewrite Hfind. reflexivity.
Qed.

(** X17. [ensure_account] keeps the [accounts] table free of two rows with
    the same name and institution, and of two rows with the same
    identifier, although the schema has no such constraint on the name. *)
Theorem ensure_account_keeps_unique (today : date) (account_type name : str)
    (institution : option str) (s : ledger) :
  accounts_unique s ->
  accounts_unique (snd (ensure_account today account_type name institution s)).
Proof.
  intros [Hk Hi]. unfold ensure_account.
  destruct (find (same_account name institution) (accounts s)) as [row|] eqn:E;
    cbn [snd]; [split; assumption|].
  unfold accounts_unique. cbn [accounts]. rewrite !map_app. simpl. split.
  - apply NoDup_snoc; [exact Hk|].
    unfold account_key at 2. simpl.
    apply find_same_account_none. exact E.
  - apply NoDup_snoc; [exact Hi|]. apply next_rowid_fresh.
Qed.


Lemma ensure_account_keeps_unique_witness :
  let s := snd (ensure_account {| year := 2024; month := 5; day := 2 |}
                  (lit "bank") (lit "Chase ****1234") (Some (lit "Chase"))
                  empty_ledger) in
  accounts_unique s /\
  accounts_unique
    (snd (ensure_account {| year := 2024; month := 6; day := 2 |}
            (lit "credit_card") (lit "Chase ****9999") None s)).
Proof.
  intro s.
  assert (H : accounts_unique s).
  { split; vm_compute;
      repeat (constructor; [simpl; intuition discriminate|]); constructor. }
  split; [exact H|].
  exact (ensure_account_keeps_unique _ _ _ _ s H).
Defined.


(** * Properties of the import loop *)

Lemma has_categories_present (names : list str) (s : store) (name kind : str) :
  has_categories names s -> In name names ->
  db_get_or_create_category name kind s =
    (fst (db_get_or_create_category name kind s), s).
Proof.
  intros Hhas Hin. destruct (Hhas name Hin) as (row0 & Hrow0 & Hname0).
  unfold db_get_or_create_category.
  destruct (find (fun row => str_eqb (cat_name row) name) (categories s))
    as [row|] eqn:E; [reflexivity|].
  exfalso. apply (find_none _ _ E) in Hrow0.
  rewrite Hname0, str_eqb_refl in Hrow0. discriminate.
Qed.

Lemma get_or_create_category_frame (name kind : str) (s : store) :
  exists id added,
    db_get_or_create_category name kind s =
      (Ok id, {| categories := categories s ++ added;
                 transactions := transactions s |}).
Proof.
  unfold db_get_or_create_category.
  destruct (find (fun row => str_eqb (cat_name row) name) (categories s))
    as [row|].
  - exists (cat_id row), []. rewrite app_nil_r. destruct s. reflexivity.
  - eexists _, [_]. reflexivity.
Qed.

Lemma no_cue_dec (t : str) : no_cue t \/ ~ no_cue t.
Proof.
  destruct (Z.eq_dec
              (hits mortgage_cues t + hits cc_cues t + hits brkg_cues t +
               hits bank_cues t) 0) as [E|E].
  - left. apply no_cue_hits. exact E.
  - right. intro H. apply E. apply no_cue_hits. exact H.
Qed.

Section ImportProperties.
Context {U : UnicodeData}.
Variable dateutil_parse : str -> date -> result date.

(** The extractor returns, and what it returns has the three keys. *)
Lemma extract_transactions_complete (today_year : Z) (pages_text : list str) :
  exists ts,
    extract_transactions_from_text dateutil_parse today_year pages_text = Ok ts /\
    forall t, In t ts ->
      exists posted desc amt,
        posted_at t = Some posted /\ description t = Some desc /\
        amount t = Some amt.
Proof.
  unfold extract_transactions_from_text.
  destruct (infer_default_year_ok today_year (all_lines pages_text)) as (y & Ey).
  rewrite Ey. cbn [bind].
  destruct (extract_lines_ok dateutil_parse y (all_lines pages_text))
    as (ts & E & _).
  exists ts. split; [exact E|]. intros t Ht.
  destruct (extract_lines_In dateutil_parse y _ _ E t Ht) as (ln & _ & He).
  destruct (extract_line_complete dateutil_parse y ln t He)
    as (posted & desc & amt & Hp & _ & Hd & _ & Ha).
  exists posted, desc, amt. auto.
Qed.

(** One round of the loop over the transactions, on the whole database. *)
Lemma import_transaction_ledger (account_id statement_id : Z) (t : txn)
    (s : ledger) (posted : date) (desc : str) (amt : Q) :
  posted_at t = Some posted -> description t = Some desc ->
  amount t = Some amt ->
  has_account account_id s = true -> has_statement statement_id s = true ->
  exists id row added,
    import_transaction ledger_db account_id statement_id t s =
      (Ok id,
       {| accounts := accounts s; statements := statements s;
          tables := {| categories := categories (tables s) ++ added;
                       transactions := transactions (tables s) ++ [(id, row)] |} |}) /\
    r_account_id row = account_id /\ r_statement_id row = statement_id /\
    row_keys (id, row) = txn_keys t /\
    (has_categories rule_category_names (tables s) -> added = []).
Proof.
  intros Hp Hd Ha Hacc Hst.
  unfold import_transaction. rewrite categorize_transaction_eq.
  cbn [ledger_db get_or_create_category insert_transaction].
  unfold ledger_get_or_create_category.
  pose proof (has_categories_present rule_category_names (tables s)
                (fst (chosen_category t)) (snd (chosen_category t))) as Hpres.
  destruct (get_or_create_category_frame (fst (chosen_category t))
              (snd (chosen_category t)) (tables s)) as (cid & added & E).
  rewrite E in *. cbn [fst snd try_or_None]. rewrite Hp, Hd, Ha.
  unfold ledger_insert_transaction.
  cbn [transaction_row r_account_id r_statement_id].
  unfold has_account, has_statement in *. cbn [accounts statements].
  rewrite Hacc, Hst. cbn [andb].
  unfold db_insert_transaction. cbn [categories transactions tables].
  eexists _, _, added. split; [reflexivity|].
  split; [reflexivity|]. split; [reflexivity|]. split.
  - unfold row_keys, txn_keys. cbn [snd r_posted_at r_description r_amount].
    rewrite Hp, Hd, Ha. reflexivity.
  - intro Hhas. specialize (Hpres Hhas (chosen_category_name t)).
    cbn [fst] in Hpres. injection Hpres as Hc.
    destruct (tables s) as [cats txs]. cbn [categories] in *.
    injection Hc as Hc.
    rewrite <- (app_nil_r cats) in Hc at 2. apply app_inv_head in Hc. exact Hc.
Qed.

Lemma import_transactions_ledger (account_id statement_id : Z)
    (txns : list txn) :
  (forall t, In t txns ->
     exists posted desc amt,
       posted_at t = Some posted /\ description t = Some desc /\
       amount t = Some amt) ->
  forall s,
    has_account account_id s = true -> has_statement statement_id s = true ->
    exists added new,
      import_transactions account_id statement_id txns s =
        (Ok tt,
         {| accounts := accounts s; statements := statements s;
            tables := {| categories := categories (tables s) ++ added;
                         transactions := transactions (tables s) ++ new |} |}) /\
      map row_keys new = map txn_keys txns /\
      rows_of account_id statement_id new /\
      (has_categories rule_category_names (tables s) -> added = []).
Proof.
  induction txns as [|t txns IH]; intros Hall s Hacc Hst.
  - exists [], []. rewrite !app_nil_r. destruct s as [a st [c tx]].
    split; [reflexivity|]. split; [reflexivity|].
    split; [intros row []|reflexivity].
  - destruct (Hall t (or_introl eq_refl)) as (p & d & a & Hp & Hd & Ha).
    destruct (import_transaction_ledger account_id statement_id t s p d a
                Hp Hd Ha Hacc Hst)
      as (id & row & added1 & E1 & Ra & Rs & Rk & Rc).
    cbn [import_transactions]. unfold bind_io at 1. rewrite E1.
    match goal with
    | |- context [import_transactions _ _ txns ?x] => set (s1 := x)
    end.
    destruct (IH (fun t' Ht' => Hall t' (or_intror Ht')) s1)
      as (added2 & new2 & E2 & K2 & R2 & C2);
      [exact Hacc|exact Hst|].
    rewrite E2. subst s1. cbn [accounts statements tables categories transactions].
    exists (added1 ++ added2), ((id, row) :: new2).
    rewrite <- !app_assoc. split; [reflexivity|]. split.
    + cbn [map]. rewrite Rk, K2. reflexivity.
    + split.
      * intros r [<-|Hr]; [cbn [snd]; auto|apply R2; exact Hr].
      * intro Hhas. rewrite (Rc Hhas) in *. cbn [app].
        apply C2. cbn [tables categories]. rewrite app_nil_r.
        intros name Hn. destruct (Hhas name Hn) as (r & Hr & En).
        exists r. auto.
Qed.

(** The import proper: the account is there afterwards, and the rest
    either stops at the period, at the path or at the statement, or stores
    the statement and every extracted transaction. *)
Lemma import_classified_cases (doc : document) (h text : str)
    (pages : list str) (ty : str) (s : ledger) :
  exists row added,
    let s1 := {| accounts := accounts s ++ added; statements := statements s;
                 tables := tables s |} in
    ensure_account (doc_opened_on doc) ty (account_name text)
      (Some (account_institution text)) s = (Ok (acc_id row), s1) /\
    (length added <= 1)%nat /\
    find (same_account (account_name text) (Some (account_institution text)))
      (accounts s ++ added) = Some row /\
    ((exists e,
        infer_statement_period (doc_period_today doc) text = Raise e /\
        import_classified dateutil_parse doc h text pages ty s = (Raise e, s1)) \/
     exists ps pe,
       infer_statement_period (doc_period_today doc) text = Ok (ps, pe) /\
       ((exists e,
           doc_abspath doc = Raise e /\
           import_classified dateutil_parse doc h text pages ty s = (Raise e, s1)) \/
        exists path,
          doc_abspath doc = Ok path /\
          ((existsb (same_period (acc_id row) ps pe) (statements s) = true /\
            import_classified dateutil_parse doc h text pages ty s =
              (Raise IntegrityError, s1)) \/
           (existsb (same_period (acc_id row) ps pe) (statements s) = false /\
            exists txns addedc new,
              extract_transactions_from_text dateutil_parse (doc_year_today doc)
                pages = Ok txns /\
              import_classified dateutil_parse doc h text pages ty s =
                (Ok match doc_archive doc pe with
                    | Ok _ => Imported pe
                    | Raise e => ImportedUnfiled pe e
                    end,
                 {| accounts := accounts s ++ added;
                    statements :=
                      statements s ++
                      [{| stmt_id := next_rowid (map stmt_id (statements s));
                          stmt_account_id := acc_id row;
                          stmt_period_start := ps; stmt_period_end := pe;
                          stmt_source_file_path := path;
                          stmt_source_file_hash := h;
                          stmt_imported_at := doc_now doc;
                          stmt_status := lit "parsed" |}];
                    tables :=
                      {| categories := categories (tables s) ++ addedc;
                         transactions := transactions (tables s) ++ new |} |}) /\
              map row_keys new = map txn_keys txns /\
              rows_of (acc_id row) (next_rowid (map stmt_id (statements s))) new /\
              (has_categories rule_category_names (tables s) -> addedc = []))))).
Proof.
  destruct (ensure_account_find (doc_opened_on doc) ty (account_name text)
              (Some (account_institution text)) s)
    as (row & added & Ee & Hlen & Hfind).
  exists row, added. cbn zeta.
  split; [exact Ee|]. split; [exact Hlen|]. split; [exact Hfind|].
  set (s1 := {| accounts := accounts s ++ added; statements := statements s;
                tables := tables s |}) in *.
  assert (Hacc : has_account (acc_id row) s1 = true).
  { apply has_account_In. apply (find_same_account_some _ _ _ _ Hfind). }
  remember (import_classified dateutil_parse doc h text pages ty s) as res
    eqn:R.
  unfold import_classified in R. unfold bind_io at 1 in R. rewrite Ee in R.
  unfold bind_io at 1 in R. unfold lift at 1 in R.
  destruct (infer_statement_period (doc_period_today doc) text) as [[ps pe]|e];
    [right|left; exists e; split; [reflexivity|exact R]].
  exists ps, pe. split; [reflexivity|].
  unfold bind_io at 1 in R. unfold lift at 1 in R.
  destruct (doc_abspath doc) as [path|e];
    [right|left; exists e; split; [reflexivity|exact R]].
  exists path. split; [reflexivity|].
  unfold bind_io at 1 in R. unfold insert_statement in R.
  rewrite Hacc in R. cbn [negb] in R.
  change (statements s1) with (statements s) in R.
  destruct (existsb (same_period (acc_id row) ps pe) (statements s)) eqn:Ep;
    [left; split; [reflexivity|exact R]|right].
  split; [reflexivity|].
  destruct (extract_transactions_complete (doc_year_today doc) pages)
    as (txns & Ex & Hall).
  unfold bind_io at 1 in R. unfold lift at 1 in R. rewrite Ex in R.
  unfold bind_io in R.
  match type of R with
  | context [import_transactions ?a ?i txns ?x] => set (s2 := x) in R
  end.
  assert (Hacc2 : has_account (acc_id row) s2 = true) by exact Hacc.
  assert (Hst2 : has_statement (next_rowid (map stmt_id (statements s))) s2 = true).
  { unfold has_statement, s2. cbn [statements]. rewrite existsb_snoc.
    cbn [stmt_id]. rewrite Z.eqb_refl. apply orb_true_r. }
  destruct (import_transactions_ledger (acc_id row)
              (next_rowid (map stmt_id (statements s))) txns Hall s2 Hacc2 Hst2)
    as (addedc & new & Et & Hk & Hr & Hc).
  exists txns, addedc, new. split; [exact Ex|].
  rewrite Et in R. unfold ret in R.
  split; [rewrite R; destruct (doc_archive doc pe); reflexivity|].
  split; [exact Hk|]. split; [exact Hr|exact Hc].
Qed.

(** The round up to the classification. *)
Lemma import_document_prefix (doc : document) (s : ledger) :
  (exists e, doc_hash doc = Raise e /\
             import_document dateutil_parse doc s = (SkippedError e, s)) \/
  exists h,
    doc_hash doc = Ok h /\
    ((statement_exists_by_hash h s = true /\
      import_document dateutil_parse doc s = (SkippedDuplicate, s)) \/
     (statement_exists_by_hash h s = false /\
      ((exists e, doc_text doc = Raise e /\
                  import_document dateutil_parse doc s = (SkippedError e, s)) \/
       exists text pages,
         doc_text doc = Ok (text, pages) /\
         ((no_cue (lower text) /\
           import_document dateutil_parse doc s =
             (match doc_hold doc with
              | Ok _ => SkippedUnclassified
              | Raise e => SkippedError e
              end, s)) \/
          (~ no_cue (lower text) /\
           exists ty,
             classify_statement text = Ok (ty, 1%Q) /\
             import_document dateutil_parse doc s =
               match import_classified dateutil_parse doc h text pages ty s with
               | (Ok o, s') => (o, s')
               | (Raise e, s') => (SkippedError e, s')
               end))))).
Proof.
  remember (import_document dateutil_parse doc s) as res eqn:R.
  unfold import_document, import_body in R.
  unfold bind_io at 1 in R. unfold lift at 1 in R.
  destruct (doc_hash doc) as [h|e]; [right|left; exists e; auto].
  exists h. split; [reflexivity|].
  unfold bind_io at 1 in R.
  destruct (statement_exists_by_hash h s) eqn:Ek; [left; auto|right].
  split; [reflexivity|].
  unfold bind_io at 1 in R. unfold lift at 1 in R.
  destruct (doc_text doc) as [[text pages]|e]; [right|left; exists e; auto].
  exists text, pages. split; [reflexivity|].
  destruct (classify_core text)
    as (ty & c & _ & _ & Ec & _ & _ & _ & Hz & Ho).
  unfold bind_io at 1 in R. unfold lift at 1 in R. rewrite Ec in R.
  destruct (no_cue_dec (lower text)) as [Hno|Hyes].
  - left. split; [exact Hno|]. rewrite (Hz Hno) in R.
    change (float_ltb 0 (1 # 2)) with true in R. cbn iota in R.
    unfold bind_io, lift, ret in R. rewrite R.
    destruct (doc_hold doc); reflexivity.
  - right. split; [exact Hyes|]. exists ty. rewrite (Ho Hyes) in R, Ec.
    split; [exact Ec|].
    change (float_ltb 1 (1 # 2)) with false in R. cbn iota in R. exact R.
Qed.

(** What one round does to the database: nothing but, at most, a new
    account; or a new statement with all its transactions. *)
Lemma import_document_effect (doc : document) (s : ledger) :
  (is_imported (fst (import_document dateutil_parse doc s)) = false /\
   exists added,
     snd (import_document dateutil_parse doc s) =
       {| accounts := accounts s ++ added; statements := statements s;
          tables := tables s |} /\
     (length added <= 1)%nat) \/
  (exists h text pages ty row added ps pe path txns addedc new,
     doc_hash doc = Ok h /\ statement_exists_by_hash h s = false /\
     doc_text doc = Ok (text, pages) /\ ~ no_cue (lower text) /\
     classify_statement text = Ok (ty, 1%Q) /\
     find (same_account (account_name text) (Some (account_institution text)))
       (accounts s ++ added) = Some row /\
     (length added <= 1)%nat /\
     infer_statement_period (doc_period_today doc) text = Ok (ps, pe) /\
     doc_abspath doc = Ok path /\
     existsb (same_period (acc_id row) ps pe) (statements s) = false /\
     extract_transactions_from_text dateutil_parse (doc_year_today doc) pages =
       Ok txns /\
     import_document dateutil_parse doc s =
       (match doc_archive doc pe with
        | Ok _ => Imported pe
        | Raise e => ImportedUnfiled pe e
        end,
        {| accounts := accounts s ++ added;
           statements :=
             statements s ++
             [{| stmt_id := next_rowid (map stmt_id (statements s));
                 stmt_account_id := acc_id row;
                 stmt_period_start := ps; stmt_period_end := pe;
                 stmt_source_file_path := path;
                 stmt_source_file_hash := h;
                 stmt_imported_at := doc_now doc;
                 stmt_status := lit "parsed" |}];
           tables :=
             {| categories := categories (tables s) ++ addedc;
                transactions := transactions (tables s) ++ new |} |}) /\
     map row_keys new = map txn_keys txns /\
     rows_of (acc_id row) (next_rowid (map stmt_id (statements s))) new /\
     (has_categories rule_category_names (tables s) -> addedc = [])).
Proof.
  assert (Hsame : forall o,
            is_imported o = false ->
            import_document dateutil_parse doc s = (o, s) ->
            is_imported (fst (import_document dateutil_parse doc s)) = false /\
            exists added,
              snd (import_document dateutil_parse doc s) =
                {| accounts := accounts s ++ added; statements := statements s;
                   tables := tables s |} /\
              (length added <= 1)%nat).
  { intros o Ho E. rewrite E. split; [exact Ho|].
    exists []. rewrite app_nil_r. destruct s. split; [reflexivity|simpl; lia]. }
  destruct (import_document_prefix doc s)
    as [(e & _ & E)|(h & Eh & [[_ E]|[Ek [(e & _ & E)|(text & pages & Et & C)]]])];
    try (left; eapply Hsame; [|exact E]; reflexivity).
  destruct C as [[_ E]|(Hyes & ty & Ec & E)].
  { left. eapply Hsame; [|exact E]. destruct (doc_hold doc); reflexivity. }
  destruct (import_classified_cases doc h text pages ty s)
    as (row & added & Ee & Hlen & Hfind & C). cbn zeta in *.
  assert (Hskip : forall e,
            import_classified dateutil_parse doc h text pages ty s =
              (Raise e,
               {| accounts := accounts s ++ added; statements := statements s;
                  tables := tables s |}) ->
            is_imported (fst (import_document dateutil_parse doc s)) = false /\
            exists added0,
              snd (import_document dateutil_parse doc s) =
                {| accounts := accounts s ++ added0; statements := statements s;
                   tables := tables s |} /\
              (length added0 <= 1)%nat).
  { intros e Ei. rewrite E, Ei. split; [reflexivity|].
    exists added. split; [reflexivity|exact Hlen]. }
  destruct C as [(e & _ & Ei)|(ps & pe & Ep & [(e & _ & Ei)|(path & Epath & C)])];
    try (left; exact (Hskip _ Ei)).
  destruct C as [[_ Ei]|(Enew & txns & addedc & new & Ex & Ei & Hk & Hr & Hc)];
    [left; exact (Hskip _ Ei)|].
  right. exists h, text, pages, ty, row, added, ps, pe, path, txns, addedc, new.
  rewrite E, Ei. repeat (split; [assumption|]).
  split; [reflexivity|]. split; [exact Hk|]. split; [exact Hr|exact Hc].
Qed.

(** A document whose digest is known is skipped. *)
Lemma import_known (doc : document) (s : ledger) (h : str) :
  doc_hash doc = Ok h -> statement_exists_by_hash h s = true ->
  import_document dateutil_parse doc s = (SkippedDuplicate, s).
Proof.
  intros Eh Ek.
  destruct (import_document_prefix doc s)
    as [(e & Eh' & _)|(h' & Eh' & [[_ E]|[Ek' _]])].
  - rewrite Eh in Eh'. discriminate.
  - exact E.
  - rewrite Eh in Eh'. injection Eh' as <-. rewrite Ek in Ek'. discriminate.
Qed.

Lemma hash_stays_known (doc : document) (s : ledger) (h : str) :
  statement_exists_by_hash h s = true ->
  statement_exists_by_hash h (snd (import_document dateutil_parse doc s)) = true.
Proof.
  intro Hk.
  destruct (import_document_effect doc s)
    as [(_ & added & E & _)|
        (h' & text & pages & ty & row & added & ps & pe & path & txns & addedc &
         new & _ & _ & _ & _ & _ & _ & _ & _ & _ & _ & _ & E & _)];
    rewrite E; unfold statement_exists_by_hash in *; cbn [snd statements].
  - exact Hk.
  - rewrite existsb_snoc, Hk. reflexivity.
Qed.

Lemma hash_stays_known_all (docs : list document) :
  forall (i k : Z) (s : ledger) (h : str),
    statement_exists_by_hash h s = true ->
    statement_exists_by_hash h (snd (import_all dateutil_parse docs i k s)) = true.
Proof.
  induction docs as [|doc docs IH]; intros i k s h Hk; [exact Hk|].
  cbn [import_all]. pose proof (hash_stays_known doc s h Hk) as H1.
  destruct (import_document dateutil_parse doc s) as [o s1]. cbn [snd] in H1.
  destruct o; apply IH; exact H1.
Qed.

(** X19. When a document is counted as imported, the database has gained
    exactly one statement, stored under the document's digest with the
    status "parsed" and owned by an existing account, and exactly one
    transaction row per transaction that the extractor finds on the pages,
    in the same order, with the same date, description and amount, each
    owned by that account and that statement. *)
Theorem imported_document_rows (doc : document) (s s1 : ledger) (o : outcome) :
  import_document dateutil_parse doc s = (o, s1) ->
  is_imported o = true ->
  exists h text pages txns stmt new,
    doc_hash doc = Ok h /\ doc_text doc = Ok (text, pages) /\
    extract_transactions_from_text dateutil_parse (doc_year_today doc) pages =
      Ok txns /\
    statements s1 = statements s ++ [stmt] /\
    stmt_source_file_hash stmt = h /\ stmt_status stmt = lit "parsed" /\
    has_account (stmt_account_id stmt) s1 = true /\
    has_statement (stmt_id stmt) s = false /\
    transactions (tables s1) = transactions (tables s) ++ new /\
    map row_keys new = map txn_keys txns /\
    rows_of (stmt_account_id stmt) (stmt_id stmt) new.
Proof.
  intros E Ho.
  destruct (import_document_effect doc s)
    as [(Hno & _)|
        (h & text & pages & ty & row & added & ps & pe & path & txns & addedc &
         new & Eh & _ & Et & _ & _ & Hfind & _ & _ & _ & _ & Ex & E' & Hk & Hr & _)].
  - rewrite E in Hno. cbn [fst] in Hno. rewrite Ho in Hno. discriminate.
  - rewrite E in E'. injection E' as _ ->.
    eexists h, text, pages, txns, _, new.
    split; [exact Eh|]. split; [exact Et|]. split; [exact Ex|].
    cbn [statements tables transactions stmt_source_file_hash stmt_status
         stmt_account_id stmt_id].
    split; [reflexivity|]. split; [reflexivity|]. split; [reflexivity|].
    split.
    { apply (has_account_In row).
      apply (find_same_account_some _ _ _ _ Hfind). }
    split.
    { unfold has_statement.
      rewrite <- (existsb_not_In (map stmt_id (statements s))
                    (next_rowid (map stmt_id (statements s)))
                    (proj2 (next_rowid_fresh _))).
      rewrite existsb_of_map. reflexivity. }
    split; [reflexivity|]. split; [exact Hk|exact Hr].
Qed.

(** X20. Once a document has been imported, a file with the same digest
    is skipped as a duplicate and changes nothing, whatever has been
    processed in between. *)
Theorem imported_digest_is_skipped_from_then_on
    (doc : document) (s s1 : ledger) (o : outcome) :
  import_document dateutil_parse doc s = (o, s1) ->
  is_imported o = true ->
  forall (later : list document) (i k : Z) (doc2 : document),
    doc_hash doc2 = doc_hash doc ->
    import_document dateutil_parse doc2
      (snd (import_all dateutil_parse later i k s1)) =
    (SkippedDuplicate, snd (import_all dateutil_parse later i k s1)).
Proof.
  intros E Ho later i k doc2 Eh2.
  destruct (import_document_effect doc s)
    as [(Hno & _)|
        (h & text & pages & ty & row & added & ps & pe & path & txns & addedc &
         new & Eh & _ & _ & _ & _ & _ & _ & _ & _ & _ & _ & E' & _)].
  - rewrite E in Hno. cbn [fst] in Hno. rewrite Ho in Hno. discriminate.
  - rewrite E in E'. injection E' as _ ->.
    apply (import_known doc2 _ h); [rewrite Eh2; exact Eh|].
    apply hash_stays_known_all.
    unfold statement_exists_by_hash. cbn [statements].
    rewrite existsb_snoc. cbn [stmt_source_file_hash].
    rewrite str_eqb_refl. apply orb_true_r.
Qed.

(** X21. A document in whose text no cue phrase occurs is never imported
    and leaves the database as it was. *)
Theorem unclassified_document_changes_nothing
    (doc : document) (s : ledger) (text : str) (pages : list str) :
  doc_text doc = Ok (text, pages) ->
  no_cue (lower text) ->
  is_imported (fst (import_document dateutil_parse doc s)) = false /\
  snd (import_document dateutil_parse doc s) = s.
Proof.
  intros Et Hno.
  destruct (import_document_prefix doc s)
    as [(e & _ & E)|(h & Eh & [[_ E]|[Ek [(e & _ & E)|(text' & pages' & Et' & C)]]])];
    try (rewrite E; split; reflexivity).
  rewrite Et in Et'. injection Et' as <- <-.
  destruct C as [[_ E]|(Hyes & _)]; [|contradiction].
  rewrite E. destruct (doc_hold doc); split; reflexivity.
Qed.





Lemma categories_kept (doc : document) (s : ledger) :
  has_categories rule_category_names (tables s) ->
  categories (tables (snd (import_document dateutil_parse doc s))) =
  categories (tables s).
Proof.
  intro Hhas.
  destruct (import_document_effect doc s)
    as [(_ & added & E & _)|
        (h & text & pages & ty & row & added & ps & pe & path & txns & addedc &
         new & _ & _ & _ & _ & _ & _ & _ & _ & _ & _ & _ & E & _ & _ & Hc)];
    rewrite E; cbn [snd tables categories]; [reflexivity|].
  rewrite (Hc Hhas). apply app_nil_r.
Qed.

(** X25. On a database that holds the categories the rules can ask for, as
    a new one does after its initialisation, no batch of imports ever adds
    or changes a category. *)
Theorem import_adds_no_category
    (docs : list document) (i k : Z) (s : ledger) :
  has_categories rule_category_names (tables s) ->
  categories (tables (snd (import_all dateutil_parse docs i k s))) =
  categories (tables s).
Proof.
  revert i k s. induction docs as [|doc docs IH]; intros i k s Hhas;
    [reflexivity|].
  cbn [import_all]. pose proof (categories_kept doc s Hhas) as H1.
  destruct (import_document dateutil_parse doc s) as [o s1]. cbn [snd] in H1.
  assert (Hhas1 : has_categories rule_category_names (tables s1)).
  { unfold has_categories in *. rewrite H1. exact Hhas. }
  rewrite <- H1.
  destruct o; apply IH; exact Hhas1.
Qed.

End ImportProperties.

(** X26. [init_if_needed] seeds the categories once: run again, or run on
    a table that has rows, it changes nothing; it never touches the other
    tables; and it keeps the names and the identifiers of the categories
    without repetition. *)
Theorem init_if_needed_seeds_once (s : ledger) :
  categories_unique (tables s) ->
  init_if_needed (init_if_needed s) = init_if_needed s /\
  categories_unique (tables (init_if_needed s)) /\
  categories (tables (init_if_needed s)) <> [] /\
  accounts (init_if_needed s) = accounts s /\
  statements (init_if_needed s) = statements s /\
  transactions (tables (init_if_needed s)) = transactions (tables s).
Proof.
  intro Hu. unfold init_if_needed.
  destruct (categories (tables s)) as [|c cs] eqn:E.
  - cbn [tables categories accounts statements transactions seeded].
    split; [reflexivity|]. split.
    + split; vm_compute;
        repeat (constructor; [simpl; intuition discriminate|]); constructor.
    + split; [discriminate|]. auto.
  - rewrite E. split; [reflexivity|]. split; [exact Hu|].
    split; [discriminate|]. auto.
Qed.

Lemma imported_document_rows_witness :
  exists s1 stmt,
    import_document (U := ascii_only) month_day_year sample_document
      (init_if_needed empty_ledger) =
      (Imported {| year := 2024; month := 3; day := 31 |}, s1) /\
    statements s1 = [stmt] /\ stmt_source_file_hash stmt = lit "9f2c" /\
    length (transactions (tables s1)) = 2%nat.
Proof.
  eexists.
  assert (E : import_document (U := ascii_only) month_day_year sample_document
                (init_if_needed empty_ledger) =
              (Imported {| year := 2024; month := 3; day := 31 |}, _))
    by (vm_compute; reflexivity).
  destruct (imported_document_rows (U := ascii_only) month_day_year _ _ _ _ E
              eq_refl)
    as (h & text & pages & txns & stmt & new & Eh & _ & _ & Hs & Hh & _).
  exists stmt. split; [exact E|]. split; [exact Hs|]. split.
  - rewrite Hh. injection Eh as <-. reflexivity.
  - reflexivity.
Defined.

Lemma imported_digest_is_skipped_from_then_on_witness :
  exists s1,
    import_document (U := ascii_only) month_day_year sample_document
      (init_if_needed empty_ledger) =
      (Imported {| year := 2024; month := 3; day := 31 |}, s1) /\
    import_document (U := ascii_only) month_day_year sample_document
      (snd (import_all (U := ascii_only) month_day_year [sample_letter] 1 0 s1)) =
    (SkippedDuplicate,
     snd (import_all (U := ascii_only) month_day_year [sample_letter] 1 0 s1)).
Proof.
  eexists.
  assert (E : import_document (U := ascii_only) month_day_year sample_document
                (init_if_needed empty_ledger) =
              (Imported {| year := 2024; month := 3; day := 31 |}, _))
    by (vm_compute; reflexivity).
  split; [exact E|].
  exact (imported_digest_is_skipped_from_then_on (U := ascii_only)
           month_day_year _ _ _ _ E eq_refl [sample_letter] 1%Z 0%Z
           sample_document eq_refl).
Defined.

Lemma sample_letter_no_cue :
  no_cue (lower (U := ascii_only) (lit "Dear customer, our branch has moved.")).
Proof.
  intros cue Hin. unfold all_cues in Hin.
  repeat (destruct Hin as [<-|Hin]; [vm_compute; reflexivity|]).
  destruct Hin.
Qed.

Lemma unclassified_document_changes_nothing_witness :
  doc_text sample_letter =
    Ok (lit "Dear customer, our branch has moved.",
        [lit "Dear customer, our branch has moved."]) /\
  no_cue (lower (U := ascii_only) (lit "Dear customer, our branch has moved.")) /\
  snd (import_document (U := ascii_only) month_day_year sample_letter
         (init_if_needed empty_ledger)) = init_if_needed empty_ledger.
Proof.
  split; [reflexivity|]. split; [exact sample_letter_no_cue|].
  exact (proj2 (unclassified_document_changes_nothing (U := ascii_only)
                  month_day_year sample_letter (init_if_needed empty_ledger)
                  _ _ eq_refl sample_letter_no_cue)).
Defined.



Lemma init_has_categories :
  has_categories rule_category_names (tables (init_if_needed empty_ledger)).
Proof. exact seeded_has_categories. Qed.

Lemma import_adds_no_category_witness :
  has_categories rule_category_names (tables (init_if_needed empty_ledger)) /\
  categories
    (tables (snd (import_all (U := ascii_only) month_day_year
                    [sample_document; sample_letter; sample_copy] 0 0
                    (init_if_needed empty_ledger)))) =
  categories seeded.
Proof.
  split; [exact init_has_categories|].
  exact (import_adds_no_category (U := ascii_only) month_day_year
           [sample_document; sample_letter; sample_copy] 0%Z 0%Z
           (init_if_needed empty_ledger) init_has_categories).
Defined.

Lemma init_if_needed_seeds_once_witness :
  categories_unique (tables empty_ledger) /\
  init_if_needed (init_if_needed empty_ledger) = init_if_needed empty_ledger /\
  categories (tables (init_if_needed empty_ledger)) = categories seeded.
Proof.
  assert (H : categories_unique (tables empty_ledger))
    by (split; constructor).
  split; [exact H|].
  split; [exact (proj1 (init_if_needed_seeds_once empty_ledger H))|reflexivity].
Defined.

(** * Properties of [read_pdf_text] *)

Lemma extract_pages_length (pages : list (result (option str))) :
  forall ts, extract_pages pages = Ok ts -> length ts = length pages.
Proof.
  induction pages as [|p pages IH]; intros ts H; simpl in H.
  - inversion H. reflexivity.
  - destruct p as [t|]; cbn [bind] in H; [|discriminate].
    destruct (extract_pages pages) as [ts'|]; cbn [bind] in H; [|discriminate].
    inversion H. simpl. rewrite (IH ts' eq_refl). reflexivity.
Qed.

Section PageLines.
Context {U : UnicodeData}.

Lemma page_lines_cons (l : str) (ls : list str) :
  page_lines (l :: ls) = page_lines [l] ++ page_lines ls.
Proof. simpl. destruct (strip l); reflexivity. Qed.

(** A line feed between two texts separates their lines. *)
Lemma splitlines_from_feed (p q : str) :
  forall (after_cr : bool) (cur : str),
    (after_cr = true -> cur = []) ->
    page_lines (splitlines_from after_cr cur (p ++ 10%N :: q)) =
    page_lines (splitlines_from after_cr cur p) ++ page_lines (splitlines q).
Proof.
  induction p as [|c p IH]; intros after_cr cur Hcr.
  - cbn [app splitlines_from]. destruct after_cr.
    + rewrite (Hcr eq_refl). reflexivity.
    + cbn [andb]. change (is_linebreak 10) with true. cbn iota.
      change (10 =? 13)%N with false.
      destruct cur as [|x cur]; [reflexivity|].
      rewrite page_lines_cons. reflexivity.
  - cbn [app splitlines_from].
    destruct (after_cr && (c =? 10)%N).
    + apply IH. intro; discriminate.
    + destruct (is_linebreak c).
      * rewrite (page_lines_cons (rev cur)
                   (splitlines_from (c =? 13)%N [] (p ++ 10%N :: q))).
        rewrite (page_lines_cons (rev cur) (splitlines_from (c =? 13)%N [] p)).
        rewrite IH by reflexivity. rewrite app_assoc. reflexivity.
      * apply IH. intro; discriminate.
Qed.

Lemma page_lines_join (pages_text : list str) :
  page_lines (splitlines (join [10%N] pages_text)) = all_lines pages_text.
Proof.
  unfold all_lines.
  induction pages_text as [|p [|p' rest] IH].
  - reflexivity.
  - cbn [join flat_map]. rewrite app_nil_r. reflexivity.
  - change (join [10%N] (p :: p' :: rest))
      with (p ++ 10%N :: join [10%N] (p' :: rest)).
    unfold splitlines at 1.
    rewrite splitlines_from_feed by (intro; discriminate).
    rewrite IH. reflexivity.
Qed.

(** X27. What [read_pdf_text] returns comes from the first three pages at
    most, and its two components agree: the non-blank trimmed lines of the
    whole text are those of the pages, in order, so that the extractor
    finds in the whole text what it finds in the pages. *)
Theorem read_pdf_text_lines (reader : result (list (result (option str))))
    (text : str) (pages_text : list str) :
  read_pdf_text reader = Ok (text, pages_text) ->
  (length pages_text <= 3)%nat /\
  page_lines (splitlines text) = all_lines pages_text /\
  forall dateutil_parse today_year,
    extract_transactions_from_text dateutil_parse today_year [text] =
    extract_transactions_from_text dateutil_parse today_year pages_text.
Proof.
  unfold read_pdf_text. destruct reader as [pages|]; cbn [bind]; [|discriminate].
  destruct (extract_pages (firstn 3 pages)) as [ts|] eqn:E; cbn [bind];
    [|discriminate].
  intro H. injection H as <- <-.
  pose proof (extract_pages_length _ _ E) as Hlen.
  pose proof (length_firstn 3 pages) as Hf.
  split; [lia|]. split; [apply page_lines_join|].
  intros dateutil_parse today_year. unfold extract_transactions_from_text.
  replace (all_lines [join [10%N] ts]) with (all_lines ts); [reflexivity|].
  rewrite <- page_lines_join. unfold all_lines. cbn [flat_map].
  rewrite app_nil_r. reflexivity.
Qed.

End PageLines.

Lemma read_pdf_text_lines_witness :
  let reader :=
    Ok [Ok (Some (lit "Chase checking")); Ok None;
        Ok (Some (lit "03/14/2024   UBER TRIP 123   18.40"));
        Raise (OtherError "PdfReadError")] in
  exists text pages_text,
    read_pdf_text reader = Ok (text, pages_text) /\
    length pages_text = 3%nat /\
    page_lines (splitlines text) = all_lines pages_text.
Proof.
  intro reader. eexists _, _.
  assert (E : read_pdf_text reader = Ok (_, _)) by reflexivity.
  split; [exact E|]. split; [reflexivity|].
  exact (proj1 (proj2 (read_pdf_text_lines (U := ascii_only) _ _ _ E))).
Defined.
